(** * Windows boot manager: the boot-entry model and its text-protocol adapter

    A shallow embedding of [AdvancedBootManager] (and of the one GUI handler
    that validates the timeout) from [main.py].

    Conventions of the embedding.
    - A Python [str] is a [string]; a character is a code point below 256, so
      the character classes and the case mapping below are Python's,
      restricted to that range.
    - [subprocess.run] is a call to an external tool whose behaviour is left
      open: a transition function over an abstract store that either raises
      (the process could not be spawned) or completes with an exit code and
      the two captured streams.
    - Methods that call the tool, print, or touch GUI variables are
      computations in a small state-and-exception monad; the state records
      every argument vector handed to [subprocess.run] and every line
      printed, in order.
    - The digit limit of the conversions between [int] and [str]
      ([sys.get_int_max_str_digits()]) is a parameter, 0 standing for no
      limit. *)

From Stdlib Require Import String Ascii List ZArith Lia Bool Arith PeanoNat.
From Stdlib Require Import DecimalString Sorted Permutation DecimalPos.
Import ListNotations.
Local Open Scope string_scope.
Local Open Scope list_scope.
Local Open Scope nat_scope.

Set Implicit Arguments.

(** ** Python [str] primitives *)

Module PyStr.

(** [str.isspace] on one character: 9-13, 28-32, 133 and 160. *)
Definition isspace (c : ascii) : bool :=
  let n := nat_of_ascii c in
  ((9 <=? n) && (n <=? 13)) || ((28 <=? n) && (n <=? 32))
  || (n =? 133) || (n =? 160).

(** [str.lower] on one character: A-Z, and the Latin-1 capitals 192-222
    except the multiplication sign 215. *)
Definition lower_char (c : ascii) : ascii :=
  let n := nat_of_ascii c in
  if ((65 <=? n) && (n <=? 90))
     || ((192 <=? n) && (n <=? 222) && negb (n =? 215))
  then ascii_of_nat (n + 32) else c.

Fixpoint lower (s : string) : string :=
  match s with
  | "" => ""
  | String c t => String (lower_char c) (lower t)
  end.

(** Longest prefix whose characters satisfy [p], and what follows it. *)
Fixpoint span (p : ascii -> bool) (s : string) : string * string :=
  match s with
  | "" => ("", "")
  | String c t =>
      if p c then let (a, b) := span p t in (String c a, b) else ("", s)
  end.

Definition lstrip (s : string) : string := snd (span isspace s).

Fixpoint rstrip (s : string) : string :=
  match s with
  | "" => ""
  | String c t =>
      match rstrip t with
      | "" => if isspace c then "" else String c ""
      | r => String c r
      end
  end.

(** [s.strip()] *)
Definition strip (s : string) : string := rstrip (lstrip s).

Definition newline : ascii := "010"%char.

(** [s.split('\n')] *)
Fixpoint split_lines (s : string) : list string :=
  match s with
  | "" => [""]
  | String c t =>
      if Ascii.eqb c newline then "" :: split_lines t
      else match split_lines t with
           | l :: ls => String c l :: ls
           | [] => [String c ""]
           end
  end.

(** [s.startswith(p)] *)
Definition startswith (p s : string) : bool := String.prefix p s.

(** [s.endswith(suf)] *)
Fixpoint endswith (suf s : string) : bool :=
  String.eqb s suf
  || match s with
     | "" => false
     | String _ t => endswith suf t
     end.

(** [sub in s] *)
Fixpoint contains (sub s : string) : bool :=
  String.prefix sub s
  || match s with
     | "" => false
     | String _ t => contains sub t
     end.

(** [s.split(d, 1)[1]]: what follows the first [d]; [None] is the
    [IndexError] of a string without [d]. *)
Fixpoint after_first (d : ascii) (s : string) : option string :=
  match s with
  | "" => None
  | String c t => if Ascii.eqb c d then Some t else after_first d t
  end.

(** Truth value of a string: [if s:]. *)
Definition truthy (s : string) : bool :=
  match s with "" => false | _ => true end.

(** The decimal numeral of an integer: the value of [str(n)] when it does
    not raise. *)
Definition str_of_Z (n : Z) : string := NilZero.string_of_int (Z.to_int n).

Fixpoint forallb_str (p : ascii -> bool) (s : string) : bool :=
  match s with
  | "" => true
  | String c t => p c && forallb_str p t
  end.

End PyStr.

Import PyStr.

(** ** The identifier pattern [{[a-fA-F0-9\-]+}] *)

Module IdPattern.

(** The character class [[a-fA-F0-9\-]]. *)
Definition is_id_char (c : ascii) : bool :=
  let n := nat_of_ascii c in
  ((48 <=? n) && (n <=? 57)) || ((65 <=? n) && (n <=? 70))
  || ((97 <=? n) && (n <=? 102)) || (n =? 45).

(** The pattern matched at the very start of [s]: the matched text and what
    follows it.  The greedy class run can only be followed by the closing
    brace when it is maximal (a shorter run is followed by a class
    character), so backtracking never finds another match. *)
Definition match_here (s : string) : option (string * string) :=
  match s with
  | "" => None
  | String c t =>
      if Ascii.eqb c "{" then
        match span is_id_char t with
        | (String b body, String d r) =>
            if Ascii.eqb d "}"
            then Some (String c (String b body ++ String d ""), r)
            else None
        | _ => None
        end
      else None
  end.

(** [re.search(r'({[a-fA-F0-9\-]+})', s)], group 1: the leftmost match. *)
Fixpoint search (s : string) : option string :=
  match match_here s with
  | Some (m, _) => Some m
  | None =>
      match s with
      | "" => None
      | String _ t => search t
      end
  end.

(** [re.findall(r'{[a-fA-F0-9\-]+}', s)]: the matches from left to right,
    the scan resuming where the last match ended; [skip] counts the
    characters of the last match still to pass over. *)
Fixpoint findall_from (skip : nat) (s : string) : list string :=
  match s with
  | "" => []
  | String _ t =>
      match skip with
      | S k => findall_from k t
      | O =>
          match match_here s with
          | Some (m, _) => m :: findall_from (String.length m - 1) t
          | None => findall_from 0 t
          end
      end
  end.

Definition findall (s : string) : list string := findall_from 0 s.

(** The language of the pattern: an opening brace, one or more class
    characters, a closing brace. *)
Definition is_identifier (m : string) : Prop :=
  exists body,
    m = String "{" (body ++ "}") /\ body <> ""
    /\ forallb_str is_id_char body = true.

(** [m] occurs in [text] starting at offset [i]. *)
Definition occurs_at (text : string) (i : nat) (m : string) : Prop :=
  exists pre post,
    text = (pre ++ m ++ post)%string /\ String.length pre = i.

(** Every offset of [s] at which the pattern matches, with the match;
    offsets count from [off]. *)
Fixpoint matches_at (off : nat) (s : string) : list (nat * string) :=
  match s with
  | "" => []
  | String _ t =>
      match match_here s with
      | Some (m, _) => (off, m) :: matches_at (S off) t
      | None => matches_at (S off) t
      end
  end.

(** None of the first [k] characters of [s] is an opening brace. *)
Fixpoint no_open_brace (k : nat) (s : string) : Prop :=
  match k, s with
  | S k', String c t => c <> "{"%char /\ no_open_brace k' t
  | _, _ => True
  end.

End IdPattern.

(** ** Dictionaries

    A Python [dict] with string keys and values.  Iteration follows insertion
    order and an assignment to a key already present keeps its place, so the
    model is an association list updated in place. *)

Module Dict.

Definition t : Type := list (string * string).

Definition empty : t := [].

(** [d[k]], [None] standing for [KeyError]. *)
Fixpoint get (k : string) (d : t) : option string :=
  match d with
  | [] => None
  | (k', v) :: r => if String.eqb k' k then Some v else get k r
  end.

(** [d[k] = v] *)
Fixpoint set (k v : string) (d : t) : t :=
  match d with
  | [] => [(k, v)]
  | (k', v') :: r =>
      if String.eqb k' k then (k', v) :: r else (k', v') :: set k v r
  end.

End Dict.

(** ** Translation table *)

Module Translation.

Inductive lang : Type := en | de | fr | es.

Definition code (l : lang) : string :=
  match l with en => "en" | de => "de" | fr => "fr" | es => "es" end.

(** Latin-1 letters of the table. *)
Definition a_uml : string := String "228"%char "".
Definition e_acute : string := String "233"%char "".
Definition o_acute : string := String "243"%char "".

(** [self.property_translations] *)
Definition property_translations (l : lang) : Dict.t :=
  match l with
  | en =>
      [ ("identifier", "identifier"); ("device", "device"); ("path", "path");
        ("description", "description"); ("type", "type");
        ("default", "default"); ("bootmgr", "bootmgr");
        ("timeout", "timeout"); ("displayorder", "displayorder");
        ("osdevice", "osdevice") ]
  | de =>
      [ ("identifier", "bezeichner"); ("device", ("ger" ++ a_uml ++ "t")%string);
        ("path", "pfad"); ("description", "beschreibung"); ("type", "typ");
        ("default", "standard"); ("bootmgr", "boot-manager");
        ("timeout", "zeitlimit"); ("displayorder", "anzeigereihenfolge");
        ("osdevice", ("osger" ++ a_uml ++ "t")%string) ]
  | fr =>
      [ ("identifier", "identificateur");
        ("device", ("p" ++ e_acute ++ "riph" ++ e_acute ++ "rique")%string);
        ("path", "chemin"); ("description", "description"); ("type", "type");
        ("default", ("d" ++ e_acute ++ "faut")%string);
        ("bootmgr", ("gestionnaire de d" ++ e_acute ++ "marrage")%string);
        ("timeout", ("d" ++ e_acute ++ "lai d'attente")%string);
        ("displayorder", "ordre d'affichage");
        ("osdevice", ("p" ++ e_acute ++ "riph" ++ e_acute ++ "rique os")%string) ]
  | es =>
      [ ("identifier", "identificador"); ("device", "dispositivo");
        ("path", "ruta"); ("description", ("descripci" ++ o_acute ++ "n")%string);
        ("type", "tipo"); ("default", "predeterminado");
        ("bootmgr", "administrador de arranque");
        ("timeout", "tiempo de espera");
        ("displayorder", ("orden de visualizaci" ++ o_acute ++ "n")%string);
        ("osdevice", "dispositivo del so") ]
  end.

(** The choice of [self.lang_code] in [__init__]: the first of en, de, fr,
    es that the system locale starts with, and en otherwise. *)
Definition resolve_lang (system_locale : option string) : lang :=
  match system_locale with
  | None => en
  | Some loc =>
      if negb (truthy loc) then en
      else
        match find (fun l => startswith (code l) loc) [en; de; fr; es] with
        | Some l => l
        | None => en
        end
  end.

(** [get_translation]: the table entry of the lowered key, the key itself
    on [KeyError]. *)
Definition get_translation (lang_code : lang) (key : string) : string :=
  match Dict.get (lower key) (property_translations lang_code) with
  | Some v => v
  | None => key
  end.

End Translation.

(** ** The two line patterns of the parser *)

Module LinePattern.

(** [re.match(r'^\s*([^\s]+)\s+(.+)$', s)], groups 1 and 2, for the
    argument it is given in [parse_entry_properties]: [line.strip()] of a
    line of [split('\n')].  Such an [s] holds no newline and does not end in
    white space, so each greedy run is the maximal one and [(.+)$] is the
    rest of the line. *)
Definition match_property (s : string) : option (string * string) :=
  let s1 := lstrip s in
  match span (fun c => negb (isspace c)) s1 with
  | (String k key, s2) =>
      match span isspace s2 with
      | (String _ _, String v value) => Some (String k key, String v value)
      | _ => None
      end
  | _ => None
  end.

(** A literal of the pattern matched at the start of [s] under
    [re.IGNORECASE]; the rest of [s] after it. *)
Fixpoint match_literal (lit s : string) : option string :=
  match lit with
  | "" => Some s
  | String p lit' =>
      match s with
      | "" => None
      | String c s' =>
          if Ascii.eqb (lower_char c) (lower_char p)
          then match_literal lit' s' else None
      end
  end.

(** The characters up to the next newline: what a greedy [.+] takes. *)
Definition take_line (s : string) : string :=
  fst (span (fun c => negb (Ascii.eqb c newline)) s).

Fixpoint last_non_newline (s : string) : option ascii :=
  match s with
  | "" => None
  | String c t =>
      match last_non_newline t with
      | Some d => Some d
      | None => if Ascii.eqb c newline then None else Some c
      end
  end.

(** [rf'{key}\s+(.+)'] with [re.IGNORECASE] matched at the start of [s],
    group 1.  [key] is a table entry, free of pattern metacharacters.  The
    white-space run is taken whole when a character follows it; when it
    reaches the end of the text the run gives characters back, and the group
    is the last character of the run (past its first) that is not a
    newline. *)
Definition match_key_value (key s : string) : option string :=
  match match_literal key s with
  | None => None
  | Some s1 =>
      match span isspace s1 with
      | (String _ ws, String c r) => Some (take_line (String c r))
      | (String _ ws, "") =>
          match last_non_newline ws with
          | Some c => Some (String c "")
          | None => None
          end
      | _ => None
      end
  end.

(** [re.search(rf'{key}\s+(.+)', s, re.IGNORECASE)], group 1. *)
Fixpoint search_key_value (key s : string) : option string :=
  match match_key_value key s with
  | Some g => Some g
  | None =>
      match s with
      | "" => None
      | String _ t => search_key_value key t
      end
  end.

End LinePattern.

(** ** The pure part of the entry parser *)

(** One turn of the loop of [parse_entry_properties]. *)
Definition parse_line (properties : Dict.t) (line : string) : Dict.t :=
  match LinePattern.match_property (strip line) with
  | Some (key, value) => Dict.set (lower key) (strip value) properties
  | None => properties
  end.

Definition parse_entry_properties (entry_info : string) : Dict.t :=
  if negb (truthy entry_info) then Dict.empty
  else
    let properties := fold_left parse_line (split_lines entry_info) Dict.empty in
    match IdPattern.search entry_info with
    | Some id => Dict.set "identifier" id properties
    | None => properties
    end.

(** ** The value patterns of the boot manager record *)

Module ValuePattern.

(** [\d]: the decimal digits below code point 256. *)
Definition is_digit (c : ascii) : bool :=
  let n := nat_of_ascii c in (48 <=? n) && (n <=? 57).

(** [\w]: what [str.isalnum] accepts below code point 256, and the
    underscore. *)
Definition is_word_char (c : ascii) : bool :=
  let n := nat_of_ascii c in
  ((48 <=? n) && (n <=? 57)) || ((65 <=? n) && (n <=? 90)) || (n =? 95)
  || ((97 <=? n) && (n <=? 122))
  || (n =? 170) || (n =? 178) || (n =? 179) || (n =? 181) || (n =? 185)
  || (n =? 186) || ((188 <=? n) && (n <=? 190))
  || ((192 <=? n) && (n <=? 214)) || ((216 <=? n) && (n <=? 246))
  || (248 <=? n).

(** [rf'{key}\s+(\d+)'] with [re.IGNORECASE] matched at the start of [s],
    group 1.  No white-space character is a digit and the digit run is
    greedy, so both runs are the maximal ones. *)
Definition match_key_digits (key s : string) : option string :=
  match LinePattern.match_literal key s with
  | None => None
  | Some s1 =>
      match span isspace s1 with
      | (String _ _, r) =>
          match span is_digit r with
          | (String d digits, _) => Some (String d digits)
          | _ => None
          end
      | _ => None
      end
  end.

(** [re.search(rf'{key}\s+(\d+)', s, re.IGNORECASE)], group 1. *)
Fixpoint search_key_digits (key s : string) : option string :=
  match match_key_digits key s with
  | Some g => Some g
  | None =>
      match s with
      | "" => None
      | String _ t => search_key_digits key t
      end
  end.

(** The value of a string of decimal digits, most significant first. *)
Definition int_of_digits (digits : string) : Z :=
  fold_left (fun acc c => (10 * acc + Z.of_nat (nat_of_ascii c - 48))%Z)
    (list_ascii_of_string digits) 0%Z.

(** [\w+] followed by the character [stop], at the start of [s]: the text
    matched and what follows.  [stop] is not a word character, so the run is
    the maximal one. *)
Definition word_then (stop : ascii) (s : string) : option (string * string) :=
  match span is_word_char s with
  | (String w word, String c r) =>
      if Ascii.eqb c stop then Some ((String w word ++ String c "")%string, r)
      else None
  | _ => None
  end.

(** [{\w+-\w+-\w+-\w+-\w+}] at the start of [s]. *)
Definition match_guid (s : string) : option (string * string) :=
  match s with
  | "" => None
  | String c t =>
      if Ascii.eqb c "{" then
        match word_then "-" t with
        | None => None
        | Some (g1, t1) =>
            match word_then "-" t1 with
            | None => None
            | Some (g2, t2) =>
                match word_then "-" t2 with
                | None => None
                | Some (g3, t3) =>
                    match word_then "-" t3 with
                    | None => None
                    | Some (g4, t4) =>
                        match word_then "}" t4 with
                        | None => None
                        | Some (g5, t5) =>
                            Some (String c (g1 ++ g2 ++ g3 ++ g4 ++ g5)%string, t5)
                        end
                    end
                end
            end
        end
      else None
  end.

(** [rf'{key}\s+({{\w+-\w+-\w+-\w+-\w+}})'] with [re.IGNORECASE] matched at
    the start of [s], group 1. *)
Definition match_key_guid (key s : string) : option string :=
  match LinePattern.match_literal key s with
  | None => None
  | Some s1 =>
      match span isspace s1 with
      | (String _ _, r) =>
          match match_guid r with
          | Some (g, _) => Some g
          | None => None
          end
      | _ => None
      end
  end.

(** [re.search] with that pattern, group 1. *)
Fixpoint search_key_guid (key s : string) : option string :=
  match match_key_guid key s with
  | Some g => Some g
  | None =>
      match s with
      | "" => None
      | String _ t => search_key_guid key t
      end
  end.

(** [re.split(r'\n\n+', s)]: the text between runs of two or more
    newlines; [skipping] holds while such a run is being passed over. *)
Fixpoint split_sections (skipping : bool) (s : string) : list string :=
  match s with
  | "" => [""]
  | String c t =>
      if Ascii.eqb c newline then
        if skipping then split_sections true t
        else
          match t with
          | String d _ =>
              if Ascii.eqb d newline then "" :: split_sections true t
              else
                match split_sections false t with
                | section :: rest => String c section :: rest
                | [] => [String c ""]
                end
          | "" => [String c ""]
          end
      else
        match split_sections false t with
        | section :: rest => String c section :: rest
        | [] => [String c ""]
        end
  end.

End ValuePattern.

(** ** The command gateway and the monad of the methods *)

(** What [except Exception as e] can catch here: the [OSError] family
    raised by [subprocess.run] when the process cannot be spawned, and the
    two list errors. *)
Inductive py_exception : Type :=
| OSError (msg : string)
| ValueError (msg : string)
| IndexError (msg : string).

(** [str(e)] *)
Definition exc_str (e : py_exception) : string :=
  match e with OSError m | ValueError m | IndexError m => m end.

(** [str(n)] and [f"{n}"] raise [ValueError] for an integer with more
    digits, the sign not counted, than [sys.get_int_max_str_digits()]
    allows; 0 stands for no limit. *)
Definition exceeds_str_digits (int_max_str_digits : nat) (n : Z) : bool :=
  (0 <? int_max_str_digits)
  && (int_max_str_digits <? String.length (str_of_Z (Z.abs n))).

Definition str_digits_error (int_max_str_digits : nat) : py_exception :=
  ValueError
    ("Exceeds the limit (" ++ str_of_Z (Z.of_nat int_max_str_digits)
     ++ " digits) for integer string conversion; "
     ++ "use sys.set_int_max_str_digits() to increase the limit").

(** [subprocess.CompletedProcess]; the exit code is a machine integer, so
    that printing it stays far within any digit limit of [str]. *)
Record CompletedProcess : Type :=
  { returncode : Z; stdout : string; stderr : string }.

(** One call of [subprocess.run]: the process ran, or could not be
    spawned. *)
Inductive run_outcome : Type :=
| Completed (result : CompletedProcess)
| SpawnFailed (e : py_exception).

Inductive outcome (A : Type) : Type :=
| Return (a : A)
| Raise (e : py_exception).

Arguments Return {A} a.
Arguments Raise {A} e.

Module AdvancedBootManager.

Section Methods.

(** The boot store together with whatever else decides the tool's answers. *)
Variable W : Type.

(** The external tool: the argument vector and the store give the outcome
    of the call and the store after it. *)
Variable tool : list string -> W -> run_outcome * W.

(** [os.path.exists] *)
Variable path_exists : string -> bool.

(** [self.lang_code] *)
Variable lang_code : Translation.lang.

(** [sys.get_int_max_str_digits()]: the longest digit string that [int]
    and [str] convert, 0 for no limit. *)
Variable int_max_str_digits : nat.

(** The store, the argument vectors handed to [subprocess.run] so far and
    the lines printed so far, oldest first. *)
Record state : Type :=
  { world : W; issued : list (list string); printed : list string }.

Definition M (A : Type) : Type := state -> outcome A * state.

Definition ret {A} (a : A) : M A := fun s => (Return a, s).

Definition raise {A} (e : py_exception) : M A := fun s => (Raise e, s).

Definition bind {A B} (c : M A) (k : A -> M B) : M B :=
  fun s =>
    match c s with
    | (Return a, s') => k a s'
    | (Raise e, s') => (Raise e, s')
    end.

(** [try: body  except Exception as e: handler] *)
Definition try_except {A} (body : M A) (handler : py_exception -> M A) : M A :=
  fun s =>
    match body s with
    | (Return a, s') => (Return a, s')
    | (Raise e, s') => handler e s'
    end.

Notation "x <- c ;; k" := (bind c (fun x => k))
  (at level 61, c at next level, right associativity).
Notation "c ;;; k" := (bind c (fun _ => k))
  (at level 61, right associativity).

Definition print (line : string) : M unit :=
  fun s =>
    (Return tt,
     {| world := world s; issued := issued s; printed := printed s ++ [line] |}).

(** [subprocess.run(argv, capture_output=True, text=True, errors="replace")] *)
Definition subprocess_run (argv : list string) : M CompletedProcess :=
  fun s =>
    let (o, w) := tool argv (world s) in
    let s' := {| world := w; issued := issued s ++ [argv];
                 printed := printed s |} in
    match o with
    | Completed result => (Return result, s')
    | SpawnFailed e => (Raise e, s')
    end.

Definition get_translation (key : string) : string :=
  Translation.get_translation lang_code key.

Definition nonzero (n : Z) : bool := negb (n =? 0)%Z.

(** *** Reading *)

Definition get_entries : M (option string) :=
  try_except
    (result <- subprocess_run ["bcdedit"; "/enum"; "/v"] ;;
     if nonzero (returncode result) then
       print ("Error: bcdedit command failed with code "
              ++ str_of_Z (returncode result)) ;;;
       print ("Error message: " ++ stderr result) ;;;
       ret None
     else ret (Some (stdout result)))
    (fun e => print ("Error executing bcdedit: " ++ exc_str e) ;;; ret None).

(** [not output] for an optional string. *)
Definition falsy (o : option string) : bool :=
  match o with
  | None => true
  | Some s => negb (truthy s)
  end.

Definition in_list (x : string) (l : list string) : bool :=
  existsb (String.eqb x) l.

(** The loop of [list_identifiers]. *)
Fixpoint unique_loop (identifiers unique_identifiers : list string)
  : list string :=
  match identifiers with
  | [] => unique_identifiers
  | id :: rest =>
      unique_loop rest
        (if in_list id unique_identifiers then unique_identifiers
         else unique_identifiers ++ [id])
  end.

Definition list_identifiers : M (list string) :=
  output <- get_entries ;;
  match output with
  | Some text =>
      if falsy output then ret []
      else ret (unique_loop (IdPattern.findall text) [])
  | None => ret []
  end.

Definition get_entry_info (identifier : string) : M (option string) :=
  try_except
    (result <- subprocess_run ["bcdedit"; "/enum"; identifier; "/v"] ;;
     if nonzero (returncode result) then
       print ("Error getting entry info: " ++ stderr result) ;;;
       ret None
     else ret (Some (stdout result)))
    (fun e => print ("Error executing bcdedit: " ++ exc_str e) ;;; ret None).

(** The three tiers of a property lookup, after the dump is known: the
    pattern with the first key, the pattern with the second key, then the
    first parsed property whose key passes [hit]. *)
Definition lookup_property (key1 key2 : string) (hit : string -> bool)
  (info : string) : string :=
  match LinePattern.search_key_value key1 info with
  | Some g => strip g
  | None =>
      match LinePattern.search_key_value key2 info with
      | Some g => strip g
      | None =>
          match find (fun kv => hit (lower (fst kv)))
                     (parse_entry_properties info) with
          | Some kv => snd kv
          | None => ""
          end
      end
  end.

Definition get_entry_device (identifier : string) : M string :=
  info <- get_entry_info identifier ;;
  match info with
  | Some text =>
      if falsy info then ret ""
      else
        let device_key := lower (get_translation "device") in
        let osdevice_key := lower (get_translation "osdevice") in
        ret (lookup_property device_key osdevice_key
               (fun key => contains "device" key || contains device_key key
                           || (contains "osdevice" key
                               || contains osdevice_key key))
               text)
  | None => ret ""
  end.

Definition get_entry_path (identifier : string) : M string :=
  info <- get_entry_info identifier ;;
  match info with
  | Some text =>
      if falsy info then ret ""
      else
        let path_key := lower (get_translation "path") in
        ret (lookup_property path_key "path"
               (fun key => contains "path" key || contains path_key key)
               text)
  | None => ret ""
  end.

Definition check_ramdisk (identifier : string) : M bool :=
  entry_info <- get_entry_info identifier ;;
  match entry_info with
  | Some text =>
      if falsy entry_info then ret false
      else
        ret (existsb (fun param => contains param (lower text))
               ["ramdisksdidevice"; "ramdisksdipath";
                "ramdisksdiprocessorarchitecture"])
  | None => ret false
  end.

Definition check_uefi (identifier : string) : M bool :=
  entry_info <- get_entry_info identifier ;;
  match entry_info with
  | Some text =>
      if falsy entry_info then ret false
      else ret (contains ".efi" (lower text) || contains "uefi" (lower text))
  | None => ret false
  end.

(** The designator completed to a root path, as [partition_exists] does
    before probing it. *)
Definition as_root (partition : string) : string :=
  if negb (endswith "\" partition) then (partition ++ "\")%string
  else partition.

Definition partition_exists (device : string) : M bool :=
  try_except
    (if truthy device && startswith "partition=" (lower device) then
       match after_first "="%char device with
       | None => raise (IndexError "list index out of range")
       | Some partition => ret (path_exists (as_root partition))
       end
     else ret true)
    (fun e =>
       print ("Error checking partition existence: " ++ exc_str e) ;;;
       ret false).

Definition has_missing_path_or_device (identifier : string) : M bool :=
  device <- get_entry_device identifier ;;
  path <- get_entry_path identifier ;;
  if negb (truthy device) || negb (truthy path)
     || String.eqb (lower device) "unknown"
     || String.eqb (lower path) "unknown"
  then ret true
  else if startswith "partition=" (lower device) then
    there <- partition_exists device ;;
    if negb there then ret true else ret false
  else ret false.

(** One turn of the loop of [get_display_order]; the pair is
    [(display_order, display_section)]. *)
Definition display_order_step (displayorder_key : string)
  (acc : list string * bool) (line : string) : list string * bool :=
  let (display_order, display_section) := acc in
  if contains displayorder_key (lower line)
     || contains "displayorder" (lower line)
  then
    match IdPattern.search line with
    | Some id => (display_order ++ [id], true)
    | None => (display_order, true)
    end
  else if display_section && truthy (strip line) then
    match IdPattern.search line with
    | Some id => (display_order ++ [id], display_section)
    | None => (display_order, display_section)
    end
  else if display_section && negb (truthy (strip line)) then
    (display_order, false)
  else (display_order, display_section).

Definition get_display_order : M (list string) :=
  try_except
    (result <- subprocess_run ["bcdedit"; "/enum"; "{bootmgr}"] ;;
     if nonzero (returncode result) then ret []
     else
       let displayorder_key := lower (get_translation "displayorder") in
       ret (fst (fold_left (display_order_step displayorder_key)
                   (split_lines (stdout result)) ([], false))))
    (fun e => print ("Error getting display order: " ++ exc_str e) ;;; ret []).

(** *** Writing *)

Definition is_empty (l : list string) : bool :=
  match l with [] => true | _ => false end.

Definition set_display_order (order_list : list string) : M bool :=
  try_except
    (subprocess_run ["bcdedit"; "/deletevalue"; "{bootmgr}"; "displayorder"] ;;;
     if negb (is_empty order_list) then
       let cmd := ["bcdedit"; "/displayorder"] ++ order_list in
       result <- subprocess_run cmd ;;
       ret (returncode result =? 0)%Z
     else ret true)
    (fun e => print ("Error setting display order: " ++ exc_str e) ;;; ret false).

(** [l.index(x)], [None] standing for [ValueError]. *)
Fixpoint index_of (x : string) (l : list string) : option nat :=
  match l with
  | [] => None
  | y :: r =>
      if String.eqb y x then Some 0
      else match index_of x r with
           | Some i => Some (S i)
           | None => None
           end
  end.

(** [l[i] = v] for [i] in range. *)
Fixpoint list_set (i : nat) (v : string) (l : list string) : list string :=
  match l, i with
  | [], _ => []
  | _ :: r, 0 => v :: r
  | y :: r, S j => y :: list_set j v r
  end.

(** [l[i], l[j] = l[j], l[i]]: both reads come first, then [l[i]] and
    [l[j]] are assigned in that order; [None] stands for the [IndexError]
    of an index out of range. *)
Definition swap_items (i j : nat) (l : list string) : option (list string) :=
  match nth_error l j, nth_error l i with
  | Some at_j, Some at_i => Some (list_set j at_i (list_set i at_j l))
  | _, _ => None
  end.

Definition move_entry_up (identifier : string) : M bool :=
  display_order <- get_display_order ;;
  if is_empty display_order || negb (in_list identifier display_order)
  then ret false
  else
    match index_of identifier display_order with
    | None => raise (ValueError "list.index(x): x not in list")
    | Some index =>
        if index =? 0 then ret true
        else
          match swap_items index (index - 1) display_order with
          | None => raise (IndexError "list index out of range")
          | Some display_order' => set_display_order display_order'
          end
    end.

Definition move_entry_down (identifier : string) : M bool :=
  display_order <- get_display_order ;;
  if is_empty display_order || negb (in_list identifier display_order)
  then ret false
  else
    match index_of identifier display_order with
    | None => raise (ValueError "list.index(x): x not in list")
    | Some index =>
        if index =? length display_order - 1 then ret true
        else
          match swap_items index (index + 1) display_order with
          | None => raise (IndexError "list index out of range")
          | Some display_order' => set_display_order display_order'
          end
    end.

(** [str(n)] for an integer. *)
Definition str_of_int (n : Z) : M string :=
  if exceeds_str_digits int_max_str_digits n
  then raise (str_digits_error int_max_str_digits)
  else ret (str_of_Z n).

(** The argument list is built, [str(seconds)] included, inside the
    [try], before the process is run. *)
Definition set_timeout (seconds : Z) : M bool :=
  try_except
    (text <- str_of_int seconds ;;
     result <- subprocess_run ["bcdedit"; "/timeout"; text] ;;
     ret (returncode result =? 0)%Z)
    (fun e => print ("Error setting timeout: " ++ exc_str e) ;;; ret false).

(** Truth value of an optional argument: [if device:]. *)
Definition given (o : option string) : option string :=
  match o with
  | Some s => if truthy s then Some s else None
  | None => None
  end.

Definition add_entry (description : string) (device path type : option string)
  : M (option string) :=
  try_except
    (result <- subprocess_run
                 ["bcdedit"; "/copy"; "{current}"; "/d"; description] ;;
     if nonzero (returncode result) then
       print ("Error creating entry: " ++ stderr result) ;;;
       ret None
     else
       match IdPattern.search (stdout result) with
       | None =>
           print "Could not find identifier of new entry" ;;;
           ret None
       | Some new_id =>
           match given device with
           | Some dev =>
               device_result <-
                 subprocess_run ["bcdedit"; "/set"; new_id; "device"; dev] ;;
               (if nonzero (returncode device_result) then
                  print ("Warning: Failed to set device: "
                         ++ stderr device_result)
                else ret tt) ;;;
               subprocess_run ["bcdedit"; "/set"; new_id; "osdevice"; dev] ;;;
               ret tt
           | None => ret tt
           end ;;;
           match given path with
           | Some pth =>
               path_result <-
                 subprocess_run ["bcdedit"; "/set"; new_id; "path"; pth] ;;
               if nonzero (returncode path_result) then
                 print ("Warning: Failed to set path: " ++ stderr path_result)
               else ret tt
           | None => ret tt
           end ;;;
           match given type with
           | Some typ =>
               type_result <-
                 subprocess_run ["bcdedit"; "/set"; new_id; "type"; typ] ;;
               if nonzero (returncode type_result) then
                 print ("Warning: Failed to set type: " ++ stderr type_result)
               else ret tt
           | None => ret tt
           end ;;;
           ret (Some new_id)
       end)
    (fun e => print ("Error adding entry: " ++ exc_str e) ;;; ret None).

(** *** The remaining accessors *)

(** The three tiers of [lookup_property] with the value returned when all of
    them miss left open. *)
Definition lookup_property_or (default key1 key2 : string)
  (hit : string -> bool) (info : string) : string :=
  match LinePattern.search_key_value key1 info with
  | Some g => strip g
  | None =>
      match LinePattern.search_key_value key2 info with
      | Some g => strip g
      | None =>
          match find (fun kv => hit (lower (fst kv)))
                     (parse_entry_properties info) with
          | Some kv => snd kv
          | None => default
          end
      end
  end.

Definition get_entry_description (identifier : string) : M string :=
  info <- get_entry_info identifier ;;
  match info with
  | Some text =>
      if falsy info then ret "Unknown"
      else
        let desc_key := lower (get_translation "description") in
        ret (lookup_property_or "Unknown" desc_key "description"
               (fun key => contains "description" key || contains desc_key key)
               text)
  | None => ret "Unknown"
  end.

Definition get_entry_type (identifier : string) : M string :=
  info <- get_entry_info identifier ;;
  match info with
  | Some text =>
      if falsy info then ret "Unknown"
      else
        let type_key := lower (get_translation "type") in
        ret (lookup_property_or "Unknown" type_key "type"
               (fun key => contains "type" key || contains type_key key)
               text)
  | None => ret "Unknown"
  end.

(** [int(digits)] for a string of decimal digits. *)
Definition int_of_match (digits : string) : M Z :=
  if (0 <? int_max_str_digits) && (int_max_str_digits <? String.length digits)
  then
    raise (ValueError
             ("Exceeds the limit (" ++ str_of_Z (Z.of_nat int_max_str_digits)
              ++ " digits) for integer string conversion: value has "
              ++ str_of_Z (Z.of_nat (String.length digits))
              ++ " digits; use sys.set_int_max_str_digits() to increase the limit"))
  else ret (ValuePattern.int_of_digits digits).

Definition get_timeout : M Z :=
  try_except
    (result <- subprocess_run ["bcdedit"; "/enum"; "{bootmgr}"] ;;
     if nonzero (returncode result) then ret 30%Z
     else
       let timeout_key := lower (get_translation "timeout") in
       match ValuePattern.search_key_digits timeout_key (stdout result) with
       | Some digits => int_of_match digits
       | None =>
           match ValuePattern.search_key_digits "timeout" (stdout result) with
           | Some digits => int_of_match digits
           | None => ret 30%Z
           end
       end)
    (fun e => print ("Error getting timeout: " ++ exc_str e) ;;; ret 30%Z).

(** [get_default_entry]; [self.default_entry] is passed in, and comes back
    beside the value returned. *)
Definition get_default_entry (default_entry : option string)
  : M (option string * option string) :=
  try_except
    (let bootmgr_term := lower (get_translation "bootmgr") in
     result <- subprocess_run ["bcdedit"; "/enum"; "{bootmgr}"] ;;
     match
       (if (returncode result =? 0)%Z then
          ValuePattern.search_key_guid (lower (get_translation "default"))
            (stdout result)
        else None)
     with
     | Some id => ret (Some id, Some id)
     | None =>
         all_entries <- get_entries ;;
         match all_entries with
         | Some text =>
             if falsy all_entries then ret (None, default_entry)
             else
               let sections := ValuePattern.split_sections false text in
               match find (fun section =>
                             contains bootmgr_term (lower section)
                             || contains "bootmgr" (lower section))
                          sections with
               | Some bootmgr_section =>
                   if truthy bootmgr_section then
                     match ValuePattern.search_key_guid
                             (lower (get_translation "default"))
                             bootmgr_section with
                     | Some id => ret (Some id, Some id)
                     | None => ret (None, default_entry)
                     end
                   else ret (None, default_entry)
               | None => ret (None, default_entry)
               end
         | None => ret (None, default_entry)
         end
     end)
    (fun e =>
       print ("Error getting default entry: " ++ exc_str e) ;;;
       ret (None, default_entry)).

(** *** The remaining writers *)

(** [set_default_entry], with [self.default_entry] passed in and out. *)
Definition set_default_entry (identifier : string)
  (default_entry : option string) : M (bool * option string) :=
  try_except
    (result <- subprocess_run ["bcdedit"; "/default"; identifier] ;;
     if (returncode result =? 0)%Z then ret (true, Some identifier)
     else ret (false, default_entry))
    (fun e =>
       print ("Error setting default entry: " ++ exc_str e) ;;;
       ret (false, default_entry)).

Definition create_vhd_boot_entry (description vhd_path : string)
  : M (option string) :=
  try_except
    (new_id <- add_entry description None None None ;;
     match given new_id with
     | None => ret None
     | Some new_id =>
         subprocess_run ["bcdedit"; "/set"; new_id; "device";
                         ("vhd=[" ++ vhd_path ++ "]")%string] ;;;
         subprocess_run ["bcdedit"; "/set"; new_id; "osdevice";
                         ("vhd=[" ++ vhd_path ++ "]")%string] ;;;
         subprocess_run ["bcdedit"; "/set"; new_id; "detecthal"; "yes"] ;;;
         subprocess_run ["bcdedit"; "/set"; new_id; "nx"; "OptIn"] ;;;
         ret (Some new_id)
     end)
    (fun e =>
       print ("Error creating VHD boot entry: " ++ exc_str e) ;;; ret None).

Definition delete_entry (identifier : string) : M bool :=
  try_except
    (result <- subprocess_run ["bcdedit"; "/delete"; identifier] ;;
     ret (returncode result =? 0)%Z)
    (fun e => print ("Error deleting entry: " ++ exc_str e) ;;; ret false).

Definition modify_entry (identifier option value : string) : M bool :=
  try_except
    (result <- subprocess_run ["bcdedit"; "/set"; identifier; option; value] ;;
     ret (returncode result =? 0)%Z)
    (fun e => print ("Error modifying entry: " ++ exc_str e) ;;; ret false).

Definition delete_entry_value (identifier option : string) : M bool :=
  try_except
    (result <- subprocess_run ["bcdedit"; "/deletevalue"; identifier; option] ;;
     ret (returncode result =? 0)%Z)
    (fun e => print ("Error deleting entry value: " ++ exc_str e) ;;; ret false).

(** [add_ramdisk]; the caller that leaves [processor_arch] out passes
    ["x64"]. *)
Definition add_ramdisk (identifier sdi_device sdi_path processor_arch : string)
  : M bool :=
  try_except
    (device_result <-
       subprocess_run ["bcdedit"; "/set"; identifier; "ramdisksdidevice";
                       sdi_device] ;;
     path_result <-
       subprocess_run ["bcdedit"; "/set"; identifier; "ramdisksdipath";
                       sdi_path] ;;
     arch_result <-
       subprocess_run ["bcdedit"; "/set"; identifier;
                       "ramdisksdiprocessorarchitecture"; processor_arch] ;;
     ret ((returncode device_result =? 0)%Z
          && (returncode path_result =? 0)%Z
          && (returncode arch_result =? 0)%Z))
    (fun e => print ("Error adding ramdisk: " ++ exc_str e) ;;; ret false).

Definition remove_ramdisk (identifier : string) : M bool :=
  try_except
    (subprocess_run ["bcdedit"; "/deletevalue"; identifier; "ramdisksdidevice"] ;;;
     subprocess_run ["bcdedit"; "/deletevalue"; identifier; "ramdisksdipath"] ;;;
     subprocess_run ["bcdedit"; "/deletevalue"; identifier;
                     "ramdisksdiprocessorarchitecture"] ;;;
     ret true)
    (fun e => print ("Error removing ramdisk: " ++ exc_str e) ;;; ret false).

Definition export_bcd (filename : string) : M bool :=
  try_except
    (result <- subprocess_run ["bcdedit"; "/export"; filename] ;;
     ret (returncode result =? 0)%Z)
    (fun e => print ("Error exporting BCD: " ++ exc_str e) ;;; ret false).

Definition import_bcd (filename : string) : M bool :=
  try_except
    (result <- subprocess_run ["bcdedit"; "/import"; filename] ;;
     ret (returncode result =? 0)%Z)
    (fun e => print ("Error importing BCD: " ++ exc_str e) ;;; ret false).

Definition enable_kernel_debugging (identifier : string)
  (port baudrate : option string) : M bool :=
  try_except
    (debug_result <-
       subprocess_run ["bcdedit"; "/set"; identifier; "debug"; "on"] ;;
     match given port with
     | Some prt =>
         port_result <-
           subprocess_run ["bcdedit"; "/set"; identifier; "debugport"; prt] ;;
         if nonzero (returncode port_result) then
           print ("Warning: Failed to set debug port: " ++ stderr port_result)
         else ret tt
     | None => ret tt
     end ;;;
     match given baudrate with
     | Some baud =>
         baud_result <-
           subprocess_run ["bcdedit"; "/set"; identifier; "debugbaudrate";
                           baud] ;;
         if nonzero (returncode baud_result) then
           print ("Warning: Failed to set debug baudrate: "
                  ++ stderr baud_result)
         else ret tt
     | None => ret tt
     end ;;;
     ret (returncode debug_result =? 0)%Z)
    (fun e =>
       print ("Error enabling kernel debugging: " ++ exc_str e) ;;; ret false).

Definition disable_kernel_debugging (identifier : string) : M bool :=
  try_except
    (debug_result <-
       subprocess_run ["bcdedit"; "/set"; identifier; "debug"; "off"] ;;
     subprocess_run ["bcdedit"; "/deletevalue"; identifier; "debugport"] ;;;
     subprocess_run ["bcdedit"; "/deletevalue"; identifier; "debugbaudrate"] ;;;
     ret (returncode debug_result =? 0)%Z)
    (fun e =>
       print ("Error disabling kernel debugging: " ++ exc_str e) ;;; ret false).

End Methods.

End AdvancedBootManager.

(** ** The timeout handler of the GUI *)

Module BootManagerApp.

Section Handlers.

Variable W : Type.
Variable tool : list string -> W -> run_outcome * W.

(** [int(text)], [None] standing for [ValueError]. *)
Variable int : string -> option Z.

(** [sys.get_int_max_str_digits()], 0 for no limit. *)
Variable int_max_str_digits : nat.

(** The boot manager's state, the two GUI variables the handler touches and
    the error boxes shown so far (title and message), oldest first. *)
Record app_state : Type :=
  { boot_manager : AdvancedBootManager.state W;
    timeout_var : string;
    status_var : string;
    error_boxes : list (string * string) }.

Definition showerror (title message : string) (a : app_state) : app_state :=
  {| boot_manager := boot_manager a; timeout_var := timeout_var a;
     status_var := status_var a;
     error_boxes := error_boxes a ++ [(title, message)] |}.

Definition set_status (text : string) (b : AdvancedBootManager.state W)
  (a : app_state) : app_state :=
  {| boot_manager := b; timeout_var := timeout_var a;
     status_var := text; error_boxes := error_boxes a |}.

(** [BootManagerApp.set_timeout]: the body runs under
    [try: ... except ValueError], which shows the second error box; any
    other exception leaves the handler.  The status text formats the
    number, which is a string conversion under the same digit limit. *)
Definition set_timeout (a : app_state) : outcome unit * app_state :=
  match int (timeout_var a) with
  | None =>
      (Return tt, showerror "Input Error" "Timeout must be a valid integer" a)
  | Some timeout =>
      if (timeout <? 0)%Z then
        (Return tt,
         showerror "Input Error" "Timeout must be a positive integer" a)
      else
        match AdvancedBootManager.set_timeout tool int_max_str_digits timeout
                (boot_manager a) with
        | (Return true, b) =>
            if exceeds_str_digits int_max_str_digits timeout then
              (Return tt,
               showerror "Input Error" "Timeout must be a valid integer"
                 (set_status (status_var a) b a))
            else
              (Return tt,
               set_status ("Set boot menu timeout to " ++ str_of_Z timeout
                           ++ " seconds") b a)
        | (Return false, b) =>
            (Return tt, set_status "Failed to set boot menu timeout" b a)
        | (Raise (ValueError _), b) =>
            (Return tt,
             showerror "Input Error" "Timeout must be a valid integer"
               (set_status (status_var a) b a))
        | (Raise e, b) => (Raise e, set_status (status_var a) b a)
        end
  end.

End Handlers.

End BootManagerApp.

(** ** Vocabulary of the statements *)

(** [a] stands before [b] in [l]. *)
Definition before (a b : string) (l : list string) : Prop :=
  exists l1 l2 l3, l = l1 ++ a :: l2 ++ b :: l3.

(** The answer of the tool carries no dump: it could not be spawned, it
    exited non-zero, or it printed nothing. *)
Definition no_dump (o : run_outcome) : Prop :=
  match o with
  | Completed result => returncode result <> 0%Z \/ stdout result = ""
  | SpawnFailed _ => True
  end.

(** The template copy failed: no process, a non-zero exit, or an output
    without an identifier. *)
Definition copy_failed (o : run_outcome) : Prop :=
  match o with
  | Completed result =>
      returncode result <> 0%Z \/ IdPattern.search (stdout result) = None
  | SpawnFailed _ => True
  end.

(** A command that only reads the store. *)
Definition is_enumeration (argv : list string) : Prop :=
  exists rest, argv = "bcdedit" :: "/enum" :: rest.

(** A computation that never raises and hands nothing but enumerations to
    the tool. *)
Definition reads_only {W A : Type}
  (c : AdvancedBootManager.state W -> outcome A * AdvancedBootManager.state W)
  : Prop :=
  forall s, exists a s' extra,
    c s = (Return a, s')
    /\ AdvancedBootManager.issued s' = AdvancedBootManager.issued s ++ extra
    /\ Forall is_enumeration extra.

(** A computation that hands nothing but enumerations to the tool, whether
    it returns or raises. *)
Definition enumerates {W A : Type}
  (c : AdvancedBootManager.state W -> outcome A * AdvancedBootManager.state W)
  : Prop :=
  forall s, exists o s' extra,
    c s = (o, s')
    /\ AdvancedBootManager.issued s' = AdvancedBootManager.issued s ++ extra
    /\ Forall is_enumeration extra.

(** A computation that returns for every store: no exception leaves it. *)
Definition never_raises {W A : Type}
  (c : AdvancedBootManager.state W -> outcome A * AdvancedBootManager.state W)
  : Prop :=
  forall s, exists v s', c s = (Return v, s').

(** The computation runs [argv] as its first command, and reports by one
    and the same value [v] that this command cannot be spawned and that it
    exits with a code other than 0. *)
Definition fails_alike {W A : Type}
  (tool : list string -> W -> run_outcome * W) (argv : list string) (v : A)
  (c : AdvancedBootManager.state W -> outcome A * AdvancedBootManager.state W)
  : Prop :=
  forall s,
    let reported :=
      exists s' rest,
        c s = (Return v, s')
        /\ AdvancedBootManager.issued s'
           = AdvancedBootManager.issued s ++ argv :: rest in
    match fst (tool argv (AdvancedBootManager.world s)) with
    | Completed result => returncode result <> 0%Z -> reported
    | SpawnFailed _ => reported
    end.

(** The characters with a meaning of their own in a pattern. *)
Definition is_metachar (c : ascii) : bool :=
  existsb (Ascii.eqb c)
    ["."; "^"; "$"; "*"; "+"; "?"; "{"; "}"; "["; "]"; "\"; "|"; "("; ")"]%char.

(** The canonical keys of the translation table. *)
Definition canonical_keys : list string :=
  ["identifier"; "device"; "path"; "description"; "type"; "default";
   "bootmgr"; "timeout"; "displayorder"; "osdevice"].

(** A non-empty run of word characters. *)
Definition is_word (g : string) : Prop :=
  g <> "" /\ forallb_str ValuePattern.is_word_char g = true.

(** The shape the default pattern accepts: five words joined by hyphens,
    in braces. *)
Definition is_guid (m : string) : Prop :=
  exists g1 g2 g3 g4 g5,
    is_word g1 /\ is_word g2 /\ is_word g3 /\ is_word g4 /\ is_word g5
    /\ m = ("{" ++ g1 ++ "-" ++ g2 ++ "-" ++ g3 ++ "-" ++ g4 ++ "-" ++ g5
            ++ "}")%string.

(** The tool can always be spawned. *)
Definition reachable {W : Type} (tool : list string -> W -> run_outcome * W)
  : Prop :=
  forall argv w, exists result w', tool argv w = (Completed result, w').

(** ** Sample tools

    Stand-ins for the external tool, used to run the methods on
    concrete inputs. *)

Module Sample.

(** A tool that cannot be spawned. *)
Definition missing_tool (argv : list string) (w : unit) : run_outcome * unit :=
  (SpawnFailed (OSError "[WinError 2] The system cannot find the file specified"),
   w).

(** A tool that runs and rejects every command. *)
Definition rejecting_tool (argv : list string) (w : unit) : run_outcome * unit :=
  (Completed {| returncode := 1; stdout := "";
                stderr := "The boot configuration data store could not be opened." |},
   w).

(** A tool that runs, and rejects the commands that mention [word]. *)
Definition refusing (word : string) (argv : list string) (w : unit)
  : run_outcome * unit :=
  (Completed
     {| returncode := if AdvancedBootManager.in_list word argv then 1 else 0;
        stdout := "The entry was successfully copied to {7e9c1f2a-aaaa-bbbb-cccc-0123456789ab}.";
        stderr := "The parameter is incorrect." |},
   w).

(** A tool that answers its first [n] calls and cannot be spawned after
    them; the store counts the calls. *)
Definition vanishing (n : nat) (argv : list string) (calls : nat)
  : run_outcome * nat :=
  (if calls <? n then
     Completed
       {| returncode := 0;
          stdout := "The entry was successfully copied to {7e9c1f2a-aaaa-bbbb-cccc-0123456789ab}.";
          stderr := "" |}
   else SpawnFailed (OSError "[WinError 5] Access is denied"),
   S calls).

Definition nl : string := String newline "".

Fixpoint order_lines (order : list string) : string :=
  match order with
  | [] => ""
  | id :: rest => ("                        " ++ id ++ nl ++ order_lines rest)%string
  end.

(** The boot-manager record of a store whose display order is [order]. *)
Definition bootmgr_dump (order : list string) : string :=
  ("Windows Boot Manager" ++ nl ++ "--------------------" ++ nl
   ++ "identifier              {bootmgr}" ++ nl
   ++ match order with
      | [] => ""
      | id :: rest =>
          "displayorder            " ++ id ++ nl ++ order_lines rest
      end
   ++ "timeout                 30" ++ nl)%string.

(** The record of one entry. *)
Definition entry_dump (identifier : string) : string :=
  ("Windows Boot Loader" ++ nl ++ "-------------------" ++ nl
   ++ "identifier              " ++ identifier ++ nl
   ++ "device                  partition=C:" ++ nl
   ++ "path                    \Windows\system32\winload.efi" ++ nl
   ++ "description             Windows 10" ++ nl
   ++ "resumeobject            {0a1b2c3d-0000-1111-2222-333344445555}" ++ nl)%string.

Definition answer (out : string) : CompletedProcess :=
  {| returncode := 0; stdout := out; stderr := "" |}.

(** A store that keeps a display order: it answers the enumerations with
    dumps, forgets the order on [/deletevalue], takes the order of
    [/displayorder], and mints one fixed identifier on [/copy]. *)
Definition store_answer (argv order : list string) : CompletedProcess :=
  match argv with
  | ["bcdedit"; "/enum"; "{bootmgr}"] => answer (bootmgr_dump order)
  | ["bcdedit"; "/enum"; "/v"] =>
      answer (fold_right (fun id acc => entry_dump id ++ nl ++ acc)%string
                "" order)
  | ["bcdedit"; "/enum"; identifier; "/v"] => answer (entry_dump identifier)
  | "bcdedit" :: "/copy" :: _ =>
      answer "The entry was successfully copied to {7e9c1f2a-aaaa-bbbb-cccc-0123456789ab}."
  | _ => answer "The operation completed successfully."
  end.

Definition store_next (argv order : list string) : list string :=
  match argv with
  | ["bcdedit"; "/deletevalue"; "{bootmgr}"; "displayorder"] => []
  | "bcdedit" :: "/displayorder" :: order' => order'
  | _ => order
  end.

Definition store_tool (argv order : list string)
  : run_outcome * list string :=
  (Completed (store_answer argv order), store_next argv order).

Definition id_a : string := "{11111111-aaaa-4aaa-8aaa-aaaaaaaaaaaa}".
Definition id_b : string := "{22222222-bbbb-4bbb-8bbb-bbbbbbbbbbbb}".
Definition id_c : string := "{33333333-cccc-4ccc-8ccc-cccccccccccc}".

(** A tool that can always be spawned and answers every command, whatever
    the identifier asked for, with the same record of the entry [id_a],
    whose resume object is [id_b]. *)
Definition same_record_tool (argv : list string) (w : unit)
  : run_outcome * unit :=
  (Completed
     (answer ("identifier              " ++ id_a ++ nl
              ++ "resumeobject            " ++ id_b ++ nl)),
   w).

Definition initial {W : Type} (w : W) : AdvancedBootManager.state W :=
  {| AdvancedBootManager.world := w; AdvancedBootManager.issued := [];
     AdvancedBootManager.printed := [] |}.

(** [int] on plain decimal numerals, enough for the sample inputs. *)
Definition decimal_int (text : string) : option Z :=
  option_map Z.of_int (NilZero.int_of_string text).

Definition window {W : Type} (w : W) (text : string)
  : BootManagerApp.app_state W :=
  {| BootManagerApp.boot_manager := initial w;
     BootManagerApp.timeout_var := text;
     BootManagerApp.status_var := "Ready";
     BootManagerApp.error_boxes := [] |}.

End Sample.

(** * Properties *)

(** ** Strings *)

Lemma string_eqb_refl (s : string) : String.eqb s s = true.
Proof. apply String.eqb_eq; reflexivity. Qed.

Lemma append_nil_r (s : string) : (s ++ "")%string = s.
Proof. induction s; simpl; congruence. Qed.

Lemma append_assoc (a b c : string) :
  ((a ++ b) ++ c)%string = (a ++ (b ++ c))%string.
Proof. induction a; simpl; congruence. Qed.

Lemma length_append (a b : string) :
  String.length (a ++ b) = String.length a + String.length b.
Proof. induction a; simpl; auto. Qed.

(** What [span] returns: a split of the string whose first part satisfies
    the test throughout and whose second part does not start with a
    character that does. *)
Lemma span_spec (p : ascii -> bool) (s a b : string) :
  span p s = (a, b) ->
  s = (a ++ b)%string /\ forallb_str p a = true
  /\ match b with "" => True | String c _ => p c = false end.
Proof.
  revert a b; induction s as [|c t IH]; simpl; intros a b H.
  - inversion H; subst; auto.
  - destruct (p c) eqn:Hc.
    + destruct (span p t) as [a' b'] eqn:Hs. inversion H; subst.
      destruct (IH a' b eq_refl) as (E & F & G).
      simpl. rewrite Hc, F. repeat split; auto. congruence.
    + inversion H; subst. simpl. rewrite Hc. auto.
Qed.

Lemma span_append (p : ascii -> bool) (a r : string) :
  forallb_str p a = true ->
  match r with "" => True | String c _ => p c = false end ->
  span p (a ++ r) = (a, r).
Proof.
  induction a as [|c a IH]; simpl; intros Ha Hr.
  - destruct r as [|c r]; simpl; auto. rewrite Hr; auto.
  - apply andb_true_iff in Ha as [Hc Ha]. rewrite Hc, (IH Ha Hr). reflexivity.
Qed.

(** ** The identifier pattern *)

Section IdPatternFacts.

Import IdPattern.

Lemma match_here_sound (s m r : string) :
  match_here s = Some (m, r) -> is_identifier m /\ s = (m ++ r)%string.
Proof.
  destruct s as [|c t]; simpl; [discriminate|].
  destruct (Ascii.eqb_spec c "{"); [subst|discriminate].
  destruct (span is_id_char t) as [body rest] eqn:Hs.
  destruct body as [|b body]; [discriminate|].
  destruct rest as [|d rest]; [discriminate|].
  destruct (Ascii.eqb_spec d "}"); [subst|discriminate].
  intros H; inversion H; subst; clear H.
  destruct (span_spec _ _ Hs) as (E & F & _).
  split.
  - exists (String b body). repeat split; auto. discriminate.
  - subst t. simpl. rewrite append_assoc. reflexivity.
Qed.

Lemma match_here_complete (m r : string) :
  is_identifier m -> match_here (m ++ r) = Some (m, r).
Proof.
  intros (body & -> & Hne & Hall). simpl.
  rewrite append_assoc. simpl.
  rewrite (span_append is_id_char body (String "}" r) Hall eq_refl).
  destruct body as [|b body]; [congruence|]. reflexivity.
Qed.

Lemma occurs_at_0 (s m : string) :
  occurs_at s 0 m <-> exists post, s = (m ++ post)%string.
Proof.
  split.
  - intros (pre & post & -> & Hl). destruct pre; [|discriminate].
    exists post. reflexivity.
  - intros (post & ->). exists "", post. auto.
Qed.

Lemma occurs_at_S (c : ascii) (t m : string) (i : nat) :
  occurs_at (String c t) (S i) m <-> occurs_at t i m.
Proof.
  split.
  - intros (pre & post & E & Hl). destruct pre as [|c' pre]; [discriminate|].
    simpl in E, Hl. inversion E; subst. exists pre, post. auto.
  - intros (pre & post & -> & Hl). exists (String c pre), post. simpl. auto.
Qed.

Lemma occurs_at_nil (i : nat) (m : string) :
  is_identifier m -> ~ occurs_at "" i m.
Proof.
  intros (body & -> & _) (pre & post & E & _).
  destruct pre; discriminate.
Qed.

(** The pattern matches at the start of [s] exactly when an identifier
    occurs at offset 0. *)
Lemma match_here_occurs (s m : string) :
  (exists r, match_here s = Some (m, r)) <-> is_identifier m /\ occurs_at s 0 m.
Proof.
  split.
  - intros (r & H). apply match_here_sound in H as [Hi ->].
    split; auto. apply occurs_at_0; eauto.
  - intros (Hi & Ho). apply occurs_at_0 in Ho as (post & ->).
    exists post. apply match_here_complete; auto.
Qed.

Lemma match_here_none (s m : string) :
  match_here s = None -> is_identifier m -> ~ occurs_at s 0 m.
Proof.
  intros Hn Hi Ho.
  destruct (proj2 (match_here_occurs s m) (conj Hi Ho)) as (r & H). congruence.
Qed.

(** [search] returns the identifier that occurs first. *)
Lemma search_some (s m : string) :
  search s = Some m ->
  is_identifier m
  /\ exists i, occurs_at s i m
       /\ forall j m', is_identifier m' -> occurs_at s j m' -> i <= j.
Proof.
  induction s as [|c t IH].
  - simpl. discriminate.
  - cbn [search]. destruct (match_here (String c t)) as [[m0 r]|] eqn:Hm.
    + intros H; inversion H; subst.
      destruct (proj1 (match_here_occurs _ _) (ex_intro _ r Hm)) as [Hi Ho].
      split; auto. exists 0. split; auto. intros; lia.
    + intros H. destruct (IH H) as (Hi & i & Ho & Hmin).
      split; auto. exists (S i). split; [apply occurs_at_S; auto|].
      intros j m' Hi' Ho'. destruct j as [|j].
      * exfalso. eapply match_here_none; eauto.
      * apply occurs_at_S in Ho'. specialize (Hmin j m' Hi' Ho'). lia.
Qed.

Lemma search_none (s : string) :
  search s = None -> forall i m, is_identifier m -> ~ occurs_at s i m.
Proof.
  induction s as [|c t IH]; intros H i m Hi.
  - apply occurs_at_nil; auto.
  - cbn [search] in H. destruct (match_here (String c t)) as [[m0 r]|] eqn:Hm;
      [discriminate|].
    destruct i as [|i].
    + eapply match_here_none; eauto.
    + rewrite occurs_at_S. apply IH; auto.
Qed.

End IdPatternFacts.

(** ** All matches of the identifier pattern *)

Section FindallFacts.

Import IdPattern.

Lemma matches_at_In (s : string) : forall off i m,
  In (i, m) (matches_at off s)
  <-> exists j, i = off + j /\ is_identifier m /\ occurs_at s j m.
Proof.
  induction s as [|c t IH]; intros off i m.
  - simpl. split; [tauto|].
    intros (j & _ & Hi & Ho). eapply occurs_at_nil; eauto.
  - cbn [matches_at].
    assert (Htail : In (i, m) (matches_at (S off) t)
                    <-> exists j, i = off + S j /\ is_identifier m
                                  /\ occurs_at (String c t) (S j) m).
    { rewrite IH. split; intros (j & E & Hi & Ho); exists j.
      - split; [lia|]. split; [auto|]. apply (proj2 (occurs_at_S c t m j) Ho).
      - split; [lia|]. split; [auto|]. apply (proj1 (occurs_at_S c t m j) Ho). }
    destruct (match_here (String c t)) as [[m0 r]|] eqn:Hm.
    + destruct (proj1 (match_here_occurs _ _) (ex_intro _ r Hm)) as [Hi0 Ho0].
      simpl. rewrite Htail. split.
      * intros [E | (j & E & Hi & Ho)].
        -- inversion E; subst. exists 0. split; [lia|auto].
        -- exists (S j). auto.
      * intros (j & E & Hi & Ho). destruct j as [|j].
        -- left. destruct (proj2 (match_here_occurs _ _) (conj Hi Ho)) as (r' & H').
           rewrite Hm in H'. inversion H'; subst. f_equal. lia.
        -- right. exists j. auto.
    + rewrite Htail. split.
      * intros (j & E & Hi & Ho). exists (S j). auto.
      * intros (j & E & Hi & Ho). destruct j as [|j].
        -- exfalso. eapply match_here_none; eauto.
        -- exists j. auto.
Qed.

Lemma matches_at_sorted (s : string) : forall off,
  StronglySorted (fun a b : nat * string => fst a < fst b) (matches_at off s).
Proof.
  induction s as [|c t IH]; intros off; cbn [matches_at].
  - constructor.
  - destruct (match_here (String c t)) as [[m0 r]|]; auto.
    constructor; auto.
    apply Forall_forall. intros [i m] Hin.
    apply matches_at_In in Hin as (j & -> & _). simpl. lia.
Qed.

Lemma sorted_after {A} (R : A -> A -> Prop) (q1 q2 : list A) (x y : A) :
  StronglySorted R (q1 ++ x :: q2) -> In y q2 -> R x y.
Proof.
  induction q1 as [|z q1 IH]; simpl; intros Hs Hy.
  - apply StronglySorted_inv in Hs as [_ Hall].
    rewrite Forall_forall in Hall. auto.
  - apply StronglySorted_inv in Hs as [Hs _]. auto.
Qed.

Lemma id_char_not_open (c : ascii) : is_id_char c = true -> c <> "{"%char.
Proof. intros H ->. discriminate. Qed.

Lemma no_open_brace_body (body r : string) :
  forallb_str is_id_char body = true ->
  no_open_brace (String.length body + 1) (body ++ String "}" r).
Proof.
  induction body as [|b body IH]; simpl; intros H.
  - split; [discriminate|]. destruct r; exact I.
  - apply andb_true_iff in H as [Hb H].
    split; [apply id_char_not_open; auto|auto].
Qed.

(** Passing over the matched text loses no match: [findall] lists the
    match at every offset where there is one, from left to right. *)
Lemma findall_from_matches (s : string) : forall skip off,
  no_open_brace skip s ->
  findall_from skip s = map snd (matches_at off s).
Proof.
  induction s as [|c t IH]; intros skip off Hk.
  - reflexivity.
  - cbn [findall_from matches_at]. destruct skip as [|k].
    + destruct (match_here (String c t)) as [[m r]|] eqn:Hm.
      * simpl. f_equal. apply IH.
        destruct (match_here_sound _ Hm) as ((body & -> & Hne & Hall) & E).
        simpl in E. inversion E; subst.
        rewrite append_assoc. simpl.
        rewrite length_append. simpl. rewrite Nat.sub_0_r.
        apply no_open_brace_body; auto.
      * apply IH. exact I.
    + destruct Hk as [Hc Hk].
      assert (Hn : match_here (String c t) = None).
      { simpl. destruct (Ascii.eqb_spec c "{"); [contradiction|reflexivity]. }
      rewrite Hn. apply IH; auto.
Qed.

Lemma findall_matches (s : string) :
  findall s = map snd (matches_at 0 s).
Proof. apply findall_from_matches. exact I. Qed.

End FindallFacts.

(** ** The deduplication loop *)

Section UniqueFacts.

Import AdvancedBootManager.

Lemma in_list_iff (x : string) (l : list string) :
  in_list x l = true <-> In x l.
Proof.
  unfold in_list. rewrite existsb_exists. split.
  - intros (y & Hy & E). apply String.eqb_eq in E. subst; auto.
  - intros H. exists x. split; auto. apply string_eqb_refl.
Qed.

Lemma in_list_false (x : string) (l : list string) :
  in_list x l = false <-> ~ In x l.
Proof.
  rewrite <- in_list_iff. destruct (in_list x l); split; congruence.
Qed.

Lemma before_snoc (a b x : string) (l : list string) :
  before a b (l ++ [x]) -> before a b l \/ (In a l /\ b = x).
Proof.
  intros (l1 & l2 & l3 & E).
  destruct l3 as [|y l3 _] using rev_ind.
  - right.
    replace (l1 ++ a :: l2 ++ [b]) with ((l1 ++ a :: l2) ++ [b]) in E
      by (rewrite <- app_assoc; reflexivity).
    apply app_inj_tail in E as [-> ->]. split; auto.
    apply in_or_app. right. left. reflexivity.
  - left.
    replace (l1 ++ a :: l2 ++ b :: l3 ++ [y])
      with ((l1 ++ a :: l2 ++ b :: l3) ++ [y]) in E
      by (rewrite <- !app_assoc; simpl; rewrite <- app_assoc; reflexivity).
    apply app_inj_tail in E as [-> _]. exists l1, l2, l3. reflexivity.
Qed.

Lemma unique_loop_In (l : list string) : forall acc x,
  In x (unique_loop l acc) <-> In x acc \/ In x l.
Proof.
  induction l as [|y l IH]; intros acc x; simpl.
  - tauto.
  - rewrite IH. destruct (in_list y acc) eqn:Hy.
    + apply in_list_iff in Hy. split; [tauto|].
      intros [H|[->|H]]; auto.
    + rewrite in_app_iff. simpl. tauto.
Qed.

Lemma unique_loop_NoDup (l : list string) : forall acc,
  NoDup acc -> NoDup (unique_loop l acc).
Proof.
  induction l as [|y l IH]; intros acc Hacc; simpl; auto.
  apply IH. destruct (in_list y acc) eqn:Hy; auto.
  apply in_list_false in Hy.
  apply NoDup_rev in Hacc. rewrite <- (rev_involutive (acc ++ [y])).
  apply NoDup_rev. rewrite rev_app_distr. simpl.
  constructor; auto. rewrite <- in_rev. auto.
Qed.

(** An element that ends up before another was seen, in the scanned list,
    before every occurrence of the other. *)
Lemma unique_loop_before (l : list string) : forall acc a b,
  before a b (unique_loop l acc) ->
  before a b acc
  \/ (In a acc /\ ~ In b acc /\ In b l)
  \/ (~ In a acc /\ ~ In b acc
      /\ exists p1 p2, l = p1 ++ a :: p2 /\ ~ In b p1).
Proof.
  induction l as [|y l IH]; intros acc a b H; simpl in H.
  - auto.
  - destruct (in_list y acc) eqn:Hy.
    + apply in_list_iff in Hy.
      destruct (IH _ _ _ H) as [H1 | [(Ha & Hb & Hl) | (Ha & Hb & p1 & p2 & E & Hp)]].
      * auto.
      * right; left. repeat split; auto. right; auto.
      * right; right. repeat split; auto.
        exists (y :: p1), p2. split; [simpl; congruence|].
        intros [->|Hin]; auto.
    + apply in_list_false in Hy.
      destruct (IH _ _ _ H) as [H1 | [(Ha & Hb & Hl) | (Ha & Hb & p1 & p2 & E & Hp)]].
      * apply before_snoc in H1 as [H1 | [Ha ->]]; auto.
        right; left. repeat split; auto. left; auto.
      * rewrite in_app_iff in Ha, Hb. simpl in Ha, Hb.
        destruct Ha as [Ha | [-> | []]].
        -- right; left. repeat split; auto. right; auto.
        -- right; right. repeat split; auto.
           exists [], l. split; auto.
      * rewrite in_app_iff in Ha, Hb. simpl in Ha, Hb.
        right; right. repeat split; auto.
        exists (y :: p1), p2. split; [simpl; congruence|].
        intros [->|Hin]; auto.
Qed.

Lemma before_NoDup_neq (a b : string) (l : list string) :
  NoDup l -> before a b l -> a <> b.
Proof.
  intros Hn (l1 & l2 & l3 & ->) ->.
  apply NoDup_remove_2 in Hn. apply Hn.
  rewrite in_app_iff. right. rewrite in_app_iff. right. left. reflexivity.
Qed.

Import IdPattern.

(** The identifiers of a text, deduplicated in first-seen order. *)
Lemma unique_findall (text : string) :
  let ids := unique_loop (findall text) [] in
  NoDup ids
  /\ (forall m, In m ids <-> is_identifier m /\ exists i, occurs_at text i m)
  /\ (forall a b, before a b ids ->
        exists i, occurs_at text i a /\ forall j, occurs_at text j b -> i < j).
Proof.
  intros ids.
  assert (Hnd : NoDup ids) by (apply unique_loop_NoDup; constructor).
  assert (Hin : forall m, In m ids <-> is_identifier m /\ exists i, occurs_at text i m).
  { intros m. unfold ids. rewrite unique_loop_In, findall_matches, in_map_iff.
    split.
    - intros [[]|([i m'] & E & H)]. simpl in E; subst.
      apply matches_at_In in H as (j & _ & Hi & Ho). eauto.
    - intros (Hi & i & Ho). right. exists (i, m). split; auto.
      apply matches_at_In. exists i. auto. }
  split; [auto|split; [auto|]].
  intros a b Hab.
  assert (Hneq : a <> b) by (eapply before_NoDup_neq; eauto).
  assert (Hb : In b ids).
  { destruct Hab as (l1 & l2 & l3 & E). rewrite E.
    rewrite in_app_iff. right. right. rewrite in_app_iff. right. left; auto. }
  apply Hin in Hb as [Hib _].
  apply unique_loop_before in Hab
    as [(l1 & l2 & l3 & E) | [([] & _) | (_ & _ & p1 & p2 & E & Hp)]].
  { destruct l1; discriminate. }
  rewrite findall_matches in E.
  apply map_eq_app in E as (q1 & q2' & Eq & E1 & E2).
  apply map_eq_cons in E2 as ([i a'] & q2 & -> & Ea & E2). simpl in Ea; subst a'.
  assert (Hia : In (i, a) (matches_at 0 text)).
  { rewrite Eq. apply in_or_app. right. left. reflexivity. }
  apply matches_at_In in Hia as (j0 & Ej & _ & Hoa). simpl in Ej; subst j0.
  exists i. split; auto.
  intros j Hob.
  assert (Hjb : In (j, b) (matches_at 0 text)).
  { apply matches_at_In. exists j. auto. }
  rewrite Eq in Hjb. apply in_app_or in Hjb as [Hq1 | [Hx | Hq2]].
  - exfalso. apply Hp. rewrite <- E1. apply in_map_iff. exists (j, b). auto.
  - inversion Hx; subst. congruence.
  - pose proof (matches_at_sorted text 0) as Hs. rewrite Eq in Hs.
    apply (sorted_after _ _ _ _ Hs Hq2).
Qed.

End UniqueFacts.

(** ** Enumeration of identifiers *)

Section Enumeration.

Import AdvancedBootManager IdPattern.

Variable W : Type.
Variable tool : list string -> W -> run_outcome * W.

(** The value of [list_identifiers] in terms of the tool's answer to the
    full enumeration; it never raises. *)
Lemma list_identifiers_value (s : state W) :
  exists s',
    list_identifiers tool s
    = (Return
         match fst (tool ["bcdedit"; "/enum"; "/v"] (world s)) with
         | Completed result =>
             if (returncode result =? 0)%Z
             then unique_loop (findall (stdout result)) []
             else []
         | SpawnFailed _ => []
         end, s').
Proof.
  unfold list_identifiers, get_entries, bind, try_except, subprocess_run,
    nonzero, print, ret.
  destruct (tool ["bcdedit"; "/enum"; "/v"] (world s)) as [[result|e] w]; simpl.
  - destruct (returncode result =? 0)%Z; simpl; [|eauto].
    destruct (stdout result); simpl; eauto.
  - eauto.
Qed.

(** C6. [list_identifiers] returns the brace-delimited identifiers that
    occur in the enumeration output, each exactly once and in the order of
    their first occurrences; when the enumeration call fails (the tool
    cannot be spawned, or exits non-zero) it returns the empty list and
    does not raise. *)
Theorem list_identifiers_first_seen (s : state W) :
  exists ids s',
    list_identifiers tool s = (Return ids, s')
    /\ match fst (tool ["bcdedit"; "/enum"; "/v"] (world s)) with
       | Completed result =>
           if (returncode result =? 0)%Z then
             NoDup ids
             /\ (forall m, In m ids
                   <-> is_identifier m
                       /\ exists i, occurs_at (stdout result) i m)
             /\ (forall l1 a l2 b l3, ids = l1 ++ a :: l2 ++ b :: l3 ->
                   exists i, occurs_at (stdout result) i a
                     /\ forall j, occurs_at (stdout result) j b -> i < j)
           else ids = []
       | SpawnFailed _ => ids = []
       end.
Proof.
  destruct (list_identifiers_value s) as (s' & E).
  eexists; exists s'. split; [exact E|].
  destruct (fst (tool ["bcdedit"; "/enum"; "/v"] (world s))) as [result|e]; auto.
  destruct (returncode result =? 0)%Z; auto.
  destruct (unique_findall (stdout result)) as (Hn & Hi & Ho).
  split; [auto|split; [auto|]].
  intros l1 a l2 b l3 El. apply Ho. exists l1, l2, l3. exact El.
Qed.

End Enumeration.

(** ** The parsed entry *)

Section ParsedEntry.

Import AdvancedBootManager IdPattern.

Lemma dict_get_set (k v : string) (d : Dict.t) :
  Dict.get k (Dict.set k v d) = Some v.
Proof.
  induction d as [|[k' v'] d IH]; simpl.
  - rewrite string_eqb_refl. reflexivity.
  - destruct (String.eqb k' k) eqn:E; simpl; rewrite E; auto.
Qed.

Lemma dict_set_nonempty (k v : string) (d : Dict.t) :
  Dict.set k v d <> Dict.empty.
Proof. destruct d as [|[k' v'] d]; simpl; [|destruct (String.eqb k' k)]; discriminate. Qed.

Lemma append_inj_length (p1 p2 x y : string) :
  (p1 ++ x)%string = (p2 ++ y)%string -> String.length p1 = String.length p2 ->
  p1 = p2 /\ x = y.
Proof.
  revert p2; induction p1 as [|c p1 IH]; intros [|d p2]; simpl;
    intros E L; try discriminate; auto.
  inversion E; subst. destruct (IH p2) as [-> ->]; auto.
Qed.

(** Two identifiers occurring at the same offset are the same. *)
Lemma occurs_at_same_offset (text : string) (i : nat) (m1 m2 : string) :
  is_identifier m1 -> is_identifier m2 ->
  occurs_at text i m1 -> occurs_at text i m2 -> m1 = m2.
Proof.
  intros H1 H2 (p1 & q1 & E1 & L1) (p2 & q2 & E2 & L2).
  rewrite E1 in E2. apply append_inj_length in E2 as [_ E]; [|congruence].
  pose proof (match_here_complete q1 H1) as M1.
  pose proof (match_here_complete q2 H2) as M2.
  rewrite E in M1. congruence.
Qed.

(** What [parse_entry_properties] binds to the key [identifier]. *)
Lemma parse_entry_identifier_search (text m : string) :
  search text = Some m ->
  parse_entry_properties text <> Dict.empty
  /\ Dict.get "identifier" (parse_entry_properties text) = Some m.
Proof.
  intros Hs. unfold parse_entry_properties.
  destruct text as [|c t]; [discriminate|]. cbn [truthy negb].
  rewrite Hs. split; [apply dict_set_nonempty|apply dict_get_set].
Qed.

(** [get_entry_info] with a tool that can be spawned: the output of the
    per-entry query when it exits with code 0, nothing otherwise. *)
Lemma get_entry_info_reachable
  (W : Type) (tool : list string -> W -> run_outcome * W)
  (identifier : string) (s : state W) :
  reachable tool ->
  exists result w info s',
    tool ["bcdedit"; "/enum"; identifier; "/v"] (world s) = (Completed result, w)
    /\ get_entry_info tool identifier s = (Return info, s')
    /\ info = (if (returncode result =? 0)%Z then Some (stdout result)
               else None).
Proof.
  intros Hreach.
  destruct (Hreach ["bcdedit"; "/enum"; identifier; "/v"] (world s))
    as (result & w & E).
  exists result, w.
  unfold get_entry_info, try_except, bind, subprocess_run, ret, print, nonzero.
  rewrite E.
  destruct (returncode result =? 0)%Z; cbn [negb];
    do 2 eexists; (split; [reflexivity|]); split; reflexivity.
Qed.

(** C7. For a dump that holds at least one brace-delimited identifier,
    [parse_entry_properties] binds the key [identifier] to the identifier
    that occurs first, whatever token precedes it.  Consequently, with a
    tool that can be spawned, the entry read for an identifier (the dump
    [get_entry_info] fetches, parsed) is nothing when the per-entry query
    exits non-zero; otherwise, when the dump holds an identifier, it is a
    non-empty mapping whose [identifier] is the first identifier of that
    dump, which is the identifier asked for exactly when the tool's dump
    names it first. *)
Theorem parse_entry_binds_first_identifier :
  (forall text,
     (exists i m, is_identifier m /\ occurs_at text i m) ->
     exists i m,
       Dict.get "identifier" (parse_entry_properties text) = Some m
       /\ is_identifier m /\ occurs_at text i m
       /\ forall j m', is_identifier m' -> occurs_at text j m' -> i <= j)
  /\
  (forall (W : Type) (tool : list string -> W -> run_outcome * W)
          (s : state W) id,
     reachable tool ->
     exists result w s',
       tool ["bcdedit"; "/enum"; id; "/v"] (world s) = (Completed result, w)
       /\ get_entry_info tool id s
          = (Return (if (returncode result =? 0)%Z then Some (stdout result)
                     else None), s')
       /\ forall first,
            search (stdout result) = Some first ->
            parse_entry_properties (stdout result) <> Dict.empty
            /\ Dict.get "identifier" (parse_entry_properties (stdout result))
               = Some first
            /\ (Dict.get "identifier" (parse_entry_properties (stdout result))
                = Some id
                <-> first = id)).
Proof.
  split.
  - intros text (i0 & m0 & Hi0 & Ho0).
    destruct (search text) as [m|] eqn:Hs.
    + destruct (search_some _ Hs) as (Hi & i & Ho & Hmin).
      exists i, m. repeat split; auto.
      apply parse_entry_identifier_search; auto.
    + exfalso. eapply search_none; eauto.
  - intros W tool s id Hreach.
    destruct (get_entry_info_reachable id s Hreach)
      as (result & w & info & s' & Htool & Hrun & Hinfo).
    exists result, w, s'.
    split; [exact Htool|]. split; [rewrite <- Hinfo; exact Hrun|].
    intros first Hs.
    destruct (parse_entry_identifier_search _ Hs) as [Hne Hget].
    split; [exact Hne|]. split; [exact Hget|].
    rewrite Hget. split; [intros E; injection E as ->; reflexivity|].
    intros ->. reflexivity.
Qed.

End ParsedEntry.

(** ** Running the methods *)

Ltac unfold_monad :=
  unfold AdvancedBootManager.bind, AdvancedBootManager.try_except,
    AdvancedBootManager.subprocess_run, AdvancedBootManager.ret,
    AdvancedBootManager.raise, AdvancedBootManager.print,
    AdvancedBootManager.nonzero in *.

Ltac case_tool :=
  match goal with
  | H : ?tool ?argv ?w = (_, _) |- context [?tool ?argv ?w] => rewrite H
  | |- context [let (_, _) := ?tool ?argv ?w in _] =>
      let result := fresh "result" in
      let e := fresh "e" in
      let w' := fresh "w" in
      let E := fresh "Etool" in
      destruct (tool argv w) as [[result|e] w'] eqn:E
  end.

Section Timeout.

Import AdvancedBootManager.

Variable W : Type.
Variable tool : list string -> W -> run_outcome * W.
Variable int_max_str_digits : nat.

(** [AdvancedBootManager.set_timeout] checks nothing about the sign and
    never raises.  For an integer within the digit limit of [str] it hands
    one command to the tool; past the limit it hands none, prints the error
    and returns [False]. *)
Lemma set_timeout_commands (seconds : Z) (s : state W) :
  exists ok s',
    set_timeout tool int_max_str_digits seconds s = (Return ok, s')
    /\ if exceeds_str_digits int_max_str_digits seconds
       then ok = false
            /\ s' = {| world := world s; issued := issued s;
                       printed :=
                         printed s
                         ++ [("Error setting timeout: "
                              ++ exc_str (str_digits_error int_max_str_digits))
                             %string] |}
       else issued s'
            = issued s ++ [["bcdedit"; "/timeout"; str_of_Z seconds]]
            /\ ok = match fst (tool ["bcdedit"; "/timeout"; str_of_Z seconds]
                                (world s)) with
                    | Completed result => (returncode result =? 0)%Z
                    | SpawnFailed _ => false
                    end.
Proof.
  unfold set_timeout, str_of_int.
  destruct (exceeds_str_digits int_max_str_digits seconds); unfold_monad.
  - do 2 eexists. split; [reflexivity|]. split; reflexivity.
  - destruct (tool ["bcdedit"; "/timeout"; str_of_Z seconds] (world s))
      as [[result|e] w]; cbn [fst]; do 2 eexists;
      (split; [reflexivity|]); split; reflexivity.
Qed.

(** C1. The timeout handler validates its input before anything else: when
    the text is not an integer, or is a negative integer such as -1, it
    shows an input-error box and leaves the boot manager untouched, so no
    command reaches the tool. *)
Theorem set_timeout_rejects_invalid_input
  (int : string -> option Z) (a : BootManagerApp.app_state W) :
  int (BootManagerApp.timeout_var a) = None
  \/ (exists n, int (BootManagerApp.timeout_var a) = Some n /\ (n < 0)%Z) ->
  exists a' message,
    BootManagerApp.set_timeout tool int int_max_str_digits a = (Return tt, a')
    /\ BootManagerApp.boot_manager a' = BootManagerApp.boot_manager a
    /\ issued (BootManagerApp.boot_manager a')
       = issued (BootManagerApp.boot_manager a)
    /\ BootManagerApp.status_var a' = BootManagerApp.status_var a
    /\ BootManagerApp.error_boxes a'
       = BootManagerApp.error_boxes a ++ [("Input Error", message)].
Proof.
  unfold BootManagerApp.set_timeout.
  intros [Hnone | (n & Hsome & Hneg)].
  - rewrite Hnone. do 2 eexists. repeat split.
  - rewrite Hsome. apply Z.ltb_lt in Hneg. rewrite Hneg.
    do 2 eexists. repeat split.
Qed.

End Timeout.

(** C1 at the input -1. *)
Lemma set_timeout_rejects_minus_one :
  exists a' message,
    BootManagerApp.set_timeout Sample.store_tool Sample.decimal_int 4300
      (Sample.window [Sample.id_a] "-1") = (Return tt, a')
    /\ BootManagerApp.boot_manager a'
       = BootManagerApp.boot_manager (Sample.window [Sample.id_a] "-1")
    /\ AdvancedBootManager.issued (BootManagerApp.boot_manager a') = []
    /\ BootManagerApp.status_var a' = "Ready"
    /\ BootManagerApp.error_boxes a' = [("Input Error", message)].
Proof.
  apply (set_timeout_rejects_invalid_input Sample.store_tool 4300
           Sample.decimal_int (Sample.window [Sample.id_a] "-1")).
  right. exists (-1)%Z. split; [reflexivity|lia].
Defined.

(** ** Display order, entry creation and entry status *)

Section Operations.

Import AdvancedBootManager.

Variable W : Type.
Variable tool : list string -> W -> run_outcome * W.
Variable path_exists : string -> bool.
Variable lang_code : Translation.lang.

Lemma is_empty_false (l : list string) : l <> [] -> is_empty l = false.
Proof. destruct l; [congruence|reflexivity]. Qed.

(** When the clear command cannot be spawned, [set_display_order] stops
    there and reports failure. *)
Lemma set_display_order_spawn_failure (order : list string) (s : state W) e w :
  tool ["bcdedit"; "/deletevalue"; "{bootmgr}"; "displayorder"] (world s)
  = (SpawnFailed e, w) ->
  exists s',
    set_display_order tool order s = (Return false, s')
    /\ issued s'
       = issued s ++ [["bcdedit"; "/deletevalue"; "{bootmgr}"; "displayorder"]].
Proof.
  intros E. unfold set_display_order. unfold_monad. rewrite E. simpl. eauto.
Qed.

(** What [set_display_order] hands to the tool once the clear command has
    been spawned. *)
Lemma set_display_order_commands (order : list string) (s : state W) result w :
  tool ["bcdedit"; "/deletevalue"; "{bootmgr}"; "displayorder"] (world s)
  = (Completed result, w) ->
  exists ok s',
    set_display_order tool order s = (Return ok, s')
    /\ issued s'
       = issued s
         ++ ["bcdedit"; "/deletevalue"; "{bootmgr}"; "displayorder"]
            :: match order with
               | [] => []
               | _ :: _ => [("bcdedit" :: "/displayorder" :: order)]
               end
    /\ (order = [] ->
        ok = true
        /\ s' = {| world := w;
                   issued := issued s
                             ++ [["bcdedit"; "/deletevalue"; "{bootmgr}";
                                  "displayorder"]];
                   printed := printed s |}).
Proof.
  intros E. unfold set_display_order. unfold_monad. rewrite E.
  destruct order as [|id rest]; simpl.
  - do 2 eexists. split; [reflexivity|]. split; [reflexivity|]. auto.
  - case_tool; simpl.
    + do 2 eexists. split; [reflexivity|]. simpl.
      rewrite <- app_assoc. split; [reflexivity|discriminate].
    + do 2 eexists. split; [reflexivity|]. simpl.
      rewrite <- app_assoc. split; [reflexivity|discriminate].
Qed.

(** C4. Whatever the list, [set_display_order] first issues the command
    that clears the stored display order.  Once that command has been
    spawned (its exit code is not looked at), exactly one set-order command
    with the whole list follows when the list is non-empty, and none when it
    is empty, in which case the result is success. *)
Theorem set_display_order_clear_then_set (order : list string) (s : state W) :
  exists ok s' rest,
    set_display_order tool order s = (Return ok, s')
    /\ issued s'
       = issued s
         ++ ["bcdedit"; "/deletevalue"; "{bootmgr}"; "displayorder"] :: rest
    /\ forall result w,
         tool ["bcdedit"; "/deletevalue"; "{bootmgr}"; "displayorder"] (world s)
         = (Completed result, w) ->
         (order <> [] -> rest = ["bcdedit" :: "/displayorder" :: order])
         /\ (order = [] -> rest = [] /\ ok = true).
Proof.
  destruct (tool ["bcdedit"; "/deletevalue"; "{bootmgr}"; "displayorder"]
              (world s)) as [[result|e] w] eqn:E.
  - destruct (set_display_order_commands order s E)
      as (ok & s' & Hrun & Hcmd & Hnil).
    exists ok, s'. eexists. split; [exact Hrun|]. split; [exact Hcmd|].
    intros _ _ _. split.
    + intros Hne. destruct order; [congruence|reflexivity].
    + intros ->. split; [reflexivity|]. apply Hnil. reflexivity.
  - destruct (set_display_order_spawn_failure order s E) as (s' & Hrun & Hcmd).
    exists false, s', []. split; [exact Hrun|]. split; [exact Hcmd|].
    intros result w' H. discriminate H.
Qed.

(** C5. When the template copy fails, [add_entry] returns no identifier
    and the copy command is the only one it has issued: no device,
    osdevice, path or type command follows. *)
Theorem add_entry_copy_failure
  (description : string) (device path type : option string) (s : state W) :
  copy_failed
    (fst (tool ["bcdedit"; "/copy"; "{current}"; "/d"; description] (world s))) ->
  exists s',
    add_entry tool description device path type s = (Return None, s')
    /\ issued s'
       = issued s ++ [["bcdedit"; "/copy"; "{current}"; "/d"; description]].
Proof.
  unfold add_entry, copy_failed. unfold_monad.
  case_tool; simpl; intros H.
  - destruct (returncode result =? 0)%Z eqn:Hrc; simpl.
    + destruct H as [H|H]; [apply Z.eqb_eq in Hrc; congruence|].
      rewrite H. simpl. eauto.
    + eauto.
  - eauto.
Qed.

(** [get_display_order] never raises, and the enumeration of the boot
    manager record is its only command. *)
Lemma get_display_order_returns (s : state W) :
  exists order s',
    get_display_order tool lang_code s = (Return order, s')
    /\ issued s' = issued s ++ [["bcdedit"; "/enum"; "{bootmgr}"]]
    /\ world s' = snd (tool ["bcdedit"; "/enum"; "{bootmgr}"] (world s)).
Proof.
  unfold get_display_order. unfold_monad. case_tool; simpl.
  - destruct (returncode result =? 0)%Z; simpl; eauto.
  - eauto.
Qed.

Lemma not_in_list (x : string) (l : list string) :
  l = [] \/ ~ In x l -> is_empty l || negb (in_list x l) = true.
Proof.
  intros [-> | H]; [reflexivity|].
  apply in_list_false in H. rewrite H. apply orb_true_r.
Qed.

(** C9. When the display order read from the store is empty, or does not
    hold the identifier, [move_entry_up] and [move_entry_down] return
    failure; the enumeration that read the order is the only command
    issued, so nothing is cleared or set. *)
Theorem move_entry_absent_fails
  (identifier : string) (s : state W) (order : list string) (s0 : state W) :
  get_display_order tool lang_code s = (Return order, s0) ->
  order = [] \/ ~ In identifier order ->
  move_entry_up tool lang_code identifier s = (Return false, s0)
  /\ move_entry_down tool lang_code identifier s = (Return false, s0)
  /\ issued s0 = issued s ++ [["bcdedit"; "/enum"; "{bootmgr}"]]
  /\ world s0 = snd (tool ["bcdedit"; "/enum"; "{bootmgr}"] (world s)).
Proof.
  intros Hget Habs.
  destruct (get_display_order_returns s) as (o & s' & E & Hi & Hw).
  rewrite Hget in E. inversion E; subst o s'. clear E.
  unfold move_entry_up, move_entry_down, bind. rewrite Hget.
  rewrite (not_in_list identifier Habs). auto.
Qed.

End Operations.

(** ** Entry status *)

Section Status.

Import AdvancedBootManager.

Variable W : Type.
Variable tool : list string -> W -> run_outcome * W.
Variable path_exists : string -> bool.
Variable lang_code : Translation.lang.

Lemma get_entry_info_returns (identifier : string) (s : state W) :
  exists info s', get_entry_info tool identifier s = (Return info, s').
Proof.
  unfold get_entry_info. unfold_monad. case_tool; simpl; eauto.
  destruct (returncode result =? 0)%Z; simpl; eauto.
Qed.

Lemma get_entry_info_no_dump (identifier : string) (s : state W) :
  no_dump (fst (tool ["bcdedit"; "/enum"; identifier; "/v"] (world s))) ->
  exists info s',
    get_entry_info tool identifier s = (Return info, s')
    /\ (info = None \/ info = Some "").
Proof.
  unfold get_entry_info, no_dump. unfold_monad. case_tool; simpl; intros H.
  - destruct (returncode result =? 0)%Z eqn:Hrc; simpl; eauto.
    destruct H as [H|H]; [apply Z.eqb_eq in Hrc; congruence|].
    rewrite H. eauto.
  - eauto.
Qed.

Lemma get_entry_device_returns (identifier : string) (s : state W) :
  exists device s',
    get_entry_device tool lang_code identifier s = (Return device, s').
Proof.
  unfold get_entry_device, bind.
  destruct (get_entry_info_returns identifier s) as (info & s' & E). rewrite E.
  destruct info as [text|]; [destruct (falsy (Some text))|]; unfold ret; eauto.
Qed.

Lemma get_entry_path_returns (identifier : string) (s : state W) :
  exists path s',
    get_entry_path tool lang_code identifier s = (Return path, s').
Proof.
  unfold get_entry_path, bind.
  destruct (get_entry_info_returns identifier s) as (info & s' & E). rewrite E.
  destruct info as [text|]; [destruct (falsy (Some text))|]; unfold ret; eauto.
Qed.

(** C10. When the dump of an identifier cannot be fetched, the status
    evaluators degrade without raising: [check_uefi] and [check_ramdisk]
    return [False], the device and path accessors return the empty string,
    and [has_missing_path_or_device] returns [True]. *)
Theorem status_without_dump (identifier : string) (s : state W) :
  no_dump (fst (tool ["bcdedit"; "/enum"; identifier; "/v"] (world s))) ->
  (exists s', check_uefi tool identifier s = (Return false, s'))
  /\ (exists s', check_ramdisk tool identifier s = (Return false, s'))
  /\ (exists s', get_entry_device tool lang_code identifier s = (Return "", s'))
  /\ (exists s', get_entry_path tool lang_code identifier s = (Return "", s'))
  /\ (exists s',
        has_missing_path_or_device tool path_exists lang_code identifier s
        = (Return true, s')).
Proof.
  intros H.
  destruct (get_entry_info_no_dump identifier s H) as (info & s1 & E & Hinfo).
  assert (Hdev : get_entry_device tool lang_code identifier s = (Return "", s1)).
  { unfold get_entry_device, bind. rewrite E.
    destruct Hinfo as [-> | ->]; reflexivity. }
  repeat split.
  - exists s1. unfold check_uefi, bind. rewrite E.
    destruct Hinfo as [-> | ->]; reflexivity.
  - exists s1. unfold check_ramdisk, bind. rewrite E.
    destruct Hinfo as [-> | ->]; reflexivity.
  - exists s1. exact Hdev.
  - exists s1. unfold get_entry_path, bind. rewrite E.
    destruct Hinfo as [-> | ->]; reflexivity.
  - destruct (get_entry_path_returns identifier s1) as (path & s2 & Ep).
    exists s2. unfold has_missing_path_or_device, bind.
    rewrite Hdev, Ep. reflexivity.
Qed.

(** *** Partition references *)

Lemma prefix_lower_split (p s : string) :
  startswith p (lower s) = true
  <-> exists tag rest, s = (tag ++ rest)%string /\ lower tag = p.
Proof.
  unfold startswith. revert p; induction s as [|c s IH]; intros [|a p]; simpl.
  - split; auto. intros _. exists "", "". auto.
  - split; [discriminate|]. intros ([|d tag] & rest & E & L); discriminate.
  - split; auto. intros _. exists "", (String c s). auto.
  - destruct (ascii_dec a (lower_char c)) as [->|Hne].
    + rewrite IH. split.
      * intros (tag & rest & -> & <-). exists (String c tag), rest. auto.
      * intros ([|d tag] & rest & E & L); [discriminate|].
        simpl in E, L. inversion E; subst. inversion L; subst. eauto.
    + split; [discriminate|].
      intros ([|d tag] & rest & E & L); [discriminate|].
      simpl in E, L. inversion E; subst. inversion L; subst. congruence.
Qed.

Lemma lower_char_equals_sign (c : ascii) :
  lower_char c = "="%char -> c = "="%char.
Proof.
  destruct c as [[] [] [] [] [] [] [] []]; vm_compute; intros H;
    first [reflexivity | discriminate H].
Qed.

(** In a device that starts with the partition tag, the first [=] is the
    one that ends the tag. *)
Lemma after_first_partition_tag (tag designator : string) :
  lower tag = "partition=" ->
  after_first "="%char (tag ++ designator) = Some designator.
Proof.
  intros H.
  do 10 (destruct tag as [|? tag]; [discriminate H|]).
  destruct tag; [|discriminate H].
  cbn [lower] in H. injection H as H0 H1 H2 H3 H4 H5 H6 H7 H8 H9.
  apply lower_char_equals_sign in H9. subst.
  cbn [append after_first].
  repeat match goal with
  | Hc : lower_char ?c = _ |- context [Ascii.eqb ?c "="%char] =>
      destruct (Ascii.eqb_spec c "="%char) as [->|_];
      [vm_compute in Hc; discriminate Hc|]; clear Hc
  end.
  reflexivity.
Qed.

Lemma partition_exists_value (device tag designator : string) (s : state W) :
  device = (tag ++ designator)%string -> lower tag = "partition=" ->
  partition_exists path_exists device s
  = (Return (path_exists (as_root designator)), s).
Proof.
  intros -> Ht. unfold partition_exists. unfold_monad.
  assert (Hs : startswith "partition=" (lower (tag ++ designator)) = true).
  { apply prefix_lower_split. eauto. }
  rewrite Hs, (after_first_partition_tag tag designator Ht).
  destruct tag; [discriminate Ht|]. reflexivity.
Qed.


End Status.

(** ** Moving an entry in the display order *)

Section MoveEntries.

Import AdvancedBootManager.

Variable W : Type.
Variable tool : list string -> W -> run_outcome * W.
Variable lang_code : Translation.lang.

(** [index_of] finds the first occurrence. *)
Lemma index_of_split (x : string) (l : list string) : forall i,
  index_of x l = Some i ->
  exists l1 l2, l = l1 ++ x :: l2 /\ length l1 = i /\ ~ In x l1.
Proof.
  induction l as [|y l IH]; simpl; intros i H; [discriminate|].
  destruct (String.eqb_spec y x) as [->|Hne].
  - inversion H; subst. exists [], l. auto.
  - destruct (index_of x l) as [j|]; [|discriminate].
    inversion H; subst. destruct (IH j eq_refl) as (l1 & l2 & -> & Hl & Hn).
    exists (y :: l1), l2. simpl. repeat split; auto.
    intros [E|Hin]; auto.
Qed.

Lemma index_of_first (x : string) (l1 l2 : list string) :
  ~ In x l1 -> index_of x (l1 ++ x :: l2) = Some (length l1).
Proof.
  induction l1 as [|y l1 IH]; simpl; intros Hn.
  - rewrite string_eqb_refl. reflexivity.
  - destruct (String.eqb_spec y x) as [->|Hne]; [tauto|].
    rewrite IH; auto.
Qed.

Lemma index_of_present (x : string) (l : list string) (i : nat) :
  index_of x l = Some i ->
  is_empty l || negb (in_list x l) = false.
Proof.
  intros H. destruct (index_of_split _ _ H) as (l1 & l2 & -> & _ & _).
  assert (Hin : in_list x (l1 ++ x :: l2) = true).
  { apply in_list_iff, in_or_app. right. left. reflexivity. }
  rewrite Hin. destruct l1; reflexivity.
Qed.

Lemma swap_items_cons (a : string) (l : list string) (i j : nat) :
  swap_items (S i) (S j) (a :: l) = option_map (cons a) (swap_items i j l).
Proof.
  unfold swap_items. simpl.
  destruct (nth_error l j); [|reflexivity].
  destruct (nth_error l i); reflexivity.
Qed.

(** Exchanging an entry with the one before it, and with the one after. *)
Lemma swap_with_previous (l1 l2 : list string) (x y : string) :
  swap_items (S (length l1)) (S (length l1) - 1) (l1 ++ x :: y :: l2)
  = Some (l1 ++ y :: x :: l2).
Proof.
  simpl. rewrite Nat.sub_0_r. induction l1 as [|a l1 IH].
  - reflexivity.
  - cbn [length app]. rewrite swap_items_cons, IH. reflexivity.
Qed.

Lemma swap_with_next (l1 l2 : list string) (x y : string) :
  swap_items (length l1) (length l1 + 1) (l1 ++ x :: y :: l2)
  = Some (l1 ++ y :: x :: l2).
Proof.
  rewrite Nat.add_1_r. induction l1 as [|a l1 IH].
  - reflexivity.
  - cbn [length app]. rewrite swap_items_cons, IH. reflexivity.
Qed.

(** An identifier found past the first position has a neighbour before
    it. *)
Lemma index_of_split_previous (x : string) (l : list string) (i : nat) :
  index_of x l = Some i -> 0 < i ->
  exists l1 y l2,
    l = l1 ++ y :: x :: l2 /\ i = S (length l1) /\ ~ In x l1 /\ y <> x.
Proof.
  intros H Hi. destruct (index_of_split _ _ H) as (l0 & l2 & -> & Hl & Hn).
  destruct l0 as [|y l1 _] using rev_ind; [simpl in Hl; lia|].
  exists l1, y, l2. rewrite <- app_assoc. simpl.
  rewrite length_app in Hl. simpl in Hl.
  rewrite in_app_iff in Hn. simpl in Hn.
  split; [reflexivity|]. split; [lia|]. split; [tauto|]. intros ->. tauto.
Qed.

Lemma move_entry_up_first (identifier : string) (s s0 : state W) order :
  get_display_order tool lang_code s = (Return order, s0) ->
  index_of identifier order = Some 0 ->
  move_entry_up tool lang_code identifier s = (Return true, s0).
Proof.
  intros Hget Hidx. unfold move_entry_up, bind. rewrite Hget.
  rewrite (index_of_present _ _ Hidx), Hidx. reflexivity.
Qed.

Lemma move_entry_down_last (identifier : string) (s s0 : state W) order :
  get_display_order tool lang_code s = (Return order, s0) ->
  index_of identifier order = Some (length order - 1) ->
  move_entry_down tool lang_code identifier s = (Return true, s0).
Proof.
  intros Hget Hidx. unfold move_entry_down, bind. rewrite Hget.
  rewrite (index_of_present _ _ Hidx), Hidx, Nat.eqb_refl. reflexivity.
Qed.

Lemma move_entry_up_swaps (identifier y : string) (s s0 : state W) l1 l2 :
  get_display_order tool lang_code s
  = (Return (l1 ++ y :: identifier :: l2), s0) ->
  ~ In identifier l1 -> y <> identifier ->
  move_entry_up tool lang_code identifier s
  = set_display_order tool (l1 ++ identifier :: y :: l2) s0.
Proof.
  intros Hget Hn Hy. unfold move_entry_up, bind. rewrite Hget.
  assert (Hidx : index_of identifier (l1 ++ y :: identifier :: l2)
                 = Some (S (length l1))).
  { replace (l1 ++ y :: identifier :: l2)
      with ((l1 ++ [y]) ++ identifier :: l2)
      by (rewrite <- app_assoc; reflexivity).
    rewrite index_of_first.
    - rewrite length_app. simpl. f_equal. lia.
    - rewrite in_app_iff. simpl. intros [H|[H|[]]]; auto. }
  rewrite (index_of_present _ _ Hidx), Hidx. cbn [Nat.eqb].
  rewrite swap_with_previous. reflexivity.
Qed.

Lemma move_entry_down_swaps (identifier y : string) (s s0 : state W) l1 l2 :
  get_display_order tool lang_code s
  = (Return (l1 ++ identifier :: y :: l2), s0) ->
  ~ In identifier l1 ->
  move_entry_down tool lang_code identifier s
  = set_display_order tool (l1 ++ y :: identifier :: l2) s0.
Proof.
  intros Hget Hn. unfold move_entry_down, bind. rewrite Hget.
  pose proof (index_of_first identifier l1 (y :: l2) Hn) as Hidx.
  rewrite (index_of_present _ _ Hidx), Hidx.
  assert (Hlast : (length l1 =? length (l1 ++ identifier :: y :: l2) - 1) = false).
  { apply Nat.eqb_neq. rewrite length_app. simpl. lia. }
  rewrite Hlast, swap_with_next. reflexivity.
Qed.


End MoveEntries.

(** ** The statements on sample inputs *)

Section Samples.

Import AdvancedBootManager Sample IdPattern.

Lemma store_tool_reachable : reachable store_tool.
Proof.
  intros argv w. exists (store_answer argv w), (store_next argv w). reflexivity.
Qed.

Lemma identifier_id_a : is_identifier id_a.
Proof.
  exists "11111111-aaaa-4aaa-8aaa-aaaaaaaaaaaa".
  split; [reflexivity|]. split; [discriminate|reflexivity].
Qed.

Lemma occurs_in_entry_dump : occurs_at (entry_dump id_a) 64 id_a.
Proof.
  exists ("Windows Boot Loader" ++ nl ++ "-------------------" ++ nl
          ++ "identifier              ")%string.
  exists (nl ++ "device                  partition=C:" ++ nl
          ++ "path                    \Windows\system32\winload.efi" ++ nl
          ++ "description             Windows 10" ++ nl
          ++ "resumeobject            {0a1b2c3d-0000-1111-2222-333344445555}"
          ++ nl)%string.
  split; reflexivity.
Qed.

Lemma first_in_entry_dump (j : nat) (m : string) :
  is_identifier m -> occurs_at (entry_dump id_a) j m -> 64 <= j.
Proof.
  intros Hi Ho.
  assert (H : In (j, m) (matches_at 0 (entry_dump id_a))).
  { apply matches_at_In. exists j. auto. }
  vm_compute in H. destruct H as [E|[E|[]]]; inversion E; lia.
Qed.

End Samples.


(** C4 on a store that holds two entries, rewritten in the other order. *)
Lemma set_display_order_sample :
  exists ok s',
    AdvancedBootManager.set_display_order Sample.store_tool
      [Sample.id_b; Sample.id_a] (Sample.initial [Sample.id_a; Sample.id_b])
    = (Return ok, s')
    /\ AdvancedBootManager.issued s'
       = [["bcdedit"; "/deletevalue"; "{bootmgr}"; "displayorder"];
          ["bcdedit"; "/displayorder"; Sample.id_b; Sample.id_a]].
Proof.
  destruct (set_display_order_clear_then_set Sample.store_tool
              [Sample.id_b; Sample.id_a]
              (Sample.initial [Sample.id_a; Sample.id_b]))
    as (ok & s' & rest & Hrun & Hissued & Hrest).
  destruct (Hrest _ _ eq_refl) as [Hne _].
  exists ok, s'. split; [exact Hrun|].
  rewrite Hissued, Hne; [reflexivity|discriminate].
Defined.

(** C5 on a tool that rejects the template copy. *)
Lemma add_entry_copy_failure_sample :
  exists s',
    AdvancedBootManager.add_entry Sample.rejecting_tool "Windows 11"
      (Some "partition=D:") (Some "\Windows\system32\winload.efi") None
      (Sample.initial tt)
    = (Return None, s')
    /\ AdvancedBootManager.issued s'
       = AdvancedBootManager.issued (Sample.initial tt)
         ++ [["bcdedit"; "/copy"; "{current}"; "/d"; "Windows 11"]].
Proof.
  apply (add_entry_copy_failure Sample.rejecting_tool "Windows 11"
           (Some "partition=D:") (Some "\Windows\system32\winload.efi") None
           (Sample.initial tt)).
  simpl. left. discriminate.
Defined.

(** C7 as stated fails.  The tool below can always be spawned; the second
    identifier that [list_identifiers] returns is [id_b], and the entry read
    for [id_b] has the identifier [id_a]. *)
Lemma listed_identifier_not_bound :
  reachable Sample.same_record_tool
  /\ fst (AdvancedBootManager.list_identifiers Sample.same_record_tool
            (Sample.initial tt))
     = Return [Sample.id_a; Sample.id_b]
  /\ (exists text,
        fst (AdvancedBootManager.get_entry_info Sample.same_record_tool
               Sample.id_b
               (snd (AdvancedBootManager.list_identifiers
                       Sample.same_record_tool (Sample.initial tt))))
        = Return (Some text)
        /\ Dict.get "identifier" (parse_entry_properties text)
           = Some Sample.id_a)
  /\ Sample.id_a <> Sample.id_b
  /\ ~ (forall (W : Type) (tool : list string -> W -> run_outcome * W)
               (s s' : AdvancedBootManager.state W) ids id,
          reachable tool ->
          AdvancedBootManager.list_identifiers tool s = (Return ids, s') ->
          In id ids ->
          exists text s'',
            AdvancedBootManager.get_entry_info tool id s'
            = (Return (Some text), s'')
            /\ parse_entry_properties text <> Dict.empty
            /\ Dict.get "identifier" (parse_entry_properties text) = Some id).
Proof.
  assert (Hreach : reachable Sample.same_record_tool).
  { intros argv w. do 2 eexists. reflexivity. }
  split; [exact Hreach|].
  split; [vm_compute; reflexivity|].
  split; [eexists; split; vm_compute; reflexivity|].
  split; [vm_compute; discriminate|].
  intros H.
  destruct (H unit Sample.same_record_tool (Sample.initial tt)
              (snd (AdvancedBootManager.list_identifiers
                      Sample.same_record_tool (Sample.initial tt)))
              [Sample.id_a; Sample.id_b] Sample.id_b Hreach)
    as (text & s'' & Hrun & _ & Hget).
  - vm_compute. reflexivity.
  - right. left. reflexivity.
  - vm_compute in Hrun. injection Hrun as <- _.
    vm_compute in Hget. discriminate Hget.
Qed.

(** C7 on the sample dump and the sample store. *)
Lemma parse_entry_binds_first_identifier_sample :
  (exists i m,
     Dict.get "identifier" (parse_entry_properties (Sample.entry_dump Sample.id_a))
     = Some m
     /\ IdPattern.is_identifier m
     /\ IdPattern.occurs_at (Sample.entry_dump Sample.id_a) i m
     /\ forall j m', IdPattern.is_identifier m' ->
          IdPattern.occurs_at (Sample.entry_dump Sample.id_a) j m' -> i <= j)
  /\ (exists s',
        AdvancedBootManager.get_entry_info Sample.store_tool Sample.id_a
          (Sample.initial [Sample.id_a; Sample.id_b])
        = (Return (Some (Sample.entry_dump Sample.id_a)), s'))
  /\ parse_entry_properties (Sample.entry_dump Sample.id_a) <> Dict.empty
  /\ Dict.get "identifier" (parse_entry_properties (Sample.entry_dump Sample.id_a))
     = Some Sample.id_a.
Proof.
  split.
  - apply (proj1 parse_entry_binds_first_identifier).
    exists 64, Sample.id_a.
    split; [exact identifier_id_a|exact occurs_in_entry_dump].
  - destruct (proj2 parse_entry_binds_first_identifier (list string)
                Sample.store_tool
                (Sample.initial [Sample.id_a; Sample.id_b]) Sample.id_a
                store_tool_reachable)
      as (result & w & s' & Htool & Hrun & Hparse).
    unfold Sample.store_tool in Htool. injection Htool as <- _.
    assert (Es : IdPattern.search (Sample.entry_dump Sample.id_a)
                 = Some Sample.id_a)
      by (vm_compute; reflexivity).
    destruct (Hparse _ Es) as (Hne & Hget & _).
    split; [exists s'; exact Hrun|].
    split; [exact Hne|exact Hget].
Defined.


(** C9 on a store whose display order does not hold the identifier. *)
Lemma move_entry_absent_fails_sample :
  AdvancedBootManager.move_entry_up Sample.store_tool Translation.en Sample.id_c
    (Sample.initial [Sample.id_a; Sample.id_b])
  = (Return false,
     snd (AdvancedBootManager.get_display_order Sample.store_tool Translation.en
            (Sample.initial [Sample.id_a; Sample.id_b])))
  /\ AdvancedBootManager.move_entry_down Sample.store_tool Translation.en
       Sample.id_c (Sample.initial [Sample.id_a; Sample.id_b])
     = (Return false,
        snd (AdvancedBootManager.get_display_order Sample.store_tool
               Translation.en (Sample.initial [Sample.id_a; Sample.id_b])))
  /\ AdvancedBootManager.issued
       (snd (AdvancedBootManager.get_display_order Sample.store_tool
               Translation.en (Sample.initial [Sample.id_a; Sample.id_b])))
     = AdvancedBootManager.issued (Sample.initial [Sample.id_a; Sample.id_b])
       ++ [["bcdedit"; "/enum"; "{bootmgr}"]]
  /\ AdvancedBootManager.world
       (snd (AdvancedBootManager.get_display_order Sample.store_tool
               Translation.en (Sample.initial [Sample.id_a; Sample.id_b])))
     = snd (Sample.store_tool ["bcdedit"; "/enum"; "{bootmgr}"]
              (AdvancedBootManager.world
                 (Sample.initial [Sample.id_a; Sample.id_b]))).
Proof.
  apply (move_entry_absent_fails Sample.store_tool Translation.en Sample.id_c
           (Sample.initial [Sample.id_a; Sample.id_b])
           (order := [Sample.id_a; Sample.id_b])).
  - vm_compute. reflexivity.
  - right. intros [E|[E|[]]]; discriminate E.
Defined.

(** C10 on a tool that rejects the enumeration. *)
Lemma status_without_dump_sample :
  (exists s', AdvancedBootManager.check_uefi Sample.rejecting_tool Sample.id_a
                (Sample.initial tt) = (Return false, s'))
  /\ (exists s', AdvancedBootManager.check_ramdisk Sample.rejecting_tool
                   Sample.id_a (Sample.initial tt) = (Return false, s'))
  /\ (exists s', AdvancedBootManager.get_entry_device Sample.rejecting_tool
                   Translation.de Sample.id_a (Sample.initial tt)
                 = (Return "", s'))
  /\ (exists s', AdvancedBootManager.get_entry_path Sample.rejecting_tool
                   Translation.de Sample.id_a (Sample.initial tt)
                 = (Return "", s'))
  /\ (exists s', AdvancedBootManager.has_missing_path_or_device
                   Sample.rejecting_tool (fun _ => true) Translation.de
                   Sample.id_a (Sample.initial tt)
                 = (Return true, s')).
Proof.
  apply (status_without_dump Sample.rejecting_tool (fun _ => true)
           Translation.de Sample.id_a (Sample.initial tt)).
  simpl. left. discriminate.
Defined.

(** ** Worked examples *)

Section Examples.

Import AdvancedBootManager Sample.

(** In an order without duplicates, the position of an identifier is the
    one [list.index] finds. *)
Lemma index_of_position (x : string) (l : list string) : forall i,
  NoDup l -> nth_error l i = Some x -> index_of x l = Some i.
Proof.
  induction l as [|y l IH]; intros [|i] Hn H; simpl in *; try discriminate.
  - inversion H; subst. rewrite string_eqb_refl. reflexivity.
  - inversion Hn as [|? ? Hy Hn']; subst.
    destruct (String.eqb_spec y x) as [->|Hne].
    + exfalso. apply Hy. eapply nth_error_In; eauto.
    + rewrite (IH i Hn' H). reflexivity.
Qed.

Example findall_skips_malformed :
  IdPattern.findall "id {ab-12} x{}{zz}{F0}{ab-12}"
  = ["{ab-12}"; "{F0}"; "{ab-12}"].
Proof. reflexivity. Qed.

Example search_leftmost :
  IdPattern.search "bezeichner  {9dea862c-5cdd}  {00}" = Some "{9dea862c-5cdd}".
Proof. reflexivity. Qed.

Example split_lines_keeps_blank :
  split_lines ("a" ++ nl ++ nl ++ "b") = ["a"; ""; "b"].
Proof. reflexivity. Qed.

Example str_of_Z_signed :
  str_of_Z (-1) = "-1" /\ str_of_Z 0 = "0" /\ str_of_Z 30 = "30".
Proof. repeat split; reflexivity. Qed.

(** A German dump: the token before the identifier is not a known key, the
    device key carries a Latin-1 letter. *)
Example parse_german_dump :
  parse_entry_properties
    ("Bezeichner              {9dea862c-5cdd-4e70-acc1-f32b344d4795}" ++ nl
     ++ "Ger" ++ Translation.a_uml ++ "t                   partition=C:" ++ nl
     ++ "Pfad                    \Windows\system32\winload.efi" ++ nl)
  = [("bezeichner", "{9dea862c-5cdd-4e70-acc1-f32b344d4795}");
     (("ger" ++ Translation.a_uml ++ "t")%string, "partition=C:");
     ("pfad", "\Windows\system32\winload.efi");
     ("identifier", "{9dea862c-5cdd-4e70-acc1-f32b344d4795}")].
Proof. vm_compute. reflexivity. Qed.

Example display_order_of_store :
  fst (get_display_order store_tool Translation.en
         (initial [id_a; id_b; id_c]))
  = Return [id_a; id_b; id_c].
Proof. vm_compute. reflexivity. Qed.

(** The entry of the sample dump is a UEFI entry without ramdisk, and is
    not missing when the root of drive C exists. *)
Example status_of_sample_entry :
  fst (check_uefi store_tool id_a (initial [id_a])) = Return true
  /\ fst (check_ramdisk store_tool id_a (initial [id_a])) = Return false
  /\ fst (has_missing_path_or_device store_tool
            (fun root => String.eqb root "C:\") Translation.en id_a
            (initial [id_a])) = Return false
  /\ fst (has_missing_path_or_device store_tool (fun _ => false)
            Translation.en id_a (initial [id_a])) = Return true.
Proof. repeat split; vm_compute; reflexivity. Qed.

(** The boot manager's own [set_timeout] passes a negative number on to
    the tool. *)
Example set_timeout_unchecked :
  issued (snd (set_timeout store_tool 4300 (-1) (initial [id_a])))
  = [["bcdedit"; "/timeout"; "-1"]].
Proof. reflexivity. Qed.

(** Past the digit limit of [str] no command is run. *)
Example set_timeout_past_digit_limit :
  set_timeout store_tool 640 (10 ^ 640) (initial [id_a])
  = (Return false,
     {| world := [id_a]; issued := [];
        printed :=
          ["Error setting timeout: Exceeds the limit (640 digits) for integer string conversion; use sys.set_int_max_str_digits() to increase the limit"] |}).
Proof. vm_compute. reflexivity. Qed.

(** With a duplicate in the order, the identifier is moved from its first
    occurrence, also when it stands last as well. *)
Example move_down_with_duplicate :
  issued (snd (move_entry_down store_tool Translation.en id_a
                 (initial [id_a; id_b; id_a])))
  = [["bcdedit"; "/enum"; "{bootmgr}"];
     ["bcdedit"; "/deletevalue"; "{bootmgr}"; "displayorder"];
     ["bcdedit"; "/displayorder"; id_b; id_a; id_a]].
Proof. vm_compute. reflexivity. Qed.

(** A successful template copy is followed by the property commands. *)
Example add_entry_follow_ups :
  add_entry store_tool "Windows 11" (Some "partition=D:") None (Some "")
    (initial [id_a])
  = (Return (Some "{7e9c1f2a-aaaa-bbbb-cccc-0123456789ab}"),
     {| world := [id_a];
        issued :=
          [["bcdedit"; "/copy"; "{current}"; "/d"; "Windows 11"];
           ["bcdedit"; "/set"; "{7e9c1f2a-aaaa-bbbb-cccc-0123456789ab}";
            "device"; "partition=D:"];
           ["bcdedit"; "/set"; "{7e9c1f2a-aaaa-bbbb-cccc-0123456789ab}";
            "osdevice"; "partition=D:"]];
        printed := [] |}).
Proof. vm_compute. reflexivity. Qed.

End Examples.

(** * Further properties of the boot manager *)

(** ** The writers *)

Section Writers.

Import AdvancedBootManager.

Variable W : Type.
Variable tool : list string -> W -> run_outcome * W.

(** X1. Each of the five one-command writers hands exactly one command to the
    tool and never raises; it reports success exactly when the tool could be
    spawned and exited with code 0. *)
Theorem single_command_writers
  (identifier option value filename : string) (s : state W) :
  let verdict argv :=
    match fst (tool argv (world s)) with
    | Completed result => (returncode result =? 0)%Z
    | SpawnFailed _ => false
    end in
  (exists s',
     delete_entry tool identifier s
     = (Return (verdict ["bcdedit"; "/delete"; identifier]), s')
     /\ issued s' = issued s ++ [["bcdedit"; "/delete"; identifier]])
  /\ (exists s',
        modify_entry tool identifier option value s
        = (Return (verdict ["bcdedit"; "/set"; identifier; option; value]), s')
        /\ issued s'
           = issued s ++ [["bcdedit"; "/set"; identifier; option; value]])
  /\ (exists s',
        delete_entry_value tool identifier option s
        = (Return (verdict ["bcdedit"; "/deletevalue"; identifier; option]), s')
        /\ issued s'
           = issued s ++ [["bcdedit"; "/deletevalue"; identifier; option]])
  /\ (exists s',
        export_bcd tool filename s
        = (Return (verdict ["bcdedit"; "/export"; filename]), s')
        /\ issued s' = issued s ++ [["bcdedit"; "/export"; filename]])
  /\ (exists s',
        import_bcd tool filename s
        = (Return (verdict ["bcdedit"; "/import"; filename]), s')
        /\ issued s' = issued s ++ [["bcdedit"; "/import"; filename]]).
Proof.
  intros verdict. subst verdict.
  unfold delete_entry, modify_entry, delete_entry_value, export_bcd, import_bcd.
  unfold_monad.
  repeat split;
    match goal with
    | |- context [tool ?argv (world s)] =>
        destruct (tool argv (world s)) as [[result|e] w]; simpl; eauto
    end.
Qed.

(** X2. [add_ramdisk] issues its three commands whatever their exit codes: a
    command that is rejected does not hold back the ones after it, and the
    result is the conjunction of the three verdicts. *)
Theorem add_ramdisk_applies_all
  (identifier sdi_device sdi_path processor_arch : string) (s : state W)
  r1 w1 r2 w2 r3 w3 :
  tool ["bcdedit"; "/set"; identifier; "ramdisksdidevice"; sdi_device] (world s)
  = (Completed r1, w1) ->
  tool ["bcdedit"; "/set"; identifier; "ramdisksdipath"; sdi_path] w1
  = (Completed r2, w2) ->
  tool ["bcdedit"; "/set"; identifier; "ramdisksdiprocessorarchitecture";
        processor_arch] w2
  = (Completed r3, w3) ->
  add_ramdisk tool identifier sdi_device sdi_path processor_arch s
  = (Return ((returncode r1 =? 0)%Z && (returncode r2 =? 0)%Z
             && (returncode r3 =? 0)%Z),
     {| world := w3;
        issued := issued s
                  ++ [["bcdedit"; "/set"; identifier; "ramdisksdidevice";
                       sdi_device];
                      ["bcdedit"; "/set"; identifier; "ramdisksdipath";
                       sdi_path];
                      ["bcdedit"; "/set"; identifier;
                       "ramdisksdiprocessorarchitecture"; processor_arch]];
        printed := printed s |}).
Proof.
  intros E1 E2 E3. unfold add_ramdisk. unfold_monad.
  rewrite E1. cbn [world issued printed]. rewrite E2.
  cbn [world issued printed]. rewrite E3.
  cbn [world issued printed]. rewrite <- !app_assoc. reflexivity.
Qed.

(** X3. When the tool cannot be spawned for the second command of
    [add_ramdisk], the first one has been applied, the third is never issued,
    and the result is failure. *)
Theorem add_ramdisk_stops_at_spawn_failure
  (identifier sdi_device sdi_path processor_arch : string) (s : state W)
  r1 w1 e w2 :
  tool ["bcdedit"; "/set"; identifier; "ramdisksdidevice"; sdi_device] (world s)
  = (Completed r1, w1) ->
  tool ["bcdedit"; "/set"; identifier; "ramdisksdipath"; sdi_path] w1
  = (SpawnFailed e, w2) ->
  add_ramdisk tool identifier sdi_device sdi_path processor_arch s
  = (Return false,
     {| world := w2;
        issued := issued s
                  ++ [["bcdedit"; "/set"; identifier; "ramdisksdidevice";
                       sdi_device];
                      ["bcdedit"; "/set"; identifier; "ramdisksdipath";
                       sdi_path]];
        printed := printed s ++ [("Error adding ramdisk: " ++ exc_str e)%string] |}).
Proof.
  intros E1 E2. unfold add_ramdisk. unfold_monad.
  rewrite E1. cbn [world issued printed]. rewrite E2.
  cbn [world issued printed]. rewrite <- !app_assoc. reflexivity.
Qed.

(** X4. [remove_ramdisk] reports success as soon as its three commands could be
    spawned: their exit codes are not looked at. *)
Theorem remove_ramdisk_ignores_exit_codes
  (identifier : string) (s : state W) r1 w1 r2 w2 r3 w3 :
  tool ["bcdedit"; "/deletevalue"; identifier; "ramdisksdidevice"] (world s)
  = (Completed r1, w1) ->
  tool ["bcdedit"; "/deletevalue"; identifier; "ramdisksdipath"] w1
  = (Completed r2, w2) ->
  tool ["bcdedit"; "/deletevalue"; identifier;
        "ramdisksdiprocessorarchitecture"] w2
  = (Completed r3, w3) ->
  remove_ramdisk tool identifier s
  = (Return true,
     {| world := w3;
        issued := issued s
                  ++ [["bcdedit"; "/deletevalue"; identifier; "ramdisksdidevice"];
                      ["bcdedit"; "/deletevalue"; identifier; "ramdisksdipath"];
                      ["bcdedit"; "/deletevalue"; identifier;
                       "ramdisksdiprocessorarchitecture"]];
        printed := printed s |}).
Proof.
  intros E1 E2 E3. unfold remove_ramdisk. unfold_monad.
  rewrite E1. cbn [world issued printed]. rewrite E2.
  cbn [world issued printed]. rewrite E3.
  cbn [world issued printed]. rewrite <- !app_assoc. reflexivity.
Qed.

(** X5. With a tool that can be spawned, [enable_kernel_debugging] reports the
    verdict of the debug-on command alone.  The port and baud-rate commands are
    issued exactly when the argument is given and non-empty, also after a
    debug-on command that was rejected, and their verdicts do not reach the
    result. *)
Theorem enable_kernel_debugging_result
  (identifier : string) (port baudrate : option string) (s : state W) :
  reachable tool ->
  exists debug_result w s',
    tool ["bcdedit"; "/set"; identifier; "debug"; "on"] (world s)
    = (Completed debug_result, w)
    /\ enable_kernel_debugging tool identifier port baudrate s
       = (Return (returncode debug_result =? 0)%Z, s')
    /\ issued s'
       = issued s
         ++ ["bcdedit"; "/set"; identifier; "debug"; "on"]
            :: match given port with
               | Some prt => [["bcdedit"; "/set"; identifier; "debugport"; prt]]
               | None => []
               end
            ++ match given baudrate with
               | Some baud =>
                   [["bcdedit"; "/set"; identifier; "debugbaudrate"; baud]]
               | None => []
               end.
Proof.
  intros Hreach. unfold enable_kernel_debugging. unfold_monad.
  destruct (Hreach ["bcdedit"; "/set"; identifier; "debug"; "on"] (world s))
    as (r0 & w0 & E0).
  exists r0, w0. rewrite E0. cbn [world issued printed].
  destruct (given port) as [prt|]; destruct (given baudrate) as [baud|];
    cbn [world issued printed].
  - destruct (Hreach ["bcdedit"; "/set"; identifier; "debugport"; prt] w0)
      as (r1 & w1 & E1). rewrite E1. cbn [world issued printed].
    destruct (negb (returncode r1 =? 0)%Z); cbn [world issued printed];
      destruct (Hreach ["bcdedit"; "/set"; identifier; "debugbaudrate"; baud] w1)
        as (r2 & w2 & E2); rewrite E2; cbn [world issued printed];
      destruct (negb (returncode r2 =? 0)%Z); cbn [world issued printed];
      eexists; (split; [reflexivity|]); split; try reflexivity;
      cbn [issued]; rewrite <- !app_assoc; reflexivity.
  - destruct (Hreach ["bcdedit"; "/set"; identifier; "debugport"; prt] w0)
      as (r1 & w1 & E1). rewrite E1. cbn [world issued printed].
    destruct (negb (returncode r1 =? 0)%Z); cbn [world issued printed];
      eexists; (split; [reflexivity|]); split; try reflexivity;
      cbn [issued]; rewrite <- !app_assoc; reflexivity.
  - destruct (Hreach ["bcdedit"; "/set"; identifier; "debugbaudrate"; baud] w0)
      as (r2 & w2 & E2). rewrite E2. cbn [world issued printed].
    destruct (negb (returncode r2 =? 0)%Z); cbn [world issued printed];
      eexists; (split; [reflexivity|]); split; try reflexivity;
      cbn [issued]; rewrite <- !app_assoc; reflexivity.
  - eexists. split; [reflexivity|]. split; reflexivity.
Qed.

End Writers.

(** ** Multi-step writers *)

Ltac reach_step Hreach :=
  match goal with
  | |- context [let (_, _) := ?tool ?argv ?w in _] =>
      let r := fresh "r" in
      let w' := fresh "w" in
      let E := fresh "E" in
      destruct (Hreach argv w) as (r & w' & E); rewrite E;
      cbn [AdvancedBootManager.world AdvancedBootManager.issued
           AdvancedBootManager.printed]
  end.

Ltac case_exit_code :=
  match goal with
  | |- context [negb (returncode ?r =? 0)%Z] =>
      destruct (negb (returncode r =? 0)%Z);
      cbn [AdvancedBootManager.world AdvancedBootManager.issued
           AdvancedBootManager.printed]
  end.

Section MultiStepWriters.

Import AdvancedBootManager.

Variable W : Type.
Variable tool : list string -> W -> run_outcome * W.

(** X6. [disable_kernel_debugging] reports the verdict of the debug-off
    command; the two clean-up commands are issued after it whatever that
    verdict, and their exit codes are not looked at. *)
Theorem disable_kernel_debugging_result
  (identifier : string) (s : state W) r1 w1 r2 w2 r3 w3 :
  tool ["bcdedit"; "/set"; identifier; "debug"; "off"] (world s)
  = (Completed r1, w1) ->
  tool ["bcdedit"; "/deletevalue"; identifier; "debugport"] w1
  = (Completed r2, w2) ->
  tool ["bcdedit"; "/deletevalue"; identifier; "debugbaudrate"] w2
  = (Completed r3, w3) ->
  disable_kernel_debugging tool identifier s
  = (Return (returncode r1 =? 0)%Z,
     {| world := w3;
        issued := issued s
                  ++ [["bcdedit"; "/set"; identifier; "debug"; "off"];
                      ["bcdedit"; "/deletevalue"; identifier; "debugport"];
                      ["bcdedit"; "/deletevalue"; identifier; "debugbaudrate"]];
        printed := printed s |}).
Proof.
  intros E1 E2 E3. unfold disable_kernel_debugging. unfold_monad.
  rewrite E1. cbn [world issued printed]. rewrite E2.
  cbn [world issued printed]. rewrite E3.
  cbn [world issued printed]. rewrite <- !app_assoc. reflexivity.
Qed.

Lemma search_given (text m : string) :
  IdPattern.search text = Some m -> given (Some m) = Some m.
Proof.
  intros H. destruct (search_some _ H) as ((body & -> & _) & _). reflexivity.
Qed.

(** X7. After a successful template copy, with a tool that can be spawned,
    [add_entry] returns the new identifier whatever the verdicts of the
    follow-up commands, and issues: the device and osdevice commands when a
    device is given, the path command when a path is given, the type command
    when a type is given, in that order. *)
Theorem add_entry_follow_up_commands
  (description : string) (device path type : option string) (s : state W)
  result w new_id :
  reachable tool ->
  tool ["bcdedit"; "/copy"; "{current}"; "/d"; description] (world s)
  = (Completed result, w) ->
  returncode result = 0%Z ->
  IdPattern.search (stdout result) = Some new_id ->
  exists s',
    add_entry tool description device path type s = (Return (Some new_id), s')
    /\ issued s'
       = issued s
         ++ ["bcdedit"; "/copy"; "{current}"; "/d"; description]
            :: match given device with
               | Some dev =>
                   [["bcdedit"; "/set"; new_id; "device"; dev];
                    ["bcdedit"; "/set"; new_id; "osdevice"; dev]]
               | None => []
               end
            ++ match given path with
               | Some pth => [["bcdedit"; "/set"; new_id; "path"; pth]]
               | None => []
               end
            ++ match given type with
               | Some typ => [["bcdedit"; "/set"; new_id; "type"; typ]]
               | None => []
               end.
Proof.
  intros Hreach E Hrc Hid. unfold add_entry. unfold_monad.
  rewrite E. cbn [world issued printed]. rewrite Hrc, Hid. change (negb (0 =? 0)%Z) with false.
  cbv beta iota. cbn [world issued printed].
  destruct (given device) as [dev|]; destruct (given path) as [pth|];
    destruct (given type) as [typ|]; cbn [world issued printed];
    repeat first [reach_step Hreach | case_exit_code];
    eexists; (split; [reflexivity|]); cbn [issued app];
    rewrite <- ?app_assoc; reflexivity.
Qed.

(** X8. When the template copy fails, [create_vhd_boot_entry] returns no
    identifier and issues nothing after the copy command. *)
Theorem create_vhd_copy_failure (description vhd_path : string) (s : state W) :
  copy_failed
    (fst (tool ["bcdedit"; "/copy"; "{current}"; "/d"; description] (world s))) ->
  exists s',
    create_vhd_boot_entry tool description vhd_path s = (Return None, s')
    /\ issued s'
       = issued s ++ [["bcdedit"; "/copy"; "{current}"; "/d"; description]].
Proof.
  unfold create_vhd_boot_entry, add_entry, copy_failed. unfold_monad.
  case_tool; simpl; intros H.
  - destruct (returncode result =? 0)%Z eqn:Hrc; simpl.
    + destruct H as [H|H]; [apply Z.eqb_eq in Hrc; congruence|].
      rewrite H. simpl. eauto.
    + eauto.
  - eauto.
Qed.

Lemma add_entry_bare_copy (description : string) (s : state W) result w new_id :
  tool ["bcdedit"; "/copy"; "{current}"; "/d"; description] (world s)
  = (Completed result, w) ->
  returncode result = 0%Z ->
  IdPattern.search (stdout result) = Some new_id ->
  add_entry tool description None None None s
  = (Return (Some new_id),
     {| world := w;
        issued := issued s
                  ++ [["bcdedit"; "/copy"; "{current}"; "/d"; description]];
        printed := printed s |}).
Proof.
  intros E Hrc Hid. unfold add_entry. unfold_monad.
  rewrite E. cbn [world issued printed]. rewrite Hrc, Hid. reflexivity.
Qed.

(** X9. After a successful copy, [create_vhd_boot_entry] issues the four set
    commands for the virtual disk and returns the new identifier whatever their
    exit codes. *)
Theorem create_vhd_commands
  (description vhd_path : string) (s : state W)
  result w0 new_id r1 w1 r2 w2 r3 w3 r4 w4 :
  tool ["bcdedit"; "/copy"; "{current}"; "/d"; description] (world s)
  = (Completed result, w0) ->
  returncode result = 0%Z ->
  IdPattern.search (stdout result) = Some new_id ->
  tool ["bcdedit"; "/set"; new_id; "device"; ("vhd=[" ++ vhd_path ++ "]")%string]
    w0 = (Completed r1, w1) ->
  tool ["bcdedit"; "/set"; new_id; "osdevice";
        ("vhd=[" ++ vhd_path ++ "]")%string] w1 = (Completed r2, w2) ->
  tool ["bcdedit"; "/set"; new_id; "detecthal"; "yes"] w2
  = (Completed r3, w3) ->
  tool ["bcdedit"; "/set"; new_id; "nx"; "OptIn"] w3 = (Completed r4, w4) ->
  create_vhd_boot_entry tool description vhd_path s
  = (Return (Some new_id),
     {| world := w4;
        issued := issued s
                  ++ [["bcdedit"; "/copy"; "{current}"; "/d"; description];
                      ["bcdedit"; "/set"; new_id; "device";
                       ("vhd=[" ++ vhd_path ++ "]")%string];
                      ["bcdedit"; "/set"; new_id; "osdevice";
                       ("vhd=[" ++ vhd_path ++ "]")%string];
                      ["bcdedit"; "/set"; new_id; "detecthal"; "yes"];
                      ["bcdedit"; "/set"; new_id; "nx"; "OptIn"]];
        printed := printed s |}).
Proof.
  intros E0 Hrc Hid E1 E2 E3 E4.
  unfold create_vhd_boot_entry, bind, try_except.
  rewrite (@add_entry_bare_copy description s result w0 new_id E0 Hrc Hid),
    (search_given _ Hid).
  unfold_monad. cbn [world issued printed]. rewrite E1. cbn [world issued printed].
  rewrite E2. cbn [world issued printed]. rewrite E3.
  cbn [world issued printed]. rewrite E4. cbn [world issued printed].
  rewrite <- !app_assoc. reflexivity.
Qed.

(** X10. When the copy has succeeded and the tool then cannot be spawned for
    the first set command, [create_vhd_boot_entry] returns no identifier
    although the entry has been created. *)
Theorem create_vhd_loses_created_entry
  (description vhd_path : string) (s : state W) result w0 new_id e w1 :
  tool ["bcdedit"; "/copy"; "{current}"; "/d"; description] (world s)
  = (Completed result, w0) ->
  returncode result = 0%Z ->
  IdPattern.search (stdout result) = Some new_id ->
  tool ["bcdedit"; "/set"; new_id; "device"; ("vhd=[" ++ vhd_path ++ "]")%string]
    w0 = (SpawnFailed e, w1) ->
  create_vhd_boot_entry tool description vhd_path s
  = (Return None,
     {| world := w1;
        issued := issued s
                  ++ [["bcdedit"; "/copy"; "{current}"; "/d"; description];
                      ["bcdedit"; "/set"; new_id; "device";
                       ("vhd=[" ++ vhd_path ++ "]")%string]];
        printed := printed s
                   ++ [("Error creating VHD boot entry: " ++ exc_str e)%string] |}).
Proof.
  intros E0 Hrc Hid E1.
  unfold create_vhd_boot_entry, bind, try_except.
  rewrite (@add_entry_bare_copy description s result w0 new_id E0 Hrc Hid),
    (search_given _ Hid).
  unfold_monad. cbn [world issued printed]. rewrite E1. cbn [world issued printed].
  rewrite <- !app_assoc. reflexivity.
Qed.

(** X11. [set_default_entry] issues one command; the remembered default becomes
    the identifier exactly when the result is success and is left as it was
    otherwise. *)
Theorem set_default_entry_remembers
  (identifier : string) (default_entry : option string) (s : state W) :
  exists ok remembered s',
    set_default_entry tool identifier default_entry s
    = (Return (ok, remembered), s')
    /\ issued s' = issued s ++ [["bcdedit"; "/default"; identifier]]
    /\ remembered = (if ok then Some identifier else default_entry)
    /\ ok = match fst (tool ["bcdedit"; "/default"; identifier] (world s)) with
            | Completed result => (returncode result =? 0)%Z
            | SpawnFailed _ => false
            end.
Proof.
  unfold set_default_entry. unfold_monad.
  destruct (tool ["bcdedit"; "/default"; identifier] (world s))
    as [[result|e] w]; simpl.
  - destruct (returncode result =? 0)%Z; simpl; do 3 eexists; repeat split.
  - do 3 eexists. repeat split.
Qed.

End MultiStepWriters.

(** ** More on moving an entry *)

Section MoveInvariants.

Import AdvancedBootManager.

Variable W : Type.
Variable tool : list string -> W -> run_outcome * W.
Variable lang_code : Translation.lang.

Lemma index_of_In (x : string) (l : list string) :
  In x l -> exists i, index_of x l = Some i.
Proof.
  induction l as [|y l IH]; simpl; intros H; [contradiction|].
  destruct (String.eqb_spec y x) as [->|Hne]; [eauto|].
  destruct H as [H|H]; [contradiction|].
  destruct (IH H) as (i & ->). eauto.
Qed.

(** What [set_display_order] adds to the commands issued, whatever the
    tool does. *)
Lemma set_display_order_issued (order : list string) (s : state W) :
  exists ok s' extra,
    set_display_order tool order s = (Return ok, s')
    /\ issued s' = issued s ++ extra
    /\ (extra = [["bcdedit"; "/deletevalue"; "{bootmgr}"; "displayorder"]]
        \/ extra = [["bcdedit"; "/deletevalue"; "{bootmgr}"; "displayorder"];
                    "bcdedit" :: "/displayorder" :: order]).
Proof.
  unfold set_display_order. unfold_monad.
  destruct (tool ["bcdedit"; "/deletevalue"; "{bootmgr}"; "displayorder"]
              (world s)) as [[r|e] w]; cbn [world issued printed].
  - destruct order as [|x order]; cbn [is_empty negb world issued printed].
    + do 3 eexists. split; [reflexivity|]. split; [reflexivity|]. auto.
    + destruct (tool (["bcdedit"; "/displayorder"] ++ x :: order) w)
        as [[r'|e'] w']; cbn [world issued printed];
        do 3 eexists; (split; [reflexivity|]); cbn [issued];
        rewrite <- app_assoc; (split; [reflexivity|right; reflexivity]).
  - do 3 eexists. split; [reflexivity|]. split; [reflexivity|]. auto.
Qed.

(** An identifier found before the last position has a neighbour after
    it. *)
Lemma index_of_split_next (x : string) (l : list string) (i : nat) :
  index_of x l = Some i -> i <> length l - 1 ->
  exists l1 y l2, l = l1 ++ x :: y :: l2 /\ i = length l1 /\ ~ In x l1.
Proof.
  intros H Hi. destruct (index_of_split _ _ H) as (l1 & l2 & -> & Hl & Hn).
  destruct l2 as [|y l2].
  - exfalso. apply Hi. rewrite length_app. simpl. lia.
  - exists l1, y, l2. auto.
Qed.

(** The three ways a move can end once the order has been read. *)
Lemma move_entry_up_cases (identifier : string) (s s0 : state W) order :
  get_display_order tool lang_code s = (Return order, s0) ->
  (exists ok, move_entry_up tool lang_code identifier s = (Return ok, s0))
  \/ exists order',
       Permutation.Permutation order order'
       /\ move_entry_up tool lang_code identifier s
          = set_display_order tool order' s0.
Proof.
  intros Hget.
  destruct (is_empty order || negb (in_list identifier order)) eqn:Hguard.
  - left. exists false. unfold move_entry_up, bind. rewrite Hget, Hguard.
    reflexivity.
  - assert (Hin : In identifier order).
    { apply orb_false_iff in Hguard as [_ Hg].
      apply negb_false_iff in Hg. apply in_list_iff; auto. }
    destruct (index_of_In _ _ Hin) as (i & Hidx).
    destruct i as [|i].
    + left. exists true. eapply move_entry_up_first; eauto.
    + right.
      destruct (@index_of_split_previous W tool identifier order (S i) Hidx
                  (Nat.lt_0_succ i))
        as (l1 & y & l2 & -> & _ & Hn & Hy).
      exists (l1 ++ identifier :: y :: l2). split.
      * apply Permutation.Permutation_app_head. constructor.
      * eapply move_entry_up_swaps; eauto.
Qed.

Lemma move_entry_down_cases (identifier : string) (s s0 : state W) order :
  get_display_order tool lang_code s = (Return order, s0) ->
  (exists ok, move_entry_down tool lang_code identifier s = (Return ok, s0))
  \/ exists order',
       Permutation.Permutation order order'
       /\ move_entry_down tool lang_code identifier s
          = set_display_order tool order' s0.
Proof.
  intros Hget.
  destruct (is_empty order || negb (in_list identifier order)) eqn:Hguard.
  - left. exists false. unfold move_entry_down, bind. rewrite Hget, Hguard.
    reflexivity.
  - assert (Hin : In identifier order).
    { apply orb_false_iff in Hguard as [_ Hg].
      apply negb_false_iff in Hg. apply in_list_iff; auto. }
    destruct (index_of_In _ _ Hin) as (i & Hidx).
    destruct (Nat.eq_dec i (length order - 1)) as [->|Hlast].
    + left. exists true. eapply move_entry_down_last; eauto.
    + right.
      destruct (index_of_split_next _ _ Hidx Hlast)
        as (l1 & y & l2 & -> & _ & Hn).
      exists (l1 ++ y :: identifier :: l2). split.
      * apply Permutation.Permutation_app_head. constructor.
      * eapply move_entry_down_swaps; eauto.
Qed.

(** X12. Neither move raises: the [ValueError] of [list.index] and the
    [IndexError] of the exchange cannot occur.  And whatever the tool does,
    after the read of the order a move issues nothing, or the clear command
    alone, or the clear command and one set-order command whose list is a
    rearrangement of the order read: no other command is issued and no entry
    is dropped or added. *)
Theorem moves_write_a_rearrangement (identifier : string) (s : state W) :
  exists order s0,
    get_display_order tool lang_code s = (Return order, s0)
    /\ forall move,
         move = move_entry_up tool lang_code identifier
         \/ move = move_entry_down tool lang_code identifier ->
         exists ok s' extra,
           move s = (Return ok, s')
           /\ issued s'
              = (issued s ++ [["bcdedit"; "/enum"; "{bootmgr}"]]) ++ extra
           /\ (extra = []
               \/ extra
                  = [["bcdedit"; "/deletevalue"; "{bootmgr}"; "displayorder"]]
               \/ exists l,
                    extra
                    = [["bcdedit"; "/deletevalue"; "{bootmgr}"; "displayorder"];
                       "bcdedit" :: "/displayorder" :: l]
                    /\ Permutation.Permutation order l).
Proof.
  destruct (get_display_order_returns tool lang_code s) as (order & s0 & Hget & Hi & _).
  exists order, s0. split; [exact Hget|].
  intros move Hmove.
  assert (Hcases :
    (exists ok, move s = (Return ok, s0))
    \/ exists order', Permutation.Permutation order order'
                      /\ move s = set_display_order tool order' s0).
  { destruct Hmove as [-> | ->];
      [eapply move_entry_up_cases | eapply move_entry_down_cases]; eauto. }
  destruct Hcases as [(ok & E) | (order' & Hperm & E)].
  - exists ok, s0, []. rewrite E, Hi, app_nil_r.
    split; [reflexivity|]. split; [reflexivity|]. left. reflexivity.
  - destruct (set_display_order_issued order' s0)
      as (ok & s' & extra & Hrun & Hiss & Hextra).
    exists ok, s', extra. rewrite E, Hiss, Hi.
    split; [exact Hrun|]. split; [reflexivity|].
    destruct Hextra as [-> | ->].
    + right. left. reflexivity.
    + right. right. exists order'. split; [reflexivity|exact Hperm].
Qed.

(** X13. The round trip in the other direction.  When the entry after the
    identifier is a different one, with a tool that can be spawned:
    [move_entry_down] writes the order with the two exchanged and, once the
    store shows that order, [move_entry_up] writes the original order back. *)
Theorem move_down_then_up_restores
  (identifier next : string) (s s0 : state W) (order : list string)
  (index : nat) :
  get_display_order tool lang_code s = (Return order, s0) ->
  index_of identifier order = Some index ->
  nth_error order (index + 1) = Some next ->
  next <> identifier ->
  reachable tool ->
  exists order' ok1 s1,
    swap_items index (index + 1) order = Some order'
    /\ move_entry_down tool lang_code identifier s = (Return ok1, s1)
    /\ issued s1
       = issued s0
         ++ [["bcdedit"; "/deletevalue"; "{bootmgr}"; "displayorder"];
             "bcdedit" :: "/displayorder" :: order']
    /\ forall s0',
         get_display_order tool lang_code s1 = (Return order', s0') ->
         exists ok2 s2,
           move_entry_up tool lang_code identifier s1 = (Return ok2, s2)
           /\ issued s2
              = issued s0'
                ++ [["bcdedit"; "/deletevalue"; "{bootmgr}"; "displayorder"];
                    "bcdedit" :: "/displayorder" :: order].
Proof.
  intros Hget Hidx Hnext Hneq Hreach.
  assert (Hlast : index <> length order - 1).
  { assert (index + 1 < length order)
      by (apply nth_error_Some; congruence). lia. }
  destruct (index_of_split_next _ _ Hidx Hlast) as (l1 & y & l2 & -> & -> & Hn).
  assert (y = next).
  { assert (Hy : nth_error (l1 ++ identifier :: y :: l2) (length l1 + 1)
                 = Some y).
    { clear. induction l1 as [|a l1 IH]; [reflexivity|exact IH]. }
    congruence. }
  subst y.
  exists (l1 ++ next :: identifier :: l2).
  destruct (Hreach ["bcdedit"; "/deletevalue"; "{bootmgr}"; "displayorder"]
              (world s0)) as (r1 & w1 & E1).
  destruct (@set_display_order_commands W tool (l1 ++ next :: identifier :: l2)
              s0 r1 w1 E1)
    as (ok1 & s1 & Hrun1 & Hcmd1 & _).
  exists ok1, s1. split; [apply swap_with_next|].
  split; [rewrite (@move_entry_down_swaps W tool lang_code identifier next s s0
                     l1 l2 Hget Hn); exact Hrun1|].
  split.
  { rewrite Hcmd1. destruct l1; reflexivity. }
  intros s0' Hget'.
  destruct (Hreach ["bcdedit"; "/deletevalue"; "{bootmgr}"; "displayorder"]
              (world s0')) as (r2 & w2 & E2).
  destruct (@set_display_order_commands W tool (l1 ++ identifier :: next :: l2)
              s0' r2 w2 E2)
    as (ok2 & s2 & Hrun2 & Hcmd2 & _).
  exists ok2, s2.
  split; [rewrite (@move_entry_up_swaps W tool lang_code identifier next s1 s0'
                     l1 l2 Hget' Hn Hneq); exact Hrun2|].
  rewrite Hcmd2. destruct l1; reflexivity.
Qed.

End MoveInvariants.

(** ** The readers *)

Create HintDb readers.

Section Readers.

Import AdvancedBootManager.

Variable W : Type.
Variable tool : list string -> W -> run_outcome * W.
Variable path_exists : string -> bool.
Variable lang_code : Translation.lang.
Variable int_max_str_digits : nat.

Lemma reads_only_ret {A} (a : A) : reads_only (ret (W := W) a).
Proof.
  intros s. exists a, s, []. rewrite app_nil_r. repeat split. constructor.
Qed.

Lemma reads_only_bind {A B} (c : M W A) (k : A -> M W B) :
  reads_only c -> (forall a, reads_only (k a)) -> reads_only (bind c k).
Proof.
  intros Hc Hk s. unfold bind.
  destruct (Hc s) as (a & s1 & x1 & E1 & I1 & F1). rewrite E1.
  destruct (Hk a s1) as (b & s2 & x2 & E2 & I2 & F2).
  exists b, s2, (x1 ++ x2). split; [exact E2|].
  split; [rewrite I2, I1, app_assoc; reflexivity|].
  apply Forall_app. auto.
Qed.

Lemma reads_only_print (line : string) : reads_only (print (W := W) line).
Proof.
  intros s. do 2 eexists. exists []. split; [reflexivity|].
  simpl. rewrite app_nil_r. split; [reflexivity|constructor].
Qed.

Lemma reads_only_enumerates {A} (c : M W A) : reads_only c -> enumerates c.
Proof.
  intros H s. destruct (H s) as (a & s' & x & E & I & F).
  exists (Return a), s', x. auto.
Qed.

Lemma enumerates_raise {A} (e : py_exception) : enumerates (raise (W := W) (A := A) e).
Proof.
  intros s. exists (Raise e), s, []. rewrite app_nil_r. repeat split. constructor.
Qed.

Lemma enumerates_bind {A B} (c : M W A) (k : A -> M W B) :
  enumerates c -> (forall a, enumerates (k a)) -> enumerates (bind c k).
Proof.
  intros Hc Hk s. unfold bind.
  destruct (Hc s) as (o & s1 & x1 & E1 & I1 & F1). rewrite E1.
  destruct o as [a|e].
  - destruct (Hk a s1) as (o2 & s2 & x2 & E2 & I2 & F2).
    exists o2, s2, (x1 ++ x2). split; [exact E2|].
    split; [rewrite I2, I1, app_assoc; reflexivity|].
    apply Forall_app. auto.
  - exists (Raise e), s1, x1. auto.
Qed.

Lemma enumerates_run (rest : list string) :
  enumerates (subprocess_run tool ("bcdedit" :: "/enum" :: rest)).
Proof.
  intros s. unfold subprocess_run.
  destruct (tool ("bcdedit" :: "/enum" :: rest) (world s)) as [[result|e] w];
    do 2 eexists; exists [("bcdedit" :: "/enum" :: rest)];
    (split; [reflexivity|]); (split; [reflexivity|]);
    constructor; [eexists; reflexivity|constructor|eexists; reflexivity
                 |constructor].
Qed.

(** A body that only enumerates, under a handler that only reads, only
    reads. *)
Lemma reads_only_try {A} (body : M W A) (handler : py_exception -> M W A) :
  enumerates body -> (forall e, reads_only (handler e)) ->
  reads_only (try_except body handler).
Proof.
  intros Hb Hh s. unfold try_except.
  destruct (Hb s) as (o & s1 & x1 & E1 & I1 & F1). rewrite E1.
  destruct o as [a|e].
  - exists a, s1, x1. auto.
  - destruct (Hh e s1) as (a & s2 & x2 & E2 & I2 & F2).
    exists a, s2, (x1 ++ x2). split; [exact E2|].
    split; [rewrite I2, I1, app_assoc; reflexivity|].
    apply Forall_app. auto.
Qed.

Lemma reads_only_handler {A} (line : string) (a : A) :
  reads_only (bind (print (W := W) line) (fun _ => ret a)).
Proof.
  apply reads_only_bind; [apply reads_only_print|intros; apply reads_only_ret].
Qed.

#[local] Hint Resolve reads_only_ret reads_only_print reads_only_handler
  reads_only_enumerates enumerates_raise enumerates_run : readers.

Lemma get_entries_reads_only : reads_only (get_entries tool).
Proof.
  unfold get_entries. apply reads_only_try; [|auto with readers].
  apply enumerates_bind; [auto with readers|]. intros result.
  apply reads_only_enumerates. destruct (nonzero (returncode result)).
  - repeat (apply reads_only_bind; [auto with readers|intros]).
    auto with readers.
  - auto with readers.
Qed.

Lemma get_entry_info_reads_only (identifier : string) :
  reads_only (get_entry_info tool identifier).
Proof.
  unfold get_entry_info. apply reads_only_try; [|auto with readers].
  apply enumerates_bind; [auto with readers|]. intros result.
  apply reads_only_enumerates. destruct (nonzero (returncode result)).
  - apply reads_only_bind; [auto with readers|intros]. auto with readers.
  - auto with readers.
Qed.

Lemma partition_exists_reads_only (device : string) :
  reads_only (partition_exists (W := W) path_exists device).
Proof.
  intros s.
  destruct (startswith "partition=" (lower device)) eqn:Hs.
  - destruct (proj1 (prefix_lower_split _ _) Hs) as (tag & designator & E & Ht).
    rewrite (@partition_exists_value W path_exists device tag designator s E Ht).
    do 2 eexists. exists []. rewrite app_nil_r. repeat split. constructor.
  - unfold partition_exists, try_except. rewrite Hs, andb_false_r.
    do 2 eexists. exists []. rewrite app_nil_r. repeat split. constructor.
Qed.

Lemma int_of_match_enumerates (digits : string) :
  enumerates (int_of_match (W := W) int_max_str_digits digits).
Proof.
  unfold int_of_match.
  destruct ((0 <? int_max_str_digits)
            && (int_max_str_digits <? String.length digits));
    auto with readers.
Qed.

#[local] Hint Resolve get_entries_reads_only get_entry_info_reads_only
  partition_exists_reads_only int_of_match_enumerates : readers.

Ltac reads_only_steps :=
  repeat first
    [ solve [auto with readers]
    | apply reads_only_bind; [solve [auto with readers]|intros]
    | match goal with
      | |- reads_only (match ?x with _ => _ end) => destruct x
      | |- reads_only (if ?x then _ else _) => destruct x
      | |- reads_only (let _ := _ in _) => cbv zeta
      end ].

(** X14. Reading never writes.  Every reader returns without raising, and every
    command it hands to the tool is an enumeration: identifiers, entry dumps
    and accessors, the status evaluators, the display order, the timeout and
    the default entry. *)
Theorem readers_only_enumerate
  (identifier : string) (default_entry : option string) :
  reads_only (get_entries tool)
  /\ reads_only (list_identifiers tool)
  /\ reads_only (get_entry_info tool identifier)
  /\ reads_only (get_entry_description tool lang_code identifier)
  /\ reads_only (get_entry_device tool lang_code identifier)
  /\ reads_only (get_entry_path tool lang_code identifier)
  /\ reads_only (get_entry_type tool lang_code identifier)
  /\ reads_only (check_ramdisk tool identifier)
  /\ reads_only (check_uefi tool identifier)
  /\ reads_only
       (has_missing_path_or_device tool path_exists lang_code identifier)
  /\ reads_only (get_display_order tool lang_code)
  /\ reads_only (get_timeout tool lang_code int_max_str_digits)
  /\ reads_only (get_default_entry tool lang_code default_entry).
Proof.
  repeat split.
  - auto with readers.
  - unfold list_identifiers. reads_only_steps.
  - auto with readers.
  - unfold get_entry_description. reads_only_steps.
  - unfold get_entry_device. reads_only_steps.
  - unfold get_entry_path. reads_only_steps.
  - unfold get_entry_type. reads_only_steps.
  - unfold check_ramdisk. reads_only_steps.
  - unfold check_uefi. reads_only_steps.
  - unfold has_missing_path_or_device.
    apply reads_only_bind; [unfold get_entry_device; reads_only_steps|].
    intros device.
    apply reads_only_bind; [unfold get_entry_path; reads_only_steps|].
    intros path. reads_only_steps.
  - unfold get_display_order. apply reads_only_try; [|auto with readers].
    apply enumerates_bind; [auto with readers|]. intros result.
    apply reads_only_enumerates. reads_only_steps.
  - unfold get_timeout. apply reads_only_try; [|auto with readers].
    apply enumerates_bind; [auto with readers|]. intros result.
    destruct (nonzero (returncode result)); [auto with readers|].
    cbv zeta.
    destruct (ValuePattern.search_key_digits _ (stdout result));
      [auto with readers|].
    destruct (ValuePattern.search_key_digits "timeout" (stdout result));
      auto with readers.
  - unfold get_default_entry. apply reads_only_try; [|auto with readers].
    cbv zeta.
    apply enumerates_bind; [auto with readers|]. intros result.
    apply reads_only_enumerates. reads_only_steps.
Qed.

End Readers.

(** ** What the readers return *)

Section ReaderValues.

Import AdvancedBootManager.

Variable W : Type.
Variable tool : list string -> W -> run_outcome * W.
Variable lang_code : Translation.lang.
Variable int_max_str_digits : nat.

Lemma split_lines_shape (text : string) :
  exists l ls,
    split_lines text = l :: ls
    /\ (exists post, text = (l ++ post)%string)
    /\ forall line, In line ls ->
         exists pre post, text = (pre ++ line ++ post)%string.
Proof.
  induction text as [|c t IH].
  - exists "", []. split; [reflexivity|]. split; [exists ""; reflexivity|].
    intros line [].
  - destruct IH as (l & ls & Hs & (post & Hl) & Hls).
    cbn [split_lines]. rewrite Hs.
    destruct (Ascii.eqb_spec c newline) as [->|Hc].
    + exists "", (l :: ls). split; [reflexivity|].
      split; [exists (String newline t); reflexivity|].
      intros line [<-|Hin].
      * exists (String newline ""), post. simpl. congruence.
      * destruct (Hls _ Hin) as (pre & post' & ->).
        exists (String newline pre), post'. reflexivity.
    + exists (String c l), ls. split; [reflexivity|].
      split; [exists post; simpl; congruence|].
      intros line Hin. destruct (Hls _ Hin) as (pre & post' & ->).
      exists (String c pre), post'. reflexivity.
Qed.

(** A line of [split('\n')] is a piece of the text. *)
Lemma split_lines_piece (text line : string) :
  In line (split_lines text) ->
  exists pre post, text = (pre ++ line ++ post)%string.
Proof.
  destruct (split_lines_shape text) as (l & ls & Hs & (post & Hl) & Hls).
  rewrite Hs. intros [<-|Hin]; [|auto].
  exists "", post. exact Hl.
Qed.

Lemma occurs_in_piece (text pre line post m : string) (i : nat) :
  text = (pre ++ line ++ post)%string -> IdPattern.occurs_at line i m ->
  IdPattern.occurs_at text (String.length pre + i) m.
Proof.
  intros -> (p & q & -> & <-).
  exists (pre ++ p)%string, (q ++ post)%string. split.
  - rewrite !append_assoc. reflexivity.
  - apply length_append.
Qed.

(** What one turn of the display-order loop keeps true of the list. *)
Lemma display_order_step_keeps (P : string -> Prop) (key line : string)
  (acc : list string * bool) :
  (forall m, IdPattern.search line = Some m -> P m) ->
  Forall P (fst acc) ->
  Forall P (fst (display_order_step key acc line)).
Proof.
  intros Hline Hacc. destruct acc as [order section]. unfold display_order_step.
  assert (Hadd : forall m, IdPattern.search line = Some m ->
                   Forall P (order ++ [m])).
  { intros m Hm. apply Forall_app. split; [exact Hacc|].
    constructor; [auto|constructor]. }
  destruct (contains key (lower line) || contains "displayorder" (lower line)).
  - destruct (IdPattern.search line) eqn:Hs; simpl; auto.
  - destruct (section && truthy (strip line)).
    + destruct (IdPattern.search line) eqn:Hs; simpl; auto.
    + destruct (section && negb (truthy (strip line))); exact Hacc.
Qed.

Lemma display_order_fold_keeps (P : string -> Prop) (key : string)
  (lines : list string) : forall acc,
  (forall line m, In line lines -> IdPattern.search line = Some m -> P m) ->
  Forall P (fst acc) ->
  Forall P (fst (fold_left (display_order_step key) lines acc)).
Proof.
  induction lines as [|line lines IH]; intros acc Hlines Hacc; simpl; auto.
  apply IH.
  - intros l m Hin. apply Hlines. right; exact Hin.
  - apply display_order_step_keeps; auto.
    intros m. apply Hlines. left; reflexivity.
Qed.

(** X15. [get_display_order] never raises.  Every element of the order it
    returns is a brace-delimited identifier that occurs in the tool's output,
    and the order is empty when the tool cannot be spawned or exits
    non-zero. *)
Theorem get_display_order_identifiers (s : state W) :
  exists order s',
    get_display_order tool lang_code s = (Return order, s')
    /\ match fst (tool ["bcdedit"; "/enum"; "{bootmgr}"] (world s)) with
       | Completed result =>
           if (returncode result =? 0)%Z then
             Forall (fun m => IdPattern.is_identifier m
                              /\ exists i, IdPattern.occurs_at (stdout result) i m)
               order
           else order = []
       | SpawnFailed _ => order = []
       end.
Proof.
  unfold get_display_order. unfold_monad.
  destruct (tool ["bcdedit"; "/enum"; "{bootmgr}"] (world s)) as [[result|e] w];
    cbn [fst world issued printed].
  - destruct (returncode result =? 0)%Z; cbn [negb].
    + do 2 eexists. split; [reflexivity|].
      apply display_order_fold_keeps; [|constructor].
      intros line m Hin Hm.
      destruct (search_some _ Hm) as (Hi & i & Ho & _).
      split; [exact Hi|].
      destruct (split_lines_piece _ _ Hin) as (pre & post & E).
      eexists. eapply occurs_in_piece; eauto.
    + do 2 eexists. split; reflexivity.
  - do 2 eexists. split; reflexivity.
Qed.

Lemma int_of_digits_nonneg (digits : string) :
  (0 <= ValuePattern.int_of_digits digits)%Z.
Proof.
  unfold ValuePattern.int_of_digits.
  assert (H : forall l acc, (0 <= acc)%Z ->
            (0 <= fold_left
                    (fun a c => (10 * a + Z.of_nat (nat_of_ascii c - 48))%Z)
                    l acc)%Z).
  { induction l as [|c l IH]; intros acc Hacc; cbn [fold_left];
      [exact Hacc|].
    apply IH. pose proof (Nat2Z.is_nonneg (nat_of_ascii c - 48)). lia. }
  apply H. lia.
Qed.

Lemma try_bind_return {A B} (c : M W A) (k : A -> M W B)
  (h : py_exception -> M W B) (s s1 : state W) (a : A) :
  c s = (Return a, s1) ->
  try_except (bind c k) h s = try_except (k a) h s1.
Proof. intros E. unfold try_except, bind. rewrite E. reflexivity. Qed.

Lemma try_bind_raise {A B} (c : M W A) (k : A -> M W B)
  (h : py_exception -> M W B) (s s1 : state W) (e : py_exception) :
  c s = (Raise e, s1) ->
  try_except (bind c k) h s = h e s1.
Proof. intros E. unfold try_except, bind. rewrite E. reflexivity. Qed.

Lemma subprocess_run_completed (argv : list string) (s : state W) result w :
  tool argv (world s) = (Completed result, w) ->
  subprocess_run tool argv s
  = (Return result,
     {| world := w; issued := issued s ++ [argv]; printed := printed s |}).
Proof. intros E. unfold subprocess_run. rewrite E. reflexivity. Qed.

Lemma subprocess_run_failed (argv : list string) (s : state W) e w :
  tool argv (world s) = (SpawnFailed e, w) ->
  subprocess_run tool argv s
  = (Raise e,
     {| world := w; issued := issued s ++ [argv]; printed := printed s |}).
Proof. intros E. unfold subprocess_run. rewrite E. reflexivity. Qed.

(** The conversion of the matched digits under the handler of
    [get_timeout]: the value of the digits, or 30 when [int] refuses
    them. *)
Lemma int_of_match_guarded (digits : string) (s1 : state W) :
  exists seconds s2,
    try_except (int_of_match int_max_str_digits digits)
      (fun e => bind (print ("Error getting timeout: " ++ exc_str e))
                  (fun _ => ret 30%Z)) s1
    = (Return seconds, s2)
    /\ (0 <= seconds)%Z /\ issued s2 = issued s1.
Proof.
  unfold int_of_match.
  destruct ((0 <? int_max_str_digits)
            && (int_max_str_digits <? String.length digits)).
  - do 2 eexists. split; [reflexivity|]. split; [lia|reflexivity].
  - do 2 eexists. split; [reflexivity|].
    split; [apply int_of_digits_nonneg|reflexivity].
Qed.

(** X16. [get_timeout] never fails its caller: it returns without raising, the
    value is never negative, and it is 30 when the tool cannot be spawned,
    exits non-zero, or prints no timeout line. *)
Theorem get_timeout_never_fails (s : state W) :
  exists seconds s',
    get_timeout tool lang_code int_max_str_digits s = (Return seconds, s')
    /\ (0 <= seconds)%Z
    /\ issued s' = issued s ++ [["bcdedit"; "/enum"; "{bootmgr}"]]
    /\ match fst (tool ["bcdedit"; "/enum"; "{bootmgr}"] (world s)) with
       | Completed result =>
           returncode result <> 0%Z
           \/ (ValuePattern.search_key_digits
                 (lower (get_translation lang_code "timeout")) (stdout result)
               = None
               /\ ValuePattern.search_key_digits "timeout" (stdout result)
                  = None) ->
           seconds = 30%Z
       | SpawnFailed _ => seconds = 30%Z
       end.
Proof.
  unfold get_timeout.
  destruct (tool ["bcdedit"; "/enum"; "{bootmgr}"] (world s))
    as [[result|e] w] eqn:E; cbn [fst].
  - pose proof (subprocess_run_completed _ E) as Hrun.
    erewrite try_bind_return by exact Hrun. clear Hrun.
    unfold nonzero.
    destruct (returncode result =? 0)%Z eqn:Hrc; cbn [negb].
    + cbv zeta.
      destruct (ValuePattern.search_key_digits
                  (lower (get_translation lang_code "timeout")) (stdout result))
        as [digits|] eqn:H1.
      * destruct (int_of_match_guarded digits
                    {| world := w;
                       issued := issued s ++ [["bcdedit"; "/enum"; "{bootmgr}"]];
                       printed := printed s |})
          as (n & s2 & En & Hn & Hi).
        exists n, s2. split; [exact En|]. split; [exact Hn|].
        split; [exact Hi|].
        intros [Hne | [Habs _]]; [apply Z.eqb_eq in Hrc; contradiction|].
        discriminate Habs.
      * destruct (ValuePattern.search_key_digits "timeout" (stdout result))
          as [digits|] eqn:H2.
        -- destruct (int_of_match_guarded digits
                       {| world := w;
                          issued := issued s
                                    ++ [["bcdedit"; "/enum"; "{bootmgr}"]];
                          printed := printed s |})
             as (n & s2 & En & Hn & Hi).
           exists n, s2. split; [exact En|]. split; [exact Hn|].
           split; [exact Hi|].
           intros [Hne | [_ Habs]]; [apply Z.eqb_eq in Hrc; contradiction|].
           discriminate Habs.
        -- do 2 eexists. split; [reflexivity|]. split; [lia|].
           split; reflexivity.
    + do 2 eexists. split; [reflexivity|]. split; [lia|]. split; reflexivity.
  - pose proof (subprocess_run_failed _ E) as Hrun.
    erewrite try_bind_raise by exact Hrun.
    do 2 eexists. split; [reflexivity|]. split; [lia|]. split; reflexivity.
Qed.

(** *** Decimal numerals *)

Lemma digits_fold_pos (u : Decimal.uint) : forall p : positive,
  fold_left (fun acc c => (10 * acc + Z.of_nat (nat_of_ascii c - 48))%Z)
    (list_ascii_of_string (NilEmpty.string_of_uint u)) (Z.pos p)
  = Z.pos (Pos.of_uint_acc u p).
Proof.
  induction u; intros p; cbn [NilEmpty.string_of_uint list_ascii_of_string
                               fold_left Pos.of_uint_acc];
    try reflexivity;
    rewrite <- IHu; f_equal;
    match goal with
    | |- context [Z.of_nat ?n] =>
        let v := eval vm_compute in (Z.of_nat n) in
        change (Z.of_nat n) with v
    end; lia.
Qed.

Lemma digits_fold_zero (u : Decimal.uint) :
  fold_left (fun acc c => (10 * acc + Z.of_nat (nat_of_ascii c - 48))%Z)
    (list_ascii_of_string (NilEmpty.string_of_uint u)) 0%Z
  = Z.of_N (Pos.of_uint u).
Proof.
  induction u; cbn [NilEmpty.string_of_uint list_ascii_of_string fold_left
                    Pos.of_uint];
    try reflexivity; try exact IHu;
    match goal with
    | |- fold_left _ _ ?acc = _ =>
        let v := eval vm_compute in acc in change acc with v
    end;
    rewrite digits_fold_pos; reflexivity.
Qed.

(** [int] reads back what [str] wrote for a number that is not
    negative. *)
Lemma int_of_digits_str (n : Z) :
  (0 <= n)%Z -> ValuePattern.int_of_digits (str_of_Z n) = n.
Proof.
  intros Hn. unfold ValuePattern.int_of_digits, str_of_Z.
  destruct n as [|p|p]; [reflexivity| |lia].
  cbn [Z.to_int NilZero.string_of_int NilZero.string_of_uint].
  pose proof (DecimalPos.Unsigned.to_uint_nonnil p) as Hnil.
  assert (Hs : NilZero.string_of_uint (Pos.to_uint p)
               = NilEmpty.string_of_uint (Pos.to_uint p))
    by (destruct (Pos.to_uint p); [congruence|reflexivity..]).
  rewrite Hs, digits_fold_zero, DecimalPos.Unsigned.of_to. reflexivity.
Qed.

(** X17. The timeout round trip.  When the first timeout line of the boot
    manager record carries the numeral that [set_timeout] sends for a number
    that is not negative, and [int] accepts its length, [get_timeout] returns
    that number. *)
Theorem get_timeout_reads_numeral
  (seconds : Z) (s : state W) result w :
  (0 <= seconds)%Z ->
  tool ["bcdedit"; "/enum"; "{bootmgr}"] (world s) = (Completed result, w) ->
  returncode result = 0%Z ->
  ValuePattern.search_key_digits
    (lower (get_translation lang_code "timeout")) (stdout result)
  = Some (str_of_Z seconds) ->
  int_max_str_digits = 0
  \/ String.length (str_of_Z seconds) <= int_max_str_digits ->
  get_timeout tool lang_code int_max_str_digits s
  = (Return seconds,
     {| world := w;
        issued := issued s ++ [["bcdedit"; "/enum"; "{bootmgr}"]];
        printed := printed s |}).
Proof.
  intros Hn E Hrc Hsearch Hlen. unfold get_timeout.
  pose proof (subprocess_run_completed _ E) as Hrun.
  erewrite try_bind_return by exact Hrun. clear Hrun.
  unfold nonzero. rewrite Hrc. cbn [Z.eqb negb]. cbv zeta. rewrite Hsearch.
  unfold int_of_match.
  assert (Hok : (0 <? int_max_str_digits)
                && (int_max_str_digits <? String.length (str_of_Z seconds))
                = false).
  { destruct Hlen as [-> | Hle]; [reflexivity|].
    apply andb_false_iff. right. apply Nat.ltb_ge. exact Hle. }
  rewrite Hok. unfold try_except, ret. rewrite (int_of_digits_str Hn).
  reflexivity.
Qed.

(** *** The default entry *)

Lemma word_then_sound (stop : ascii) (s g r : string) :
  ValuePattern.word_then stop s = Some (g, r) ->
  exists word, is_word word /\ g = (word ++ String stop "")%string.
Proof.
  unfold ValuePattern.word_then.
  destruct (span ValuePattern.is_word_char s) as [word rest] eqn:Hs.
  destruct word as [|c word]; [discriminate|].
  destruct rest as [|d rest]; [discriminate|].
  destruct (Ascii.eqb_spec d stop); [subst|discriminate].
  intros H; inversion H; subst.
  destruct (span_spec _ _ Hs) as (_ & Hall & _).
  exists (String c word). split; [split; [discriminate|exact Hall]|reflexivity].
Qed.

Lemma match_guid_sound (s g r : string) :
  ValuePattern.match_guid s = Some (g, r) -> is_guid g.
Proof.
  unfold ValuePattern.match_guid. destruct s as [|c t]; [discriminate|].
  destruct (Ascii.eqb_spec c "{"); [subst|discriminate].
  destruct (ValuePattern.word_then "-" t) as [[g1 t1]|] eqn:H1; [|discriminate].
  destruct (ValuePattern.word_then "-" t1) as [[g2 t2]|] eqn:H2; [|discriminate].
  destruct (ValuePattern.word_then "-" t2) as [[g3 t3]|] eqn:H3; [|discriminate].
  destruct (ValuePattern.word_then "-" t3) as [[g4 t4]|] eqn:H4; [|discriminate].
  destruct (ValuePattern.word_then "}" t4) as [[g5 t5]|] eqn:H5; [|discriminate].
  intros H; inversion H; subst.
  destruct (word_then_sound _ _ H1) as (w1 & Hw1 & ->).
  destruct (word_then_sound _ _ H2) as (w2 & Hw2 & ->).
  destruct (word_then_sound _ _ H3) as (w3 & Hw3 & ->).
  destruct (word_then_sound _ _ H4) as (w4 & Hw4 & ->).
  destruct (word_then_sound _ _ H5) as (w5 & Hw5 & ->).
  exists w1, w2, w3, w4, w5. repeat (split; [assumption|]).
  simpl. rewrite !append_assoc. reflexivity.
Qed.

Lemma search_key_guid_sound (key s g : string) :
  ValuePattern.search_key_guid key s = Some g -> is_guid g.
Proof.
  induction s as [|c t IH]; cbn [ValuePattern.search_key_guid].
  - destruct (ValuePattern.match_key_guid key "") as [g0|] eqn:Hm; [|discriminate].
    intros H; inversion H; subst. revert Hm. unfold ValuePattern.match_key_guid.
    destruct (LinePattern.match_literal key ""); [|discriminate].
    destruct (span isspace s) as [[|? ?] r]; [discriminate|].
    destruct (ValuePattern.match_guid r) as [[g1 r1]|] eqn:Hg; [|discriminate].
    intros H'; inversion H'; subst. eapply match_guid_sound; eauto.
  - destruct (ValuePattern.match_key_guid key (String c t)) as [g0|] eqn:Hm;
      [|exact IH].
    intros H; inversion H; subst. revert Hm. unfold ValuePattern.match_key_guid.
    destruct (LinePattern.match_literal key (String c t)); [|discriminate].
    destruct (span isspace s) as [[|? ?] r]; [discriminate|].
    destruct (ValuePattern.match_guid r) as [[g1 r1]|] eqn:Hg; [|discriminate].
    intros H'; inversion H'; subst. eapply match_guid_sound; eauto.
Qed.

(** X18. [get_default_entry] never raises.  An identifier it returns has the
    five-word shape of the default pattern and is remembered as the default;
    when it returns nothing the remembered default is left as it was.  A
    boot-manager query that exits non-zero is followed by the full enumeration;
    one that cannot be spawned ends the search at once. *)
Theorem get_default_entry_result
  (default_entry : option string) (s : state W) :
  exists value remembered s',
    get_default_entry tool lang_code default_entry s
    = (Return (value, remembered), s')
    /\ match value with
       | Some id => remembered = Some id /\ is_guid id
       | None => remembered = default_entry
       end
    /\ match fst (tool ["bcdedit"; "/enum"; "{bootmgr}"] (world s)) with
       | Completed result =>
           returncode result <> 0%Z ->
           issued s'
           = issued s
             ++ [["bcdedit"; "/enum"; "{bootmgr}"]; ["bcdedit"; "/enum"; "/v"]]
       | SpawnFailed _ =>
           value = None
           /\ issued s' = issued s ++ [["bcdedit"; "/enum"; "{bootmgr}"]]
       end.
Proof.
  unfold get_default_entry, get_entries. unfold_monad. cbv zeta.
  destruct (tool ["bcdedit"; "/enum"; "{bootmgr}"] (world s))
    as [[result|e] w]; cbn [fst world issued printed].
  - destruct (returncode result =? 0)%Z eqn:Hrc.
    + destruct (ValuePattern.search_key_guid
                  (lower (get_translation lang_code "default")) (stdout result))
        as [id|] eqn:Hid.
      * do 3 eexists. split; [reflexivity|].
        split; [split; [reflexivity|eapply search_key_guid_sound; eauto]|].
        intros Hne. apply Z.eqb_eq in Hrc. contradiction.
      * cbn [world issued printed].
        destruct (tool ["bcdedit"; "/enum"; "/v"] w) as [[all|e2] w2];
          cbn [fst world issued printed].
        -- destruct (returncode all =? 0)%Z; cbn [negb world issued printed].
           ++ destruct (falsy (Some (stdout all)));
                [do 3 eexists; split; [reflexivity|]; split; [reflexivity|];
                 intros Hne; apply Z.eqb_eq in Hrc; contradiction|].
              destruct (find _ (ValuePattern.split_sections false (stdout all)))
                as [section|];
                [|do 3 eexists; split; [reflexivity|]; split; [reflexivity|];
                  intros Hne; apply Z.eqb_eq in Hrc; contradiction].
              destruct (truthy section);
                [|do 3 eexists; split; [reflexivity|]; split; [reflexivity|];
                  intros Hne; apply Z.eqb_eq in Hrc; contradiction].
              destruct (ValuePattern.search_key_guid
                          (lower (get_translation lang_code "default")) section)
                as [id|] eqn:Hid2.
              ** do 3 eexists. split; [reflexivity|].
                 split; [split; [reflexivity
                                |eapply search_key_guid_sound; eauto]|].
                 intros Hne. apply Z.eqb_eq in Hrc. contradiction.
              ** do 3 eexists. split; [reflexivity|]. split; [reflexivity|].
                 intros Hne. apply Z.eqb_eq in Hrc. contradiction.
           ++ do 3 eexists. split; [reflexivity|]. split; [reflexivity|].
              intros Hne. apply Z.eqb_eq in Hrc. contradiction.
        -- do 3 eexists. split; [reflexivity|]. split; [reflexivity|].
           intros Hne. apply Z.eqb_eq in Hrc. contradiction.
    + cbn [world issued printed].
      destruct (tool ["bcdedit"; "/enum"; "/v"] w) as [[all|e2] w2];
        cbn [fst world issued printed].
      * destruct (returncode all =? 0)%Z; cbn [negb world issued printed].
        -- destruct (falsy (Some (stdout all)));
             [do 3 eexists; split; [reflexivity|]; split; [reflexivity|];
              intros _; cbn [issued]; rewrite <- app_assoc; reflexivity|].
           destruct (find _ (ValuePattern.split_sections false (stdout all)))
             as [section|];
             [|do 3 eexists; split; [reflexivity|]; split; [reflexivity|];
               intros _; cbn [issued]; rewrite <- app_assoc; reflexivity].
           destruct (truthy section);
             [|do 3 eexists; split; [reflexivity|]; split; [reflexivity|];
               intros _; cbn [issued]; rewrite <- app_assoc; reflexivity].
           destruct (ValuePattern.search_key_guid
                       (lower (get_translation lang_code "default")) section)
             as [id|] eqn:Hid2.
           ++ do 3 eexists. split; [reflexivity|].
              split; [split; [reflexivity|eapply search_key_guid_sound; eauto]|].
              intros _. cbn [issued]. rewrite <- app_assoc. reflexivity.
           ++ do 3 eexists. split; [reflexivity|]. split; [reflexivity|].
              intros _. cbn [issued]. rewrite <- app_assoc. reflexivity.
        -- do 3 eexists. split; [reflexivity|]. split; [reflexivity|].
           intros _. cbn [issued]. rewrite <- app_assoc. reflexivity.
      * do 3 eexists. split; [reflexivity|]. split; [reflexivity|].
        intros _. cbn [issued]. rewrite <- app_assoc. reflexivity.
  - do 3 eexists. split; [reflexivity|]. split; [reflexivity|].
    split; reflexivity.
Qed.

End ReaderValues.

(** ** The parsed properties *)

Unset Implicit Arguments.

Section ParsedProperties.

Import AdvancedBootManager.

Lemma lower_char_idempotent (c : ascii) :
  lower_char (lower_char c) = lower_char c.
Proof. destruct c as [[] [] [] [] [] [] [] []]; reflexivity. Qed.

Lemma isspace_lower_char (c : ascii) : isspace (lower_char c) = isspace c.
Proof. destruct c as [[] [] [] [] [] [] [] []]; reflexivity. Qed.

Lemma lower_idempotent (s : string) : lower (lower s) = lower s.
Proof.
  induction s as [|c s IH]; simpl; [reflexivity|].
  rewrite lower_char_idempotent, IH. reflexivity.
Qed.

Lemma lower_keeps_nonspace (s : string) :
  forallb_str (fun c => negb (isspace c)) s = true ->
  forallb_str (fun c => negb (isspace c)) (lower s) = true.
Proof.
  induction s as [|c s IH]; simpl; [auto|].
  rewrite isspace_lower_char. intros H.
  apply andb_true_iff in H as [Hc Hs]. rewrite Hc, (IH Hs). reflexivity.
Qed.

Lemma rstrip_nonspace_head (c : ascii) (t : string) :
  isspace c = false -> rstrip (String c t) = String c (rstrip t).
Proof.
  intros Hc. cbn [rstrip]. destruct (rstrip t); [rewrite Hc|]; reflexivity.
Qed.

Lemma rstrip_idempotent (s : string) : rstrip (rstrip s) = rstrip s.
Proof.
  induction s as [|c t IH]; [reflexivity|].
  cbn [rstrip]. destruct (rstrip t) as [|d r] eqn:Hr.
  - destruct (isspace c) eqn:Hc; [reflexivity|].
    cbn [rstrip]. rewrite Hc. reflexivity.
  - cbn [rstrip]. cbn [rstrip] in IH. 
    destruct (rstrip r) as [|d' r'] eqn:Hr'.
    + destruct (isspace d) eqn:Hd; [discriminate IH|]. rewrite IH.
      reflexivity.
    + rewrite IH. reflexivity.
Qed.

Lemma lstrip_head (s : string) :
  match lstrip s with
  | "" => True
  | String c _ => isspace c = false
  end.
Proof.
  unfold lstrip. destruct (span isspace s) as [a b] eqn:Hs.
  destruct (span_spec _ _ Hs) as (_ & _ & H). exact H.
Qed.

Lemma lstrip_nonspace_head (c : ascii) (t : string) :
  isspace c = false -> lstrip (String c t) = String c t.
Proof. intros Hc. unfold lstrip. simpl. rewrite Hc. reflexivity. Qed.

(** [strip] of a stripped string changes nothing. *)
Lemma strip_idempotent (s : string) : strip (strip s) = strip s.
Proof.
  unfold strip. pose proof (lstrip_head s) as H.
  destruct (lstrip s) as [|c t]; [reflexivity|].
  rewrite (rstrip_nonspace_head c t H), (lstrip_nonspace_head c _ H).
  rewrite <- (rstrip_nonspace_head c t H), rstrip_idempotent. reflexivity.
Qed.

Lemma strip_nonspace_head (c : ascii) (t : string) :
  isspace c = false -> strip (String c t) <> "".
Proof.
  intros Hc. unfold strip.
  rewrite (lstrip_nonspace_head c t Hc), (rstrip_nonspace_head c t Hc).
  discriminate.
Qed.

Lemma rstrip_nonspace_last (s : string) (c : ascii) :
  isspace c = false -> rstrip (s ++ String c "") = (s ++ String c "")%string.
Proof.
  intros Hc. induction s as [|d s IH]; cbn [append rstrip].
  - rewrite Hc. reflexivity.
  - rewrite IH. destruct s; reflexivity.
Qed.

Lemma strip_identifier (m : string) : IdPattern.is_identifier m -> strip m = m.
Proof.
  intros (body & -> & _). unfold strip.
  rewrite lstrip_nonspace_head by reflexivity.
  change (String "{" (body ++ "}")) with ((String "{" body) ++ String "}" "")%string.
  apply rstrip_nonspace_last. reflexivity.
Qed.

(** An assignment keeps the keys distinct and adds at most its own
    binding. *)
Lemma dict_set_NoDup (k v : string) (d : Dict.t) :
  NoDup (map fst d) -> NoDup (map fst (Dict.set k v d)).
Proof.
  induction d as [|[k' v'] d IH]; simpl; intros H.
  - constructor; [intros []|constructor].
  - inversion H as [|? ? Hk Hd]; subst.
    destruct (String.eqb_spec k' k) as [->|Hne]; simpl.
    + constructor; auto.
    + constructor; [|auto].
      intros Hin. apply Hk. clear - Hin Hne.
      induction d as [|[k2 v2] d IHd]; simpl in *.
      * destruct Hin as [E|[]]. congruence.
      * destruct (String.eqb_spec k2 k) as [->|Hne2]; simpl in Hin; [exact Hin|].
        destruct Hin as [E|Hin]; [left; exact E|right; auto].
Qed.

Lemma dict_set_In (k v k' v' : string) (d : Dict.t) :
  In (k', v') (Dict.set k v d) -> (k' = k /\ v' = v) \/ In (k', v') d.
Proof.
  induction d as [|[k2 v2] d IH]; simpl.
  - intros [E|[]]. inversion E; auto.
  - destruct (String.eqb_spec k2 k) as [->|Hne]; simpl.
    + intros [E|H]; [inversion E; auto|auto].
    + intros [E|H]; [auto|]. destruct (IH H); auto.
Qed.

(** X19. The parsed mapping is well formed: its keys are distinct, non-empty,
    lower case and free of white space; its values are non-empty and carry no
    white space at either end. *)
Theorem parse_entry_properties_well_formed (entry_info : string) :
  NoDup (map fst (parse_entry_properties entry_info))
  /\ forall key value,
       In (key, value) (parse_entry_properties entry_info) ->
       key <> "" /\ lower key = key
       /\ forallb_str (fun c => negb (isspace c)) key = true
       /\ value <> "" /\ strip value = value.
Proof.
  set (good := fun kv : string * string =>
                 fst kv <> "" /\ lower (fst kv) = fst kv
                 /\ forallb_str (fun c => negb (isspace c)) (fst kv) = true
                 /\ snd kv <> "" /\ strip (snd kv) = snd kv).
  assert (Hset : forall k v d,
            good (k, v) -> NoDup (map fst d) /\ Forall good d ->
            NoDup (map fst (Dict.set k v d)) /\ Forall good (Dict.set k v d)).
  { intros k v d Hkv [Hn Hg]. split; [apply dict_set_NoDup; exact Hn|].
    apply Forall_forall. intros [k' v'] Hin.
    apply dict_set_In in Hin as [[-> ->]|Hin]; [exact Hkv|].
    rewrite Forall_forall in Hg. auto. }
  assert (Hline : forall d line,
            NoDup (map fst d) /\ Forall good d ->
            NoDup (map fst (parse_line d line))
            /\ Forall good (parse_line d line)).
  { intros d line Hd. unfold parse_line, LinePattern.match_property.
    destruct (span (fun c => negb (isspace c)) (lstrip (strip line)))
      as [key s2] eqn:Hk.
    destruct key as [|k key]; [exact Hd|].
    destruct (span isspace s2) as [ws value] eqn:Hv.
    destruct ws as [|w ws]; [exact Hd|].
    destruct value as [|v value]; [exact Hd|].
    apply Hset; [|exact Hd].
    destruct (span_spec _ _ Hk) as (_ & Hkey & _).
    destruct (span_spec _ _ Hv) as (_ & _ & Hhead).
    unfold good; cbn [fst snd]. split; [discriminate|].
    split; [apply lower_idempotent|].
    split; [apply lower_keeps_nonspace; exact Hkey|].
    split; [apply strip_nonspace_head; exact Hhead|apply strip_idempotent]. }
  assert (Hfold : forall lines d,
            NoDup (map fst d) /\ Forall good d ->
            NoDup (map fst (fold_left parse_line lines d))
            /\ Forall good (fold_left parse_line lines d)).
  { induction lines as [|line lines IH]; intros d Hd; simpl; auto. }
  assert (Hall : NoDup (map fst (parse_entry_properties entry_info))
                 /\ Forall good (parse_entry_properties entry_info)).
  { unfold parse_entry_properties.
    destruct (negb (truthy entry_info)); [split; constructor|].
    assert (Hbase : NoDup (map fst (fold_left parse_line
                                      (split_lines entry_info) Dict.empty))
                    /\ Forall good (fold_left parse_line
                                      (split_lines entry_info) Dict.empty))
      by (apply Hfold; split; constructor).
    destruct (IdPattern.search entry_info) as [id|] eqn:Hs; [|exact Hbase].
    apply Hset; [|exact Hbase].
    destruct (search_some _ Hs) as (Hid & _).
    unfold good; cbn [fst snd]. split; [discriminate|].
    split; [reflexivity|]. split; [reflexivity|].
    split; [destruct Hid as (body & -> & _); discriminate
           |apply strip_identifier; exact Hid]. }
  destruct Hall as [Hn Hg]. split; [exact Hn|].
  intros key value Hin. rewrite Forall_forall in Hg. exact (Hg _ Hin).
Qed.

(** [search] is the head of [findall]. *)
Lemma search_head_findall (s : string) :
  IdPattern.search s = hd_error (IdPattern.findall s).
Proof.
  unfold IdPattern.findall.
  induction s as [|c t IH]; [reflexivity|].
  cbn [IdPattern.search IdPattern.findall_from].
  destruct (IdPattern.match_here (String c t)) as [[m r]|]; [reflexivity|exact IH].
Qed.

Lemma unique_loop_extends (l : list string) : forall acc,
  exists ext, unique_loop l acc = acc ++ ext.
Proof.
  induction l as [|x l IH]; intros acc; simpl.
  - exists []. rewrite app_nil_r. reflexivity.
  - destruct (in_list x acc); [apply IH|].
    destruct (IH (acc ++ [x])) as (ext & ->).
    exists (x :: ext). rewrite <- app_assoc. reflexivity.
Qed.

Lemma unique_loop_head (l : list string) :
  hd_error (unique_loop l []) = hd_error l.
Proof.
  destruct l as [|x l]; [reflexivity|]. simpl.
  destruct (unique_loop_extends l [x]) as (ext & ->). reflexivity.
Qed.

(** X20. The two extraction paths agree: on one and the same text, the first
    identifier [list_identifiers] reports is the one [parse_entry_properties]
    binds to the key [identifier]. *)
Theorem first_listed_identifier_is_bound
  (W : Type) (tool : list string -> W -> run_outcome * W)
  (s s' : state W) (ids : list string) (first : string) result w :
  tool ["bcdedit"; "/enum"; "/v"] (world s) = (Completed result, w) ->
  returncode result = 0%Z ->
  list_identifiers tool s = (Return ids, s') ->
  hd_error ids = Some first ->
  Dict.get "identifier" (parse_entry_properties (stdout result)) = Some first.
Proof.
  intros E Hrc Hl Hhd.
  destruct (list_identifiers_value tool s) as (s1 & Hv).
  rewrite Hv in Hl. rewrite E in Hl. cbn [fst] in Hl. rewrite Hrc in Hl.
  cbn [Z.eqb] in Hl. inversion Hl; subst ids. clear Hl.
  rewrite unique_loop_head, <- search_head_findall in Hhd.
  apply parse_entry_identifier_search. exact Hhd.
Qed.

End ParsedProperties.

(** ** The accessors *)

Section Accessors.

Import AdvancedBootManager.

Variable W : Type.
Variable tool : list string -> W -> run_outcome * W.
Variable path_exists : string -> bool.
Variable lang_code : Translation.lang.

Lemma lookup_property_or_stripped
  (default key1 key2 : string) (hit : string -> bool) (info : string) :
  strip default = default ->
  strip (lookup_property_or default key1 key2 hit info)
  = lookup_property_or default key1 key2 hit info.
Proof.
  intros Hd. unfold lookup_property_or.
  destruct (LinePattern.search_key_value key1 info);
    [apply strip_idempotent|].
  destruct (LinePattern.search_key_value key2 info);
    [apply strip_idempotent|].
  destruct (find _ (parse_entry_properties info)) as [[k v]|] eqn:Hf;
    [|exact Hd].
  apply find_some in Hf as [Hin _].
  apply (parse_entry_properties_well_formed info) in Hin. apply Hin.
Qed.

Lemma lookup_property_default (key1 key2 : string) (hit : string -> bool)
  (info : string) :
  lookup_property key1 key2 hit info
  = lookup_property_or "" key1 key2 hit info.
Proof. reflexivity. Qed.

(** X21. The four accessors return without raising, and what they return
    carries no white space at either end, whichever of the three tiers found
    the value. *)
Theorem accessors_return_stripped (identifier : string) (s : state W) :
  (exists v s', get_entry_description tool lang_code identifier s = (Return v, s')
                /\ strip v = v)
  /\ (exists v s', get_entry_device tool lang_code identifier s = (Return v, s')
                   /\ strip v = v)
  /\ (exists v s', get_entry_path tool lang_code identifier s = (Return v, s')
                   /\ strip v = v)
  /\ (exists v s', get_entry_type tool lang_code identifier s = (Return v, s')
                   /\ strip v = v).
Proof.
  destruct (get_entry_info_returns tool identifier s) as (info & s1 & E).
  unfold get_entry_description, get_entry_device, get_entry_path,
    get_entry_type, bind. rewrite E.
  destruct info as [text|]; [destruct (falsy (Some text))|];
    unfold ret; repeat split; do 2 eexists;
    (split; [reflexivity|]);
    first [reflexivity
          | rewrite lookup_property_default;
            apply lookup_property_or_stripped; reflexivity
          | apply lookup_property_or_stripped; reflexivity].
Qed.

(** X22. When the dump of an identifier cannot be fetched, the description and
    the type are the sentinel ["Unknown"]. *)
Theorem description_and_type_without_dump (identifier : string) (s : state W) :
  no_dump (fst (tool ["bcdedit"; "/enum"; identifier; "/v"] (world s))) ->
  exists s',
    get_entry_description tool lang_code identifier s = (Return "Unknown", s')
    /\ get_entry_type tool lang_code identifier s = (Return "Unknown", s').
Proof.
  intros H.
  destruct (get_entry_info_no_dump tool identifier s H) as (info & s1 & E & Hinfo).
  exists s1. unfold get_entry_description, get_entry_type, bind. rewrite E.
  destruct Hinfo as [-> | ->]; split; reflexivity.
Qed.

Lemma endswith_append (suf s : string) : endswith suf (s ++ suf) = true.
Proof.
  induction s as [|c s IH]; cbn [append].
  - destruct suf; cbn [endswith]; rewrite string_eqb_refl; reflexivity.
  - cbn [endswith]. rewrite IH. apply orb_true_r.
Qed.

Lemma as_root_ends_with_backslash (partition : string) :
  endswith "\" (as_root partition) = true.
Proof.
  unfold as_root. destruct (endswith "\" partition) eqn:H; cbn [negb].
  - exact H.
  - apply endswith_append.
Qed.

(** X23. [partition_exists] never raises and prints nothing: the [IndexError]
    of the split cannot occur.  A device that does not start with the partition
    tag counts as existing; for one that does, the path probed is what follows
    the tag, and always ends with a backslash. *)
Theorem partition_exists_probe (device : string) (s : state W) :
  exists there,
    partition_exists path_exists device s = (Return there, s)
    /\ (startswith "partition=" (lower device) = false -> there = true)
    /\ forall tag designator,
         device = (tag ++ designator)%string -> lower tag = "partition=" ->
         there = path_exists (as_root designator)
         /\ endswith "\" (as_root designator) = true.
Proof.
  destruct (startswith "partition=" (lower device)) eqn:Hs.
  - destruct (proj1 (prefix_lower_split _ _) Hs) as (tag & designator & E & Ht).
    exists (path_exists (as_root designator)).
    split; [apply (@partition_exists_value W path_exists device tag designator
                     s E Ht)|].
    split; [discriminate|].
    intros tag' designator' E' Ht'.
    assert (designator' = designator).
    { pose proof (after_first_partition_tag tag designator Ht) as A1.
      pose proof (after_first_partition_tag tag' designator' Ht') as A2.
      rewrite <- E in A1. rewrite <- E' in A2. congruence. }
    subst. split; [reflexivity|apply as_root_ends_with_backslash].
  - exists true. unfold partition_exists, try_except. rewrite Hs, andb_false_r.
    split; [reflexivity|]. split; [reflexivity|].
    intros tag designator E Ht. exfalso.
    assert (startswith "partition=" (lower device) = true)
      by (apply prefix_lower_split; eauto).
    congruence.
Qed.

End Accessors.

(** ** Locale and translation *)

Section Locale.

Import Translation.

Lemma prefix_cons (a b : ascii) (p s : string) :
  String.prefix (String a p) (String b s) = true ->
  a = b /\ String.prefix p s = true.
Proof.
  cbn [String.prefix]. destruct (ascii_dec a b); [auto|discriminate].
Qed.

Lemma code_prefix_unique (loc : string) (l1 l2 : lang) :
  startswith (code l1) loc = true -> startswith (code l2) loc = true ->
  l1 = l2.
Proof.
  unfold startswith. intros H1 H2.
  destruct loc as [|a loc]; [destruct l1; discriminate H1|].
  destruct loc as [|b r];
    [destruct l1; apply prefix_cons in H1 as [_ H1]; discriminate H1|].
  destruct l1, l2; try reflexivity; exfalso;
    apply prefix_cons in H1 as [Ea H1]; apply prefix_cons in H1 as [Eb _];
    apply prefix_cons in H2 as [Ea' H2]; apply prefix_cons in H2 as [Eb' _];
    congruence.
Qed.

(** X24. The locale is resolved by prefix: a system locale that starts with one
    of the four language codes selects that language, whatever the order in
    which the codes are tried; a missing locale, or one that starts with none
    of them, selects English. *)
Theorem resolve_lang_by_prefix :
  resolve_lang None = en
  /\ (forall loc l, startswith (code l) loc = true ->
        resolve_lang (Some loc) = l)
  /\ (forall loc, (forall l, startswith (code l) loc = false) ->
        resolve_lang (Some loc) = en).
Proof.
  split; [reflexivity|]. split.
  - intros loc l Hl. unfold resolve_lang.
    assert (Hne : truthy loc = true).
    { destruct loc; [destruct l; discriminate Hl|reflexivity]. }
    rewrite Hne. cbn [negb].
    destruct (find (fun l0 => startswith (code l0) loc) [en; de; fr; es])
      as [l'|] eqn:Hf.
    + apply find_some in Hf as [_ Hl']. eapply code_prefix_unique; eauto.
    + exfalso.
      assert (Hin : In l [en; de; fr; es]) by (destruct l; simpl; tauto).
      pose proof (find_none _ _ Hf l Hin) as Hn. cbv beta in Hn. congruence.
  - intros loc Hnone. unfold resolve_lang.
    destruct (negb (truthy loc)); [reflexivity|].
    destruct (find (fun l0 => startswith (code l0) loc) [en; de; fr; es])
      as [l'|] eqn:Hf; [|reflexivity].
    apply find_some in Hf as [_ Hl']. rewrite Hnone in Hl'. discriminate.
Qed.

(** X25. Every translation of a canonical key is lower case already and holds
    no character with a meaning of its own in a pattern, so its place in the
    lookup patterns is that of a literal; and under English the translation of
    any key is the key itself, up to case. *)
Theorem translations_are_literals :
  (forall l key, In key canonical_keys ->
     lower (get_translation l key) = get_translation l key
     /\ forallb_str (fun c => negb (is_metachar c)) (get_translation l key)
        = true)
  /\ forall key, lower (get_translation en key) = lower key.
Proof.
  split.
  - intros l key Hin. unfold canonical_keys in Hin. simpl in Hin.
    destruct l;
      repeat (destruct Hin as [<-|Hin]; [split; vm_compute; reflexivity|]);
      destruct Hin.
  - intros key. unfold get_translation.
    destruct (Dict.get (lower key) (property_translations en)) as [v|] eqn:Hg;
      [|reflexivity].
    cbn [property_translations Dict.get] in Hg.
    repeat match type of Hg with
    | (if String.eqb ?k (lower key) then _ else _) = _ =>
        destruct (String.eqb_spec k (lower key)) as [Hk|_];
        [inversion Hg; subst v; rewrite Hk; apply lower_idempotent|]
    end.
    discriminate Hg.
Qed.

End Locale.

(** ** Failures of the tool *)

Section Failures.

Import AdvancedBootManager.

Variable W : Type.
Variable tool : list string -> W -> run_outcome * W.
Variable path_exists : string -> bool.
Variable lang_code : Translation.lang.
Variable int_max_str_digits : nat.

Lemma never_raises_ret {A} (a : A) : never_raises (ret (W := W) a).
Proof. intros s. exists a, s. reflexivity. Qed.

Lemma never_raises_bind {A B} (c : M W A) (k : A -> M W B) :
  never_raises c -> (forall a, never_raises (k a)) -> never_raises (bind c k).
Proof.
  intros Hc Hk s. unfold bind. destruct (Hc s) as (a & s1 & E). rewrite E.
  apply Hk.
Qed.

(** A [try] whose handler prints and returns lets no exception out,
    whatever its body does. *)
Lemma never_raises_try {A} (body : M W A) (line : py_exception -> string)
  (a : A) :
  never_raises
    (try_except body (fun e => bind (print (line e)) (fun _ => ret a))).
Proof.
  intros s. unfold try_except. destruct (body s) as [[v|e] s1].
  - exists v, s1. reflexivity.
  - do 2 eexists. reflexivity.
Qed.

Lemma reads_only_never_raises {A} (c : M W A) :
  reads_only c -> never_raises c.
Proof.
  intros H s. destruct (H s) as (a & s' & extra & E & _). exists a, s'. exact E.
Qed.

Lemma get_entry_info_never_raises (identifier : string) :
  never_raises (get_entry_info tool identifier).
Proof. apply never_raises_try. Qed.

Lemma set_display_order_never_raises (order_list : list string) :
  never_raises (set_display_order tool order_list).
Proof. apply never_raises_try. Qed.

Lemma move_never_raises (identifier : string) :
  never_raises (move_entry_up tool lang_code identifier)
  /\ never_raises (move_entry_down tool lang_code identifier).
Proof.
  split; intros s;
    destruct (get_display_order_returns tool lang_code s)
      as (order & s0 & Hget & _).
  - destruct (@move_entry_up_cases W tool lang_code identifier s s0 order
                Hget)
      as [(ok & E) | (order' & _ & E)]; rewrite E; [eauto|].
    apply set_display_order_never_raises.
  - destruct (@move_entry_down_cases W tool lang_code identifier s s0 order
                Hget)
      as [(ok & E) | (order' & _ & E)]; rewrite E; [eauto|].
    apply set_display_order_never_raises.
Qed.

Ltac never_raises_steps :=
  repeat first
    [ apply never_raises_try
    | apply never_raises_ret
    | apply get_entry_info_never_raises
    | apply never_raises_bind; [|intros]
    | match goal with
      | |- never_raises (match ?x with _ => _ end) => destruct x
      | |- never_raises (if ?x then _ else _) => destruct x
      | |- never_raises (let _ := _ in _) => cbv zeta
      end ].

(** The readers that have no [try] of their own. *)
Lemma plain_readers_never_raise (identifier : string) :
  never_raises (list_identifiers tool)
  /\ never_raises (get_entry_description tool lang_code identifier)
  /\ never_raises (get_entry_device tool lang_code identifier)
  /\ never_raises (get_entry_path tool lang_code identifier)
  /\ never_raises (get_entry_type tool lang_code identifier)
  /\ never_raises (check_ramdisk tool identifier)
  /\ never_raises (check_uefi tool identifier)
  /\ never_raises
       (has_missing_path_or_device tool path_exists lang_code identifier).
Proof.
  assert (Hdevice : never_raises (get_entry_device tool lang_code identifier))
    by (unfold get_entry_device; never_raises_steps).
  assert (Hpath : never_raises (get_entry_path tool lang_code identifier))
    by (unfold get_entry_path; never_raises_steps).
  repeat split; try assumption.
  - unfold list_identifiers, get_entries. never_raises_steps.
  - unfold get_entry_description. never_raises_steps.
  - unfold get_entry_type. never_raises_steps.
  - unfold check_ramdisk. never_raises_steps.
  - unfold check_uefi. never_raises_steps.
  - unfold has_missing_path_or_device.
    apply never_raises_bind; [exact Hdevice|]. intros device.
    apply never_raises_bind; [exact Hpath|]. intros path.
    destruct (_ || _); [apply never_raises_ret|].
    destruct (startswith _ _); [|apply never_raises_ret].
    apply never_raises_bind.
    + apply reads_only_never_raises. apply partition_exists_reads_only.
    + intros there. destruct (negb there); apply never_raises_ret.
Qed.

Ltac first_command :=
  intros s; cbv zeta;
  match goal with
  | |- match fst (?t ?argv ?w) with _ => _ end =>
      let result := fresh "result" in
      let e := fresh "e" in
      let w' := fresh "w" in
      let E := fresh "Efirst" in
      let Hrc := fresh "Hrc" in
      destruct (t argv w) as [[result|e] w'] eqn:E; cbn [fst];
      [intros Hrc; apply Z.eqb_neq in Hrc|]
  end.

Ltac run_on :=
  repeat
    (cbn [world issued printed negb andb fst snd];
     match goal with
     | E : ?t ?argv ?w = (_, _) |- context [?t ?argv ?w] => rewrite E
     | H : (returncode ?r =? 0)%Z = false
       |- context [(returncode ?r =? 0)%Z] => rewrite H
     | |- context [let (_, _) := ?t ?argv ?w in _] =>
         destruct (t argv w) as [[? | ?] ?]
     | |- context [if falsy ?x then _ else _] => destruct (falsy x)
     | |- context [given None] => change (given None) with (@None string)
     | |- context [match given ?x with _ => _ end] => destruct (given x)
     | |- context [if negb (returncode ?r =? 0)%Z then _ else _] =>
         destruct (returncode r =? 0)%Z
     end);
  cbn [world issued printed negb andb orb truthy fst snd].

Ltac reported :=
  do 2 eexists; split;
  [reflexivity | cbn [issued]; rewrite <- ?app_assoc; reflexivity].

(** The readers report the two failures of their first command alike. *)
Lemma readers_fail_alike (identifier : string) :
  fails_alike tool ["bcdedit"; "/enum"; "/v"] None (get_entries tool)
  /\ fails_alike tool ["bcdedit"; "/enum"; "/v"] [] (list_identifiers tool)
  /\ fails_alike tool ["bcdedit"; "/enum"; identifier; "/v"] None
       (get_entry_info tool identifier)
  /\ fails_alike tool ["bcdedit"; "/enum"; identifier; "/v"] "Unknown"
       (get_entry_description tool lang_code identifier)
  /\ fails_alike tool ["bcdedit"; "/enum"; identifier; "/v"] ""
       (get_entry_device tool lang_code identifier)
  /\ fails_alike tool ["bcdedit"; "/enum"; identifier; "/v"] ""
       (get_entry_path tool lang_code identifier)
  /\ fails_alike tool ["bcdedit"; "/enum"; identifier; "/v"] "Unknown"
       (get_entry_type tool lang_code identifier)
  /\ fails_alike tool ["bcdedit"; "/enum"; identifier; "/v"] false
       (check_ramdisk tool identifier)
  /\ fails_alike tool ["bcdedit"; "/enum"; identifier; "/v"] false
       (check_uefi tool identifier)
  /\ fails_alike tool ["bcdedit"; "/enum"; identifier; "/v"] true
       (has_missing_path_or_device tool path_exists lang_code identifier)
  /\ fails_alike tool ["bcdedit"; "/enum"; "{bootmgr}"] []
       (get_display_order tool lang_code)
  /\ fails_alike tool ["bcdedit"; "/enum"; "{bootmgr}"] 30%Z
       (get_timeout tool lang_code int_max_str_digits).
Proof.
  repeat split; first_command.
  all: unfold has_missing_path_or_device, list_identifiers, get_entries,
         get_entry_description, get_entry_device, get_entry_path,
         get_entry_type, check_ramdisk, check_uefi, get_entry_info,
         get_display_order, get_timeout;
       unfold_monad; run_on; reported.
Qed.

(** The writers that test the exit code of their first command report the
    two failures of that command alike. *)
Lemma writers_fail_alike
  (device path type port baudrate default_entry : option string)
  (identifier option value filename description vhd_path : string)
  (sdi_device sdi_path processor_arch : string) :
  fails_alike tool ["bcdedit"; "/default"; identifier] (false, default_entry)
    (set_default_entry tool identifier default_entry)
  /\ fails_alike tool ["bcdedit"; "/delete"; identifier] false
       (delete_entry tool identifier)
  /\ fails_alike tool ["bcdedit"; "/set"; identifier; option; value] false
       (modify_entry tool identifier option value)
  /\ fails_alike tool ["bcdedit"; "/deletevalue"; identifier; option] false
       (delete_entry_value tool identifier option)
  /\ fails_alike tool ["bcdedit"; "/export"; filename] false
       (export_bcd tool filename)
  /\ fails_alike tool ["bcdedit"; "/import"; filename] false
       (import_bcd tool filename)
  /\ fails_alike tool ["bcdedit"; "/copy"; "{current}"; "/d"; description] None
       (add_entry tool description device path type)
  /\ fails_alike tool ["bcdedit"; "/copy"; "{current}"; "/d"; description] None
       (create_vhd_boot_entry tool description vhd_path)
  /\ fails_alike tool
       ["bcdedit"; "/set"; identifier; "ramdisksdidevice"; sdi_device] false
       (add_ramdisk tool identifier sdi_device sdi_path processor_arch)
  /\ fails_alike tool ["bcdedit"; "/set"; identifier; "debug"; "on"] false
       (enable_kernel_debugging tool identifier port baudrate)
  /\ fails_alike tool ["bcdedit"; "/set"; identifier; "debug"; "off"] false
       (disable_kernel_debugging tool identifier)
  /\ fails_alike tool ["bcdedit"; "/enum"; "{bootmgr}"] false
       (move_entry_up tool lang_code identifier)
  /\ fails_alike tool ["bcdedit"; "/enum"; "{bootmgr}"] false
       (move_entry_down tool lang_code identifier).
Proof.
  repeat split; first_command.
  all: unfold set_default_entry, delete_entry, modify_entry,
         delete_entry_value, export_bcd, import_bcd, create_vhd_boot_entry,
         add_entry, add_ramdisk, enable_kernel_debugging,
         disable_kernel_debugging, move_entry_up, move_entry_down,
         get_display_order;
       unfold_monad; run_on; reported.
Qed.

(** [set_timeout] within the digit limit of [str]. *)
Lemma set_timeout_fails_alike (seconds : Z) :
  exceeds_str_digits int_max_str_digits seconds = false ->
  fails_alike tool ["bcdedit"; "/timeout"; str_of_Z seconds] false
    (set_timeout tool int_max_str_digits seconds).
Proof.
  intros Hex. first_command.
  all: unfold set_timeout, str_of_int; rewrite Hex; unfold_monad; run_on;
       reported.
Qed.


End Failures.

(** ** The timeout handler on valid input *)

Section HandlerValid.

Variable W : Type.
Variable tool : list string -> W -> run_outcome * W.
Variable int : string -> option Z.
Variable int_max_str_digits : nat.

Lemma within_str_digits (n : Z) :
  (0 <= n)%Z ->
  int_max_str_digits = 0
  \/ String.length (str_of_Z n) <= int_max_str_digits ->
  exceeds_str_digits int_max_str_digits n = false.
Proof.
  intros Hn H. unfold exceeds_str_digits. rewrite (Z.abs_eq n Hn).
  destruct H as [-> | H]; [reflexivity|].
  apply andb_false_iff. right. apply Nat.ltb_ge. exact H.
Qed.


End HandlerValid.

(** ** The further properties on sample inputs *)

Section FurtherSamples.

Import AdvancedBootManager Sample.

(** X2, on a sample: a ramdisk whose device command is rejected: the two other
    commands are issued all the same, and the result is failure. *)
Lemma add_ramdisk_applies_all_sample :
  add_ramdisk (refusing "ramdisksdidevice") id_a "partition=C:"
    "\boot\boot.sdi" "x64" (initial tt)
  = (Return false,
     {| world := tt;
        issued :=
          [["bcdedit"; "/set"; id_a; "ramdisksdidevice"; "partition=C:"];
           ["bcdedit"; "/set"; id_a; "ramdisksdipath"; "\boot\boot.sdi"];
           ["bcdedit"; "/set"; id_a; "ramdisksdiprocessorarchitecture"; "x64"]];
        printed := [] |}).
Proof.
  exact (add_ramdisk_applies_all (refusing "ramdisksdidevice") id_a
           "partition=C:" "\boot\boot.sdi" "x64" (initial tt)
           eq_refl eq_refl eq_refl).
Defined.

(** X3, on a sample: a tool that vanishes after the first command. *)
Lemma add_ramdisk_stops_at_spawn_failure_sample :
  add_ramdisk (vanishing 1) id_a "partition=C:" "\boot\boot.sdi" "x64"
    (initial 0)
  = (Return false,
     {| world := 2;
        issued :=
          [["bcdedit"; "/set"; id_a; "ramdisksdidevice"; "partition=C:"];
           ["bcdedit"; "/set"; id_a; "ramdisksdipath"; "\boot\boot.sdi"]];
        printed := ["Error adding ramdisk: [WinError 5] Access is denied"] |}).
Proof.
  exact (add_ramdisk_stops_at_spawn_failure (vanishing 1) id_a "partition=C:"
           "\boot\boot.sdi" "x64" (initial 0) eq_refl eq_refl).
Defined.

(** X4, on a sample: every delete is rejected, and the removal still reports
    success. *)
Lemma remove_ramdisk_ignores_exit_codes_sample :
  remove_ramdisk (refusing "/deletevalue") id_a (initial tt)
  = (Return true,
     {| world := tt;
        issued :=
          [["bcdedit"; "/deletevalue"; id_a; "ramdisksdidevice"];
           ["bcdedit"; "/deletevalue"; id_a; "ramdisksdipath"];
           ["bcdedit"; "/deletevalue"; id_a; "ramdisksdiprocessorarchitecture"]];
        printed := [] |}).
Proof.
  exact (remove_ramdisk_ignores_exit_codes (refusing "/deletevalue") id_a
           (initial tt) eq_refl eq_refl eq_refl).
Defined.

Lemma refusing_reachable (word : string) : reachable (refusing word).
Proof. intros argv w. do 2 eexists. reflexivity. Qed.

(** X5, on a sample: debugging with a port and an empty baud rate, on a tool
    that rejects the debug-on command: the port command is issued all the
    same. *)
Lemma enable_kernel_debugging_result_sample :
  exists debug_result w s',
    refusing "debug" ["bcdedit"; "/set"; id_a; "debug"; "on"] tt
    = (Completed debug_result, w)
    /\ enable_kernel_debugging (refusing "debug") id_a (Some "COM1") (Some "")
         (initial tt)
       = (Return (returncode debug_result =? 0)%Z, s')
    /\ issued s'
       = [["bcdedit"; "/set"; id_a; "debug"; "on"];
          ["bcdedit"; "/set"; id_a; "debugport"; "COM1"]].
Proof.
  exact (enable_kernel_debugging_result id_a (Some "COM1") (Some "") (initial tt)
           (refusing_reachable "debug")).
Defined.

(** X6 on a sample input. *)
Lemma disable_kernel_debugging_result_sample :
  disable_kernel_debugging (refusing "/deletevalue") id_a (initial tt)
  = (Return true,
     {| world := tt;
        issued :=
          [["bcdedit"; "/set"; id_a; "debug"; "off"];
           ["bcdedit"; "/deletevalue"; id_a; "debugport"];
           ["bcdedit"; "/deletevalue"; id_a; "debugbaudrate"]];
        printed := [] |}).
Proof.
  exact (disable_kernel_debugging_result (refusing "/deletevalue") id_a
           (initial tt) eq_refl eq_refl eq_refl).
Defined.

(** X7, on a sample: a new entry with a device and a type, on a tool that
    rejects every set command. *)
Lemma add_entry_follow_up_commands_sample :
  exists s',
    add_entry (refusing "/set") "Windows 11" (Some "partition=D:") None
      (Some "osloader") (initial tt)
    = (Return (Some "{7e9c1f2a-aaaa-bbbb-cccc-0123456789ab}"), s')
    /\ issued s'
       = [["bcdedit"; "/copy"; "{current}"; "/d"; "Windows 11"];
          ["bcdedit"; "/set"; "{7e9c1f2a-aaaa-bbbb-cccc-0123456789ab}";
           "device"; "partition=D:"];
          ["bcdedit"; "/set"; "{7e9c1f2a-aaaa-bbbb-cccc-0123456789ab}";
           "osdevice"; "partition=D:"];
          ["bcdedit"; "/set"; "{7e9c1f2a-aaaa-bbbb-cccc-0123456789ab}";
           "type"; "osloader"]].
Proof.
  exact (add_entry_follow_up_commands "Windows 11" (Some "partition=D:") None
           (Some "osloader") (initial tt) (refusing_reachable "/set")
           eq_refl eq_refl eq_refl).
Defined.

(** X8 on a sample input. *)
Lemma create_vhd_copy_failure_sample :
  exists s',
    create_vhd_boot_entry rejecting_tool "Windows on VHD" "D:\disks\w.vhdx"
      (initial tt)
    = (Return None, s')
    /\ issued s'
       = issued (initial tt)
         ++ [["bcdedit"; "/copy"; "{current}"; "/d"; "Windows on VHD"]].
Proof.
  apply (create_vhd_copy_failure rejecting_tool "Windows on VHD"
           "D:\disks\w.vhdx" (initial tt)).
  simpl. left. discriminate.
Defined.

(** X9 on a sample input. *)
Lemma create_vhd_commands_sample :
  create_vhd_boot_entry (refusing "/set") "Windows on VHD" "D:\disks\w.vhdx"
    (initial tt)
  = (Return (Some "{7e9c1f2a-aaaa-bbbb-cccc-0123456789ab}"),
     {| world := tt;
        issued :=
          [["bcdedit"; "/copy"; "{current}"; "/d"; "Windows on VHD"];
           ["bcdedit"; "/set"; "{7e9c1f2a-aaaa-bbbb-cccc-0123456789ab}";
            "device"; "vhd=[D:\disks\w.vhdx]"];
           ["bcdedit"; "/set"; "{7e9c1f2a-aaaa-bbbb-cccc-0123456789ab}";
            "osdevice"; "vhd=[D:\disks\w.vhdx]"];
           ["bcdedit"; "/set"; "{7e9c1f2a-aaaa-bbbb-cccc-0123456789ab}";
            "detecthal"; "yes"];
           ["bcdedit"; "/set"; "{7e9c1f2a-aaaa-bbbb-cccc-0123456789ab}";
            "nx"; "OptIn"]];
        printed := [] |}).
Proof.
  exact (create_vhd_commands (refusing "/set") "Windows on VHD"
           "D:\disks\w.vhdx" (initial tt)
           (new_id := "{7e9c1f2a-aaaa-bbbb-cccc-0123456789ab}")
           eq_refl eq_refl eq_refl eq_refl eq_refl eq_refl eq_refl).
Defined.

(** X10 on a sample input. *)
Lemma create_vhd_loses_created_entry_sample :
  create_vhd_boot_entry (vanishing 1) "Windows on VHD" "D:\disks\w.vhdx"
    (initial 0)
  = (Return None,
     {| world := 2;
        issued :=
          [["bcdedit"; "/copy"; "{current}"; "/d"; "Windows on VHD"];
           ["bcdedit"; "/set"; "{7e9c1f2a-aaaa-bbbb-cccc-0123456789ab}";
            "device"; "vhd=[D:\disks\w.vhdx]"]];
        printed :=
          ["Error creating VHD boot entry: [WinError 5] Access is denied"] |}).
Proof.
  exact (create_vhd_loses_created_entry (vanishing 1) "Windows on VHD"
           "D:\disks\w.vhdx" (initial 0)
           (new_id := "{7e9c1f2a-aaaa-bbbb-cccc-0123456789ab}")
           eq_refl eq_refl eq_refl eq_refl).
Defined.

(** X12, on a sample: moving the middle entry of three down issues, after
    the read, the clear command and one set-order command that carries the
    three entries. *)
Lemma moves_write_a_rearrangement_sample :
  exists ok s' l,
    move_entry_down store_tool Translation.en id_b (initial [id_a; id_b; id_c])
    = (Return ok, s')
    /\ issued s'
       = [["bcdedit"; "/enum"; "{bootmgr}"];
          ["bcdedit"; "/deletevalue"; "{bootmgr}"; "displayorder"];
          "bcdedit" :: "/displayorder" :: l]
    /\ Permutation.Permutation [id_a; id_b; id_c] l.
Proof.
  destruct (moves_write_a_rearrangement store_tool Translation.en id_b
              (initial [id_a; id_b; id_c]))
    as (order & s0 & Hget & Hmove).
  assert (Eget : get_display_order store_tool Translation.en
                   (initial [id_a; id_b; id_c])
                 = (Return [id_a; id_b; id_c],
                    {| world := [id_a; id_b; id_c];
                       issued := [["bcdedit"; "/enum"; "{bootmgr}"]];
                       printed := [] |}))
    by (vm_compute; reflexivity).
  rewrite Hget in Eget. injection Eget as -> ->.
  destruct (Hmove _ (or_intror eq_refl))
    as (ok & s' & extra & Hrun & Hissued & Hextra).
  assert (Erun : issued (snd (move_entry_down store_tool Translation.en id_b
                                (initial [id_a; id_b; id_c])))
                 = [["bcdedit"; "/enum"; "{bootmgr}"];
                    ["bcdedit"; "/deletevalue"; "{bootmgr}"; "displayorder"];
                    ["bcdedit"; "/displayorder"; id_a; id_c; id_b]])
    by (vm_compute; reflexivity).
  rewrite Hrun in Erun. cbn [snd] in Erun. rewrite Hissued in Erun.
  destruct Hextra as [-> | [-> | (l & -> & Hperm)]];
    [discriminate Erun | discriminate Erun |].
  exists ok, s', l. split; [exact Hrun|]. split; [exact Hissued|exact Hperm].
Defined.

(** X13, on a sample: the first of three entries moved down and up again. *)
Lemma move_down_then_up_restores_sample :
  exists ok1 s1 ok2 s2,
    move_entry_down store_tool Translation.en id_a
      (initial [id_a; id_b; id_c])
    = (Return ok1, s1)
    /\ move_entry_up store_tool Translation.en id_a s1 = (Return ok2, s2)
    /\ issued s2
       = [["bcdedit"; "/enum"; "{bootmgr}"];
          ["bcdedit"; "/deletevalue"; "{bootmgr}"; "displayorder"];
          ["bcdedit"; "/displayorder"; id_b; id_a; id_c];
          ["bcdedit"; "/enum"; "{bootmgr}"];
          ["bcdedit"; "/deletevalue"; "{bootmgr}"; "displayorder"];
          ["bcdedit"; "/displayorder"; id_a; id_b; id_c]].
Proof.
  assert (Hne : id_b <> id_a) by (vm_compute; discriminate).
  destruct (move_down_then_up_restores (tool := store_tool) Translation.en
              (identifier := id_a) (next := id_b)
              (initial [id_a; id_b; id_c])
              (order := [id_a; id_b; id_c]) (index := 0)
              eq_refl eq_refl eq_refl Hne store_tool_reachable)
    as (order' & ok1 & s1 & Hswap & Hdown & Hissued & Hup).
  vm_compute in Hswap. injection Hswap as <-.
  exists ok1, s1.
  assert (Es1 : move_entry_down store_tool Translation.en id_a
                  (initial [id_a; id_b; id_c])
                = (Return true,
                   {| world := [id_b; id_a; id_c];
                      issued :=
                        [["bcdedit"; "/enum"; "{bootmgr}"];
                         ["bcdedit"; "/deletevalue"; "{bootmgr}"; "displayorder"];
                         ["bcdedit"; "/displayorder"; id_b; id_a; id_c]];
                      printed := [] |}))
    by (vm_compute; reflexivity).
  rewrite Hdown in Es1. injection Es1 as -> ->.
  destruct (Hup
              {| world := [id_b; id_a; id_c];
                 issued :=
                   [["bcdedit"; "/enum"; "{bootmgr}"];
                    ["bcdedit"; "/deletevalue"; "{bootmgr}"; "displayorder"];
                    ["bcdedit"; "/displayorder"; id_b; id_a; id_c];
                    ["bcdedit"; "/enum"; "{bootmgr}"]];
                 printed := [] |})
    as (ok2 & s2 & Hrun & Hiss2); [vm_compute; reflexivity|].
  exists ok2, s2. split; [exact Hdown|]. split; [exact Hrun|exact Hiss2].
Defined.

(** X16, on a sample: a store that cannot be opened: the timeout read is the
    default. *)
Lemma get_timeout_never_fails_sample :
  exists s',
    get_timeout rejecting_tool Translation.en 4300 (initial tt)
    = (Return 30%Z, s').
Proof.
  destruct (get_timeout_never_fails rejecting_tool Translation.en 4300
              (initial tt))
    as (seconds & s' & Hrun & _ & _ & H).
  unfold rejecting_tool in H. cbn [fst returncode] in H.
  assert (E : seconds = 30%Z) by (apply H; left; discriminate).
  exists s'. rewrite <- E. exact Hrun.
Defined.

(** X17, on a sample: the sample store shows a timeout of 30 seconds. *)
Lemma get_timeout_reads_numeral_sample :
  get_timeout store_tool Translation.en 4300 (initial [id_a; id_b])
  = (Return 30%Z,
     {| world := [id_a; id_b];
        issued := [["bcdedit"; "/enum"; "{bootmgr}"]];
        printed := [] |}).
Proof.
  assert (Hpos : (0 <= 30)%Z) by lia.
  assert (Hlen : String.length (str_of_Z 30) <= 4300)
    by (apply Nat.leb_le; reflexivity).
  exact (get_timeout_reads_numeral store_tool Translation.en
           (int_max_str_digits := 4300) (seconds := 30%Z)
           (initial [id_a; id_b]) Hpos eq_refl eq_refl eq_refl
           (or_intror Hlen)).
Defined.

(** X18, on a sample: a boot-manager query that is rejected is followed by the
    full enumeration. *)
Lemma get_default_entry_result_sample :
  exists value remembered s',
    get_default_entry rejecting_tool Translation.en (Some id_a) (initial tt)
    = (Return (value, remembered), s')
    /\ issued s'
       = [["bcdedit"; "/enum"; "{bootmgr}"]; ["bcdedit"; "/enum"; "/v"]].
Proof.
  destruct (get_default_entry_result rejecting_tool Translation.en (Some id_a)
              (initial tt))
    as (value & remembered & s' & Hrun & _ & Hissued).
  unfold rejecting_tool in Hissued. cbn [fst returncode] in Hissued.
  exists value, remembered, s'. split; [exact Hrun|].
  apply Hissued. discriminate.
Defined.

(** X19, on a sample: the device line of the sample record. *)
Lemma parse_entry_properties_well_formed_sample :
  NoDup (map fst (parse_entry_properties (entry_dump id_a)))
  /\ "device" <> ""
  /\ lower "device" = "device"
  /\ forallb_str (fun c => negb (isspace c)) "device" = true
  /\ "partition=C:" <> ""
  /\ strip "partition=C:" = "partition=C:".
Proof.
  destruct (parse_entry_properties_well_formed (entry_dump id_a)) as [Hnd H].
  split; [exact Hnd|].
  apply H. vm_compute.
  repeat first [left; reflexivity | right].
Defined.

(** X20, on a sample: the full enumeration of a store of two entries. *)
Lemma first_listed_identifier_is_bound_sample :
  Dict.get "identifier"
    (parse_entry_properties
       (stdout (store_answer ["bcdedit"; "/enum"; "/v"] [id_a; id_b])))
  = Some id_a.
Proof.
  apply (first_listed_identifier_is_bound (list string) store_tool
           (initial [id_a; id_b])
           {| world := [id_a; id_b];
              issued := [["bcdedit"; "/enum"; "/v"]];
              printed := [] |}
           [id_a; "{0a1b2c3d-0000-1111-2222-333344445555}"; id_b] id_a
           (store_answer ["bcdedit"; "/enum"; "/v"] [id_a; id_b])
           [id_a; id_b]).
  - reflexivity.
  - reflexivity.
  - vm_compute. reflexivity.
  - reflexivity.
Defined.

(** X22 on a sample input. *)
Lemma description_and_type_without_dump_sample :
  exists s',
    get_entry_description rejecting_tool Translation.de id_a (initial tt)
    = (Return "Unknown", s')
    /\ get_entry_type rejecting_tool Translation.de id_a (initial tt)
       = (Return "Unknown", s').
Proof.
  apply (description_and_type_without_dump unit rejecting_tool Translation.de
           id_a (initial tt)).
  simpl. left. discriminate.
Defined.

(** X23, on a sample: a machine whose only drive is C. *)
Lemma partition_exists_probe_sample :
  partition_exists (fun p => String.eqb p "C:\") "Partition=C:" (initial tt)
  = (Return true, initial tt)
  /\ endswith "\" (as_root "C:") = true.
Proof.
  destruct (partition_exists_probe unit (fun p => String.eqb p "C:\")
              "Partition=C:" (initial tt))
    as (there & Hrun & _ & H).
  destruct (H "Partition=" "C:" eq_refl eq_refl) as [Hthere Hend].
  split; [|exact Hend].
  rewrite Hrun, Hthere. reflexivity.
Defined.

(** X24, on a sample: a German system locale. *)
Lemma resolve_lang_by_prefix_sample :
  Translation.resolve_lang (Some "de_DE") = Translation.de.
Proof.
  apply (proj1 (proj2 resolve_lang_by_prefix)). reflexivity.
Defined.

(** X25, on a sample: the French word for the device. *)
Lemma translations_are_literals_sample :
  lower (Translation.get_translation Translation.fr "device")
  = Translation.get_translation Translation.fr "device"
  /\ forallb_str (fun c => negb (is_metachar c))
       (Translation.get_translation Translation.fr "device")
     = true.
Proof.
  apply (proj1 translations_are_literals).
  vm_compute. repeat first [left; reflexivity | right].
Defined.




End FurtherSamples.
